(** * audiov1: media resolution and delivery pipeline

    A shallow embedding of the parts of [messenger.py] and [search.py] that
    implement the session cache, the callback router, the platform
    resolvers' format filtering, the best-audio selection, the two-phase
    resolver and the streaming downloaders, together with the properties
    the specification states about them.

    Conventions of the embedding.
    - A Python [str] is a [string]; every element stands for one character.
      Case mapping is the ASCII one: the comparisons the code performs after
      [lower()] / [upper()] are against ASCII literals only.
    - A decoded JSON document or a Python object built from one is a
      [pyval]; a Python [dict] keeps its keys in insertion order and is an
      association list with first-match lookup.
    - A Python exception is a value of [exn], and code that can raise
      lives in the [result] monad.
    - [datetime] values are integers (microseconds); every call of
      [datetime.now()] that a cache method makes consumes one reading of
      the clock of the [world].
    - The local file system is a tree of directories and regular files
      with the working directory of the process; a path is resolved
      component by component, the way the kernel does it. *)

From Stdlib Require Import Ascii.
From stdpp Require Import base option list strings pretty gmap.

Local Open Scope string_scope.
Local Open Scope Z_scope.

#[local] Set Warnings "-register-all".

(* ===================================================================== *)
(** * Part I: the program                                                 *)
(* ===================================================================== *)

(** ** Python strings *)

Definition is_upper (c : ascii) : bool :=
  (65 <=? nat_of_ascii c)%nat && (nat_of_ascii c <=? 90)%nat.

Definition is_lower (c : ascii) : bool :=
  (97 <=? nat_of_ascii c)%nat && (nat_of_ascii c <=? 122)%nat.

Definition lower_char (c : ascii) : ascii :=
  if is_upper c then ascii_of_nat (nat_of_ascii c + 32) else c.

Definition upper_char (c : ascii) : ascii :=
  if is_lower c then ascii_of_nat (nat_of_ascii c - 32) else c.

(** [s.lower()] and [s.upper()] *)
Fixpoint lower (s : string) : string :=
  match s with
  | EmptyString => EmptyString
  | String c s' => String (lower_char c) (lower s')
  end.

Fixpoint upper (s : string) : string :=
  match s with
  | EmptyString => EmptyString
  | String c s' => String (upper_char c) (upper s')
  end.

(** [s.startswith(p)] *)
Fixpoint startswith (p s : string) : bool :=
  match p, s with
  | EmptyString, _ => true
  | String a p', String b s' => Ascii.eqb a b && startswith p' s'
  | String _ _, EmptyString => false
  end.

(** [p in s] for two strings *)
Fixpoint contains (p s : string) : bool :=
  startswith p s ||
  match s with
  | EmptyString => false
  | String _ s' => contains p s'
  end.

(** [s.split(sep)] for a one-character separator: never the empty list. *)
Fixpoint split (sep : ascii) (s : string) : list string :=
  match s with
  | EmptyString => [EmptyString]
  | String c s' =>
      if Ascii.eqb c sep then EmptyString :: split sep s'
      else match split sep s' with
           | x :: r => String c x :: r
           | [] => [String c EmptyString]
           end
  end.

(** [s[:n]] *)
Fixpoint str_take (n : nat) (s : string) : string :=
  match n, s with
  | S n', String c s' => String c (str_take n' s')
  | _, _ => EmptyString
  end.

Fixpoint str_filter (keep : ascii -> bool) (s : string) : string :=
  match s with
  | EmptyString => EmptyString
  | String c s' =>
      if keep c then String c (str_filter keep s') else str_filter keep s'
  end.

Fixpoint str_chars (s : string) : list ascii :=
  match s with
  | EmptyString => []
  | String c s' => c :: str_chars s'
  end.

(** [s.rstrip(chars)]: the longest prefix of [s] that does not end in a
    character of [chars]. *)
Fixpoint rstrip (strip : ascii -> bool) (s : string) : string :=
  match s with
  | EmptyString => EmptyString
  | String c s' =>
      match rstrip strip s' with
      | EmptyString => if strip c then EmptyString else String c EmptyString
      | String c' r => String c (String c' r)
      end
  end.

(** ** [clean_filename] (messenger.py 55-56, search.py 29-31)

    The regular expression is a character class of nine characters: the
    angle brackets, the colon, the double quote (code 34), the slash, the
    backslash (code 92), the bar, the question mark and the star. Every
    occurrence is deleted and the result is cut to its first 100
    characters. *)

Definition hostile_chars : list ascii :=
  ["<"; ">"; ":"; ascii_of_nat 34; "/"; ascii_of_nat 92; "|"; "?"; "*"]%char.

Definition is_hostile (c : ascii) : bool :=
  existsb (Ascii.eqb c) hostile_chars.

Definition clean_filename (title : string) : string :=
  str_take 100 (str_filter (fun c => negb (is_hostile c)) title).

(** ** Python values and exceptions *)

(** What [response.json()] returns, and what the resolvers build from it.
    A [PDict] lists its items in insertion order. *)
Inductive pyval : Type :=
| PNone
| PBool (b : bool)
| PInt (n : Z)
| PStr (s : string)
| PList (l : list pyval)
| PDict (d : list (string * pyval)).

Inductive exn : Type :=
| AttributeError
| TypeError
| KeyError
| ValueError
| RequestException
| OSError
| RaisedException (msg : string).

(** A computation that returns or raises. *)
Inductive result (A : Type) : Type :=
| Ok (a : A)
| Raise (e : exn).
Arguments Ok {A} a.
Arguments Raise {A} e.

Definition rbind {A B} (m : result A) (k : A -> result B) : result B :=
  match m with
  | Ok a => k a
  | Raise e => Raise e
  end.

Declare Scope result_scope.
Delimit Scope result_scope with result.
Notation "x <- m ;; k" := (rbind m (fun x => k))
  (at level 100, m at next level, right associativity) : result_scope.

(** Lookup in an insertion-ordered dictionary. *)
Fixpoint dict_get {V} (k : string) (d : list (string * V)) : option V :=
  match d with
  | [] => None
  | (k', v) :: d' => if String.eqb k k' then Some v else dict_get k d'
  end.

(** [d[k] = v]: an existing key keeps its position, a new key goes last. *)
Fixpoint dict_set {V} (k : string) (v : V) (d : list (string * V))
  : list (string * V) :=
  match d with
  | [] => [(k, v)]
  | (k', v') :: d' =>
      if String.eqb k k' then (k, v) :: d' else (k', v') :: dict_set k v d'
  end.

(** [del d[k]] *)
Fixpoint dict_del {V} (k : string) (d : list (string * V))
  : list (string * V) :=
  match d with
  | [] => []
  | (k', v') :: d' =>
      if String.eqb k k' then dict_del k d' else (k', v') :: dict_del k d'
  end.

(** [bool(v)] *)
Definition truthy (v : pyval) : bool :=
  match v with
  | PNone => false
  | PBool b => b
  | PInt n => negb (n =? 0)
  | PStr s => negb (String.eqb s EmptyString)
  | PList l => match l with [] => false | _ => true end
  | PDict d => match d with [] => false | _ => true end
  end.

(** [o.get(k, dflt)]: only a dict has the method. *)
Definition py_get (o : pyval) (k : string) (dflt : pyval) : result pyval :=
  match o with
  | PDict d => Ok (default dflt (dict_get k d))
  | _ => Raise AttributeError
  end.

(** [o[k]] with a string key *)
Definition py_getitem (o : pyval) (k : string) : result pyval :=
  match o with
  | PDict d => match dict_get k d with
               | Some v => Ok v
               | None => Raise KeyError
               end
  | _ => Raise TypeError
  end.

(** [v.lower()] and [v.upper()]: only a str has the methods. *)
Definition py_lower (v : pyval) : result string :=
  match v with
  | PStr s => Ok (lower s)
  | _ => Raise AttributeError
  end.

Definition py_upper (v : pyval) : result string :=
  match v with
  | PStr s => Ok (upper s)
  | _ => Raise AttributeError
  end.

(** [v == s] for a string literal [s] *)
Definition py_eq_str (v : pyval) (s : string) : bool :=
  match v with
  | PStr s' => String.eqb s' s
  | _ => false
  end.

(** [v in [s1, s2, ...]] for a list of string literals *)
Definition py_in_strs (v : pyval) (l : list string) : bool :=
  existsb (py_eq_str v) l.

(** [for item in v]: the items a [for] loop visits. *)
Definition py_iter (v : pyval) : result (list pyval) :=
  match v with
  | PList l => Ok l
  | PDict d => Ok (map (fun kv => PStr (fst kv)) d)
  | PStr s => Ok (map (fun c => PStr (String c EmptyString)) (str_chars s))
  | _ => Raise TypeError
  end.

(** [clean_filename] applied to an arbitrary value: [re.sub] accepts a str
    only. *)
Definition py_clean_filename (v : pyval) : result string :=
  match v with
  | PStr s => Ok (clean_filename s)
  | _ => Raise TypeError
  end.

(** ** The session cache (messenger.py 20-25, 80-108) *)

(** [timedelta(minutes=15)], in microseconds *)
Definition cache_ttl : Z := 15 * 60 * 1000000.

(** A value of [self.cache] *)
Record cache_entry : Type := CacheEntry {
  data : pyval;
  expires_at : Z
}.

(** The mutable state the cache methods see: the [self.cache] dict and the
    wall clock. [clock w n] is what the [n]-th call of [datetime.now()]
    returns; [reads w] counts the calls made so far. *)
Record world : Type := World {
  cache : list (string * cache_entry);
  clock : nat -> Z;
  reads : nat
}.

Definition M (A : Type) : Type := world -> A * world.

Definition ret {A} (a : A) : M A := fun w => (a, w).

Definition bind {A B} (m : M A) (k : A -> M B) : M B :=
  fun w => let (a, w') := m w in k a w'.

Declare Scope state_scope.
Delimit Scope state_scope with state.
Notation "x <- m ;; k" := (bind m (fun x => k))
  (at level 100, m at next level, right associativity) : state_scope.
Notation "m ;;; k" := (bind m (fun _ => k))
  (at level 100, right associativity) : state_scope.

(** [datetime.now()] *)
Definition now : M Z :=
  fun w => (clock w (reads w),
            {| cache := cache w; clock := clock w; reads := S (reads w) |}).

Definition get_cache : M (list (string * cache_entry)) :=
  fun w => (cache w, w).

Definition put_cache (c : list (string * cache_entry)) : M unit :=
  fun w => (tt, {| cache := c; clock := clock w; reads := reads w |}).

(** The list comprehension of [cleanup_expired_cache]: one clock reading per
    item, in the order of the dict. *)
Fixpoint expired_keys (items : list (string * cache_entry)) : M (list string) :=
  match items with
  | [] => ret []
  | (key, e) :: rest =>
      (t <- now ;;
       keys <- expired_keys rest ;;
       ret (if t >? expires_at e then key :: keys else keys))%state
  end.

Definition cleanup_expired_cache : M unit :=
  (c <- get_cache ;;
   expired <- expired_keys c ;;
   put_cache (fold_left (fun c' key => dict_del key c') expired c))%state.

Definition store_in_cache (session_id : string) (d : pyval) : M unit :=
  (cleanup_expired_cache ;;;
   t <- now ;;
   c <- get_cache ;;
   put_cache (dict_set session_id
                {| data := d; expires_at := t + cache_ttl |} c))%state.

(** [None] is Python's [None]. The clock is read only when the entry
    exists: [and] does not evaluate its right operand otherwise. *)
Definition get_from_cache (session_id : string) : M (option pyval) :=
  (cleanup_expired_cache ;;;
   c <- get_cache ;;
   match dict_get session_id c with
   | Some e =>
       t <- now ;;
       ret (if t <=? expires_at e then Some (data e) else None)
   | None => ret None
   end)%state.

(** A fresh [MessengerDownloader]: an empty cache. *)
Definition init_world (clk : nat -> Z) : world :=
  {| cache := []; clock := clk; reads := 0 |}.

(** ** Platform resolvers (messenger.py 131-408)

    A resolver is modelled from the decoded response of the external
    endpoint up to the call of [store_in_cache]; [timestamp] (the
    [strftime] of the moment of the request) and [session_id]
    ([str(uuid.uuid4())]) are inputs. What a resolver renders is kept as
    the list of the [callback_data] tokens of its buttons. *)

Record resolved : Type := Resolved {
  cache_data : pyval;
  buttons : list string
}.

(** [needle in v] for a string literal [needle] *)
Definition py_contains_str (needle : string) (v : pyval) : result bool :=
  match v with
  | PStr s => Ok (contains needle s)
  | PList l => Ok (existsb (fun x => py_eq_str x needle) l)
  | PDict d => Ok (existsb (fun kv => String.eqb (fst kv) needle) d)
  | _ => Raise TypeError
  end.

(** *** YouTube (messenger.py 150-202) *)

(** One turn of the loop over [media_items]: [Ok None] when the item is
    skipped, [Ok (Some fmt)] when [fmt] is appended to [formats]. *)
Definition yt_format_of (item : pyval) : result (option pyval) :=
  (ext_v <- py_get item "mediaExtension" (PStr "") ;;
   extension <- py_lower ext_v ;;
   quality <- py_get item "mediaQuality" (PStr "") ;;
   unwanted <-
     (if String.eqb extension "m4a" then
        ql <- py_lower quality ;;
        Ok (contains "false" ql || py_in_strs quality ["48K"; "128K"])
      else Ok false) ;;
   if (unwanted : bool) then Ok None
   else
     media_url <- py_get item "mediaUrl" PNone ;;
     if existsb (String.eqb extension) ["mp4"; "m4a"] && truthy media_url then
       e <- py_getitem item "mediaExtension" ;;
       res <- py_get item "mediaRes" (PStr "") ;;
       q <- py_get item "mediaQuality" (PStr "") ;;
       u <- py_getitem item "mediaUrl" ;;
       size <- py_get item "mediaFileSize" (PStr "") ;;
       ty <- py_get item "type" (PStr "") ;;
       Ok (Some (PDict [("extension", e); ("resolution", res);
                        ("quality", q); ("url", u);
                        ("file_size", size); ("type", ty)]))
     else Ok None)%result.

Fixpoint yt_filter_formats (media_items : list pyval) (formats : list pyval)
  : result (list pyval) :=
  match media_items with
  | [] => Ok formats
  | item :: rest =>
      (r <- yt_format_of item ;;
       match r with
       | Some fmt => yt_filter_formats rest (formats ++ [fmt])
       | None => yt_filter_formats rest formats
       end)%result
  end.

(** [f"yt_{i}_{timestamp}_{session_id}"] *)
Definition yt_token (i : nat) (timestamp session_id : string) : string :=
  "yt_" +:+ pretty i +:+ "_" +:+ timestamp +:+ "_" +:+ session_id.

(** [Ok None]: the resolver returned early, nothing is cached. *)
Definition youtube_resolve (response : pyval) (timestamp session_id : string)
  : result (option resolved) :=
  (api <- py_get response "api" PNone ;;
   bad <-
     (if truthy api then
        a <- py_getitem response "api" ;;
        st <- py_get a "status" PNone ;;
        Ok (negb (py_eq_str st "OK"))
      else Ok true) ;;
   if (bad : bool) then Ok None
   else
     api_data <- py_getitem response "api" ;;
     t <- py_get api_data "title" (PStr "YouTube Video") ;;
     title <- py_clean_filename t ;;
     media_items <- py_get api_data "mediaItems" (PList []) ;;
     items <- py_iter media_items ;;
     formats <- yt_filter_formats items [] ;;
     match formats with
     | [] => Ok None
     | _ =>
         Ok (Some {|
           cache_data := PDict [("yt_formats", PList formats);
                                ("yt_title", PStr title);
                                ("yt_timestamp", PStr timestamp)];
           buttons := imap (fun i _ => yt_token (S i) timestamp session_id)
                           formats |})
     end)%result.

(** *** TikTok (messenger.py 258-303) *)

Definition tt_token (kind : string) (i : nat) (timestamp session_id : string)
  : string :=
  "tt_" +:+ kind +:+ "_" +:+ pretty i +:+ "_" +:+ timestamp +:+ "_"
  +:+ session_id.

(** The loop over [enumerate(links, 1)], [i] being the next index. *)
Fixpoint tt_buttons (links : list pyval) (i : nat)
    (timestamp session_id : string) : result (list string) :=
  match links with
  | [] => Ok []
  | link :: rest =>
      (link_type <- py_get link "t" (PStr "N/A") ;;
       _ <- py_get link "s" (PStr "N/A") ;;
       is_mp4 <- py_contains_str "MP4" link_type ;;
       if (is_mp4 : bool) then
         more <- tt_buttons rest (S i) timestamp session_id ;;
         Ok (tt_token "mp4" i timestamp session_id :: more)
       else
         is_mp3 <- py_contains_str "MP3" link_type ;;
         more <- tt_buttons rest (S i) timestamp session_id ;;
         Ok (if (is_mp3 : bool)
             then tt_token "mp3" i timestamp session_id :: more
             else more))%result
  end.

Definition tiktok_resolve (response : pyval) (timestamp session_id : string)
  : result (option resolved) :=
  (st <- py_get response "status" PNone ;;
   if negb (py_eq_str st "ok") then Ok None
   else
     desc <- py_get response "desc" (PStr "TikTok Video") ;;
     title <- py_clean_filename desc ;;
     links <- py_get response "links" (PList []) ;;
     items <- py_iter links ;;
     keyboard <- tt_buttons items 1 timestamp session_id ;;
     Ok (Some {|
       cache_data := PDict [("tt_title", PStr title);
                            ("tt_links", links);
                            ("tt_timestamp", PStr timestamp)];
       buttons := keyboard |}))%result.

(** *** Instagram (messenger.py 348-385, 410-439) *)

Definition insta_token (kind timestamp session_id : string) : string :=
  "insta_" +:+ kind +:+ "_" +:+ timestamp +:+ "_" +:+ session_id.

Definition media_marker : string := "media.php?media=".

(** The part of [s] after the first occurrence of [marker], when there is
    one. *)
Fixpoint after_first (marker s : string) : option string :=
  if startswith marker s
  then Some (String.substring (String.length marker)
                              (String.length s - String.length marker) s)
  else match s with
       | EmptyString => None
       | String _ s' => after_first marker s'
       end.

(** The part of [s] before the first occurrence of [marker], all of [s]
    when there is none. *)
Fixpoint before_first (marker s : string) : string :=
  if startswith marker s then EmptyString
  else match s with
       | EmptyString => EmptyString
       | String c s' => String c (before_first marker s')
       end.

(** [href.split(marker)[1]] for an [href] that contains [marker] *)
Definition second_piece (marker href : string) : string :=
  match after_first marker href with
  | Some rest => before_first marker rest
  | None => EmptyString
  end.

(** What [parse_media_from_html] extracts: the [href] of every anchor that
    has one, in document order, and the caption. Of a media item the model
    keeps the two fields the resolver reads, [url] and [direct_url];
    [unquote] is [urllib.parse.unquote]. *)
Definition parse_media_items (unquote : string -> string)
    (hrefs : list string) : list (string * string) :=
  map (fun href => (href, unquote (second_piece media_marker href)))
      (filter (fun href => contains media_marker href = true) hrefs).

Definition instagram_resolve (unquote : string -> string)
    (response : pyval) (hrefs : list string) (caption : string)
    (timestamp session_id : string) : result (option resolved) :=
  (st <- py_get response "status" PNone ;;
   if py_eq_str st "error" then Ok None
   else
     username <- py_get response "username" (PStr "") ;;
     match parse_media_items unquote hrefs with
     | [] => Ok None
     | selected :: _ =>
         display_name <-
           py_clean_filename
             (if negb (String.eqb caption "") then PStr caption
              else if truthy username then username
              else PStr "Instagram Media") ;;
         Ok (Some {|
           cache_data := PDict [("insta_title", PStr display_name);
                                ("insta_url", PStr (fst selected));
                                ("insta_direct_url", PStr (snd selected));
                                ("insta_timestamp", PStr timestamp)];
           buttons := [insta_token "mp4" timestamp session_id;
                       insta_token "mp3" timestamp session_id] |})
     end)%result.

(** The resolvers' last step before they render: cache what was resolved
    and show the buttons. An early [return] and a raise, which the
    [except Exception] of the resolver swallows, cache nothing. *)
Definition resolve_and_store (r : result (option resolved))
    (session_id : string) : M (list string) :=
  match r with
  | Ok (Some res) =>
      (store_in_cache session_id (cache_data res) ;;; ret (buttons res))%state
  | Ok None => ret []
  | Raise _ => ret []
  end.

(** [http] is the outcome of the request to the endpoint,
    [raise_for_status] and [json] included. *)
Definition youtube_download (http : result pyval)
    (timestamp session_id : string) : M (list string) :=
  resolve_and_store
    (response <- http ;; youtube_resolve response timestamp session_id)%result
    session_id.

Definition tiktok_download (http : result pyval)
    (timestamp session_id : string) : M (list string) :=
  resolve_and_store
    (response <- http ;; tiktok_resolve response timestamp session_id)%result
    session_id.

Definition instagram_download (unquote : string -> string)
    (http : result pyval) (hrefs : list string) (caption : string)
    (timestamp session_id : string) : M (list string) :=
  resolve_and_store
    (response <- http ;;
     instagram_resolve unquote response hrefs caption timestamp session_id)%result
    session_id.

(** ** The callback router (messenger.py 490-530) *)

Inductive platform_handler : Type :=
| YoutubeHandler      (* _handle_youtube_callback *)
| TiktokHandler       (* _handle_tiktok_callback *)
| InstagramHandler.   (* _handle_instagram_callback *)

(** What [handle_callback] does that an observer can see, in order. The
    bodies of the three handlers are not part of the router: a dispatch is
    one event. *)
Inductive event : Type :=
| AnswerInvalidButton
| AnswerSessionExpired
| AnswerLoading (format_type_upper : string)
| Dispatch (h : platform_handler)
           (format_type timestamp session_id : string) (cache_data : pyval)
| CleanupTempFiles (session_id : string).

(** [parts[i]] for an index known to be in range *)
Definition part (i : nat) (parts : list string) : string :=
  nth i parts EmptyString.

Definition handle_callback (callback_data : string) : M (list event) :=
  let parts := split "_" callback_data in
  if (length parts <? 3)%nat then ret [AnswerInvalidButton]
  else
    let platform := part 0 parts in
    let format_type := part 1 parts in
    if (4 <=? length parts)%nat then
      let timestamp := part 2 parts in
      let session_id := part 3 parts in
      (found <- get_from_cache session_id ;;
       match found with
       | None => ret [AnswerSessionExpired]
       | Some cache_data =>
           if negb (truthy cache_data) then ret [AnswerSessionExpired]
           else
             let dispatch :=
               if String.eqb platform "yt" then
                 [Dispatch YoutubeHandler format_type timestamp session_id
                           cache_data]
               else if String.eqb platform "tt" then
                 [Dispatch TiktokHandler format_type timestamp session_id
                           cache_data]
               else if String.eqb platform "insta" then
                 [Dispatch InstagramHandler format_type timestamp session_id
                           cache_data]
               else [] in
             ret (AnswerLoading (upper format_type) :: dispatch
                  ++ [CleanupTempFiles session_id])
       end)%state
    else ret [AnswerInvalidButton].

(** The two branches of [_handle_instagram_callback] (messenger.py 753,
    783): [mp4] delivers the video, [mp3] downloads and converts to audio. *)
Inductive insta_branch : Type := InstaVideo | InstaAudio | InstaNoBranch.

Definition instagram_branch (format_type : string) : insta_branch :=
  if String.eqb format_type "mp4" then InstaVideo
  else if String.eqb format_type "mp3" then InstaAudio
  else InstaNoBranch.

(** ** The two-phase resolver (messenger.py 828-854, search.py 290-316) *)

Definition max_attempts : nat := 10.

Inductive poll_event : Type :=
| StatusCall (attempt : nat)    (* self.session.post(...) *)
| Sleep (seconds : Z)           (* await asyncio.sleep(2) *)
| LogAttemptError (attempt : nat).

(** The body of the [try], up to the [return]: [Ok (Some (url, name))] when
    it returns, [Ok None] when it falls through to the sleep. [http] is the
    outcome of the [post], [raise_for_status] and [json] calls. *)
Definition check_status (http : result pyval)
  : result (option (pyval * pyval)) :=
  (data <- http ;;
   api <- py_get data "api" PNone ;;
   if truthy api then
     a <- py_getitem data "api" ;;
     percent <- py_get a "percent" PNone ;;
     if py_eq_str percent "Completed" then
       file_url <- py_get a "fileUrl" PNone ;;
       file_name <- py_get a "fileName" PNone ;;
       if truthy file_url && truthy file_name
       then Ok (Some (file_url, file_name))
       else Ok None
     else Ok None
   else Ok None)%result.

(** [for attempt in range(max_attempts)], with [n] turns left; [endpoint k]
    is what the [k]-th status call (counted from 0) meets. [None] is the
    pair [(None, None)]. *)
Fixpoint poll_loop (endpoint : nat -> result pyval) (n attempt : nat)
  : option (pyval * pyval) * list poll_event :=
  match n with
  | O => (None, [])
  | S n' =>
      match check_status (endpoint attempt) with
      | Ok (Some found) => (Some found, [StatusCall attempt])
      | Ok None =>
          let (r, tr) := poll_loop endpoint n' (S attempt) in
          (r, StatusCall attempt ::
              (if (attempt <? max_attempts - 1)%nat then [Sleep 2] else [])
              ++ tr)
      | Raise _ =>
          if (attempt <? max_attempts - 1)%nat then
            let (r, tr) := poll_loop endpoint n' (S attempt) in
            (r, StatusCall attempt :: LogAttemptError attempt :: Sleep 2 :: tr)
          else (None, [StatusCall attempt; LogAttemptError attempt])
      end
  end.

Definition _get_final_download_url (endpoint : nat -> result pyval)
  : option (pyval * pyval) * list poll_event :=
  poll_loop endpoint max_attempts 0.

(** [search.py] has the same loop under another name. *)
Definition _get_detail_async (endpoint : nat -> result pyval)
  : option (pyval * pyval) * list poll_event :=
  poll_loop endpoint max_attempts 0.

(** ** Best-audio selection (search.py 159-191) *)

(** [not best_audio] *)
Definition no_best (best_audio : option pyval) : bool :=
  match best_audio with
  | None => true
  | Some v => negb (truthy v)
  end.

(** The first loop; the result is [best_audio] when the loop ends. *)
Fixpoint first_pass (media_items : list pyval) (best_audio : option pyval)
  : result (option pyval) :=
  match media_items with
  | [] => Ok best_audio
  | item :: rest =>
      (t <- py_get item "type" (PStr "") ;;
       media_type <- py_lower t ;;
       e <- py_get item "mediaExtension" (PStr "") ;;
       extension <- py_upper e ;;
       quality <- py_get item "mediaQuality" (PStr "") ;;
       if String.eqb media_type "audio" || String.eqb extension "M4A" then
         ql <- py_lower quality ;;
         if contains "false" ql || py_in_strs quality ["48K"] then
           first_pass rest best_audio
         else if py_eq_str quality "128K" then Ok (Some item)
         else if no_best best_audio && String.eqb extension "M4A" then
           first_pass rest (Some item)
         else first_pass rest best_audio
       else first_pass rest best_audio)%result
  end.

(** The second loop, run when the first one found nothing. *)
Fixpoint second_pass (media_items : list pyval) : result (option pyval) :=
  match media_items with
  | [] => Ok None
  | item :: rest =>
      (t <- py_get item "type" (PStr "") ;;
       media_type <- py_lower t ;;
       if String.eqb media_type "audio" then Ok (Some item)
       else second_pass rest)%result
  end.

(** [Ok None] stands for the [raise Exception] of line 191: no audio
    format found. *)
Definition best_audio (media_items : list pyval) : result (option pyval) :=
  (best <- first_pass media_items None ;;
   best' <- (if no_best best then second_pass media_items else Ok best) ;;
   if no_best best' then Ok None else Ok best')%result.

(** ** The local file system

    A POSIX file system as the process sees it: the tree of directories
    and regular files below the root, and the working directory of the
    process. There are no symbolic links, the process may read and write
    everywhere, names and paths are not limited in length, and nothing
    else changes the files while a call runs. *)

Abbreviation bytes := (list Byte.byte).

Inductive node : Type :=
| File (content : bytes)
| Dir (entries : gmap string node).

Record filesystem : Type := Filesystem {
  tree : gmap string node;   (* the entries of the root directory *)
  cwd : list string          (* the working directory: its names from the root *)
}.

(** The empty file system, the process at its root. *)
#[global] Instance filesystem_empty : Empty filesystem :=
  {| tree := ∅; cwd := [] |}.

(** The node that the names [cp] lead to from the directory [d]. *)
Fixpoint node_at (cp : list string) (d : gmap string node) : option node :=
  match cp with
  | [] => Some (Dir d)
  | c :: rest =>
      match d !! c with
      | Some (Dir d') => node_at rest d'
      | Some (File content) =>
          match rest with
          | [] => Some (File content)
          | _ => None
          end
      | None => None
      end
  end.

Definition is_dir (d : gmap string node) (cp : list string) : bool :=
  match node_at cp d with
  | Some (Dir _) => true
  | _ => false
  end.

Definition file_at (cp : list string) (d : gmap string node) : option bytes :=
  match node_at cp d with
  | Some (File content) => Some content
  | _ => None
  end.

(** The entry at [cp] set to [new], in a directory that exists. *)
Fixpoint put (cp : list string) (new : node) (d : gmap string node)
  : gmap string node :=
  match cp with
  | [] => d
  | c :: rest =>
      match rest with
      | [] => <[c := new]> d
      | _ =>
          match d !! c with
          | Some (Dir d') => <[c := Dir (put rest new d')]> d
          | _ => d
          end
      end
  end.

(** The entry at [cp] removed, with everything below it. *)
Fixpoint remove (cp : list string) (d : gmap string node)
  : gmap string node :=
  match cp with
  | [] => d
  | c :: rest =>
      match rest with
      | [] => delete c d
      | _ =>
          match d !! c with
          | Some (Dir d') => <[c := Dir (remove rest d')]> d
          | _ => d
          end
      end
  end.

(** One component of a path, looked up in the directory [cur]: the empty
    component and [.] stay, [..] goes to the parent (the root is its own
    parent), a name goes down. *)
Definition step (cur : list string) (c : string) : list string :=
  if String.eqb c "" || String.eqb c "." then cur
  else if String.eqb c ".." then removelast cur
  else (cur ++ [c])%list.

(** The walk of the kernel along the components of a path: a component
    is looked up in a directory that exists; the last one may name
    anything, or nothing yet. *)
Fixpoint walk (d : gmap string node) (cur : list string) (comps : list string)
  : option (list string) :=
  match comps with
  | [] => Some cur
  | c :: rest => if is_dir d cur then walk d (step cur c) rest else None
  end.

Definition has_nul (path : string) : bool :=
  contains (String Ascii.zero EmptyString) path.

(** Where the walk of a path starts: at the root for an absolute path, at
    the working directory otherwise. *)
Definition start_of (fs : filesystem) (path : string) : list string :=
  if startswith "/" path then [] else cwd fs.

(** The place a path names: [None] when the path is empty, holds a NUL,
    or leads through something that is not a directory. *)
Definition resolve (fs : filesystem) (path : string) : option (list string) :=
  if String.eqb path "" || has_nul path then None
  else walk (tree fs) (start_of fs path) (split "/" path).

(** [os.path.exists(path)] *)
Definition path_exists (path : string) (fs : filesystem) : bool :=
  match resolve fs path with
  | Some cp => match node_at cp (tree fs) with Some _ => true | None => false end
  | None => false
  end.

(** The content of the regular file at [path], as [open(path, "rb")]
    reads it. *)
#[global] Instance filesystem_lookup : Lookup string bytes filesystem :=
  fun path fs =>
    match resolve fs path with
    | Some cp => file_at cp (tree fs)
    | None => None
    end.

(** [os.makedirs(path, exist_ok=True)] from the place [cur] on: every
    directory on the way that is missing is made; a regular file on the
    way makes the call raise, and so does a component with a NUL in it;
    what was made before stays. *)
Fixpoint mkdir_p (d : gmap string node) (cur : list string)
    (comps : list string) : result unit * gmap string node :=
  match comps with
  | [] => (Ok tt, d)
  | c :: rest =>
      if has_nul c then (Raise ValueError, d)
      else
        let next := step cur c in
        match node_at next d with
        | Some (Dir _) => mkdir_p d next rest
        | Some (File _) => (Raise OSError, d)
        | None => mkdir_p (put next (Dir ∅) d) next rest
        end
  end.

(** [os.makedirs(path, exist_ok=True)]: the empty path raises
    [FileNotFoundError]. *)
Definition makedirs (path : string) (fs : filesystem)
  : result unit * filesystem :=
  if String.eqb path "" then (Raise OSError, fs)
  else if is_dir (tree fs) (start_of fs path) then
    let (r, d) := mkdir_p (tree fs) (start_of fs path) (split "/" path) in
    (r, {| tree := d; cwd := cwd fs |})
  else (Raise OSError, fs).

(** [with open(path, "wb") as f: ...], [content] being what the body of
    the block has written when the file is closed. The call raises, and
    writes nothing, when the path does not resolve, names a directory, or
    lies in a directory that does not exist. *)
Definition write_file (path : string) (content : bytes) (fs : filesystem)
  : result unit * filesystem :=
  match resolve fs path with
  | Some cp =>
      match node_at cp (tree fs) with
      | Some (Dir _) => (Raise OSError, fs)
      | _ =>
          if is_dir (tree fs) (removelast cp)
          then (Ok tt, {| tree := put cp (File content) (tree fs);
                          cwd := cwd fs |})
          else (Raise OSError, fs)
      end
  | None => (Raise OSError, fs)
  end.

(** Whether [os.rmdir(path)] accepts the last component of the path: it
    refuses [.] and [..], and the root. *)
Definition last_is_name (path : string) : bool :=
  match last (List.filter (fun c => negb (String.eqb c "")) (split "/" path))
  with
  | Some c => negb (String.eqb c "." || String.eqb c "..")
  | None => false
  end.

(** [shutil.rmtree(path)]: on a directory, everything in it is removed
    and then the directory itself, unless [os.rmdir] refuses the path;
    on anything else the call raises and removes nothing. *)
Definition rmtree (path : string) (fs : filesystem)
  : result unit * filesystem :=
  match resolve fs path with
  | Some cp =>
      match node_at cp (tree fs) with
      | Some (Dir _) =>
          match cp with
          | [] => (Raise OSError, {| tree := ∅; cwd := cwd fs |})
          | _ =>
              if last_is_name path
              then (Ok tt, {| tree := remove cp (tree fs); cwd := cwd fs |})
              else (Raise OSError,
                    {| tree := put cp (Dir ∅) (tree fs); cwd := cwd fs |})
          end
      | _ => (Raise OSError, fs)
      end
  | None => (Raise OSError, fs)
  end.

(** [s.endswith(c)] for one character *)
Fixpoint endswith_char (c : ascii) (s : string) : bool :=
  match s with
  | EmptyString => false
  | String x EmptyString => Ascii.eqb x c
  | String _ rest => endswith_char c rest
  end.

(** [os.path.join(a, b)] *)
Definition path_join (a b : string) : string :=
  if startswith "/" b then b
  else if String.eqb a "" || endswith_char "/" a then a +:+ b
  else a +:+ "/" +:+ b.

(** [p[:p.rfind("/") + 1]] *)
Fixpoint head_of (p : string) : string :=
  match p with
  | EmptyString => EmptyString
  | String c rest =>
      if Ascii.eqb c "/" || contains "/" rest
      then String c (head_of rest)
      else EmptyString
  end.

(** [os.path.dirname(p)] *)
Definition dirname (p : string) : string :=
  let head := head_of p in
  if String.eqb (rstrip (Ascii.eqb "/") head) "" then head
  else rstrip (Ascii.eqb "/") head.

(** ** Streaming downloads *)

(** What [response.iter_content(chunk_size=8192)] yields while the file is
    written: chunk after chunk until the body ends, or until the
    connection or the write breaks with an exception. *)
Inductive stream : Type :=
| Eof
| Chunk (chunk : bytes) (rest : stream)
| Broken (e : exn).

(** A streamed HTTP response: the status, the two headers the code reads
    ([None]: header absent) and the body. *)
Record response : Type := Response {
  status_code : Z;
  content_type : option string;
  content_length : option string;
  body : stream
}.

(** [len(chunk)] *)
Definition len (chunk : bytes) : Z := Z.of_nat (length chunk).

(** [if chunk:] *)
Definition nonempty (chunk : bytes) : bool :=
  match chunk with [] => false | _ => true end.

(** *** [MessengerDownloader.download_file] (messenger.py 441-477)

    [http_get url] is the outcome of [self.session.get(url, stream=True)];
    [int_of_str] is Python's [int] on a str; [file_size] is a whole number
    of megabytes (every caller passes 0). The result is the returned bool
    and the file system when the method returns. *)

Definition max_size : Z := 100.

(** The loop of lines 468-470 over an open file whose content so far is
    [written]. *)
Fixpoint write_body (s : stream) (written : bytes) : result unit * bytes :=
  match s with
  | Eof => (Ok tt, written)
  | Chunk chunk rest =>
      if nonempty chunk then write_body rest (written ++ chunk)%list
      else write_body rest written
  | Broken e => (Raise e, written)
  end.

Definition valid_content_types : list string :=
  ["image/"; "video/"; "application/octet-stream"].

(** Lines 443-463: everything before the first write. [Ok (Some r)]: the
    response to stream; [Ok None]: one of the three [return False]. *)
Definition open_download (http_get : string -> result response)
    (int_of_str : string -> result Z)
    (url : string) (file_size : Z) (direct_url : option string)
  : result (option response) :=
  (first <- http_get url ;;
   r <- (if negb (status_code first =? 200) &&
            match direct_url with
            | Some d => negb (String.eqb d "")
            | None => false
            end
         then http_get (default "" direct_url)
         else Ok first) ;;
   if negb (status_code r =? 200) then Ok None
   else
     let ctype := lower (default "" (content_type r)) in
     if negb (existsb (fun ct => contains ct ctype) valid_content_types)
     then Ok None
     else
       total_size <-
         match content_length r with
         | Some h => int_of_str h
         | None => Ok (file_size * 1024 * 1024)
         end ;;
       if total_size >? max_size * 1024 * 1024 then Ok None
       else Ok (Some r))%result.

Definition download_file (http_get : string -> result response)
    (int_of_str : string -> result Z)
    (fs : filesystem)
    (url filename : string) (file_size : Z) (direct_url : option string)
  : bool * filesystem :=
  match open_download http_get int_of_str url file_size direct_url with
  | Raise _ => (false, fs)
  | Ok None => (false, fs)
  | Ok (Some r) =>
      (* os.makedirs(os.path.dirname(filename), exist_ok=True) *)
      match makedirs (dirname filename) fs with
      | (Raise _, fs1) => (false, fs1)
      | (Ok _, fs1) =>
          (* open(filename, "wb") creates or truncates the file, the loop
             writes, the end of the with-block closes *)
          let (outcome, written) := write_body (body r) [] in
          match write_file filename written fs1 with
          | (Raise _, _) => (false, fs1)
          | (Ok _, fs2) =>
              (match outcome with Ok _ => true | Raise _ => false end, fs2)
          end
      end
  end.

(** *** The download of [_download_audio_only_async] (search.py 229-252) *)

Definition max_size_mb : Z := 50.

Inductive audio_outcome : Type :=
| AudioTooLarge        (* the notice that the file is too large, [return] *)
| AudioDownloaded      (* the loop ended, the code goes on to deliver *)
| AudioRaised (e : exn).

(** The loop of lines 242-252: [downloaded_size] is the running counter.
    [None] for the file: it was removed with [os.remove]. *)
Fixpoint write_counted (s : stream) (written : bytes) (downloaded_size : Z)
  : audio_outcome * option bytes :=
  match s with
  | Eof => (AudioDownloaded, Some written)
  | Chunk chunk rest =>
      if nonempty chunk then
        let written' := (written ++ chunk)%list in
        let downloaded_size' := downloaded_size + len chunk in
        if downloaded_size' >? max_size_mb * 1024 * 1024
        then (AudioTooLarge, None)
        else write_counted rest written' downloaded_size'
      else write_counted rest written downloaded_size
  | Broken e => (AudioRaised e, Some written)
  end.

(** [raise_for_status()] raises for a 4xx or 5xx status. The declared size
    is compared in megabytes: [int(h) / (1024 * 1024) > 50] holds exactly
    when [int(h) > 50 * 1024 * 1024]. *)
Definition download_audio (http_get : string -> result response)
    (int_of_str : string -> result Z)
    (fs : gmap string bytes) (file_url file_path : string)
  : audio_outcome * gmap string bytes :=
  match http_get file_url with
  | Raise e => (AudioRaised e, fs)
  | Ok r =>
      if (400 <=? status_code r) && (status_code r <? 600)
      then (AudioRaised RequestException, fs)
      else
        let declared :=
          match content_length r with
          | Some h => if String.eqb h "" then Ok false
                      else (n <- int_of_str h ;;
                            Ok (n >? max_size_mb * 1024 * 1024))%result
          | None => Ok false
          end in
        match declared with
        | Raise e => (AudioRaised e, fs)
        | Ok true => (AudioTooLarge, fs)
        | Ok false =>
            match write_counted (body r) [] 0 with
            | (outcome, Some written) => (outcome, <[file_path := written]> fs)
            | (outcome, None) => (outcome, delete file_path fs)
            end
        end
  end.

(** ** Temporary files (messenger.py 69-78) *)

(** [os.path.join("temp", "messenger", str(chat_id), session_id)] *)
Definition temp_dir (chat_id : Z) (session_id : string) : string :=
  path_join (path_join (path_join "temp" "messenger") (pretty chat_id))
            session_id.

(** [os.path.join("temp", "messenger", str(chat_id), session_id, filename)] *)
Definition get_temp_path (chat_id : Z) (session_id filename : string) : string :=
  path_join (temp_dir chat_id session_id) filename.

(** The [except: pass] swallows what [rmtree] raises; what [rmtree] has
    removed by then stays removed. *)
Definition cleanup_temp_files (chat_id : Z) (session_id : string)
    (fs : filesystem) : filesystem :=
  let temp_dir := temp_dir chat_id session_id in
  if path_exists temp_dir fs then (rmtree temp_dir fs).2 else fs.

(** ** Cleaning and normalizing a submitted link (messenger.py 58-67) *)

(** The characters of the argument of [rstrip] in [clean_url]: plus,
    slash, space, tab (code 9) and newline (code 10). *)
Definition trailing_junk (c : ascii) : bool :=
  existsb (Ascii.eqb c) ["+"; "/"; " "; ascii_of_nat 9; ascii_of_nat 10]%char.

Definition clean_url (url : string) : string := rstrip trailing_junk url.

(** The pattern of [normalize_youtube_url], matched the way [re.match]
    does: at the start of the string, each optional group tried first with
    and then without its text, the character class taken as far as it
    goes. A matcher takes the continuation that matches the rest. *)
Fixpoint strip_prefix (p s : string) : option string :=
  match p, s with
  | EmptyString, _ => Some s
  | String a p', String b s' =>
      if Ascii.eqb a b then strip_prefix p' s' else None
  | String _ _, EmptyString => None
  end.

Definition re_lit {A} (p : string) (k : string -> option A) (s : string)
  : option A :=
  match strip_prefix p s with
  | Some rest => k rest
  | None => None
  end.

Definition re_opt {A} (m : (string -> option A) -> string -> option A)
    (k : string -> option A) (s : string) : option A :=
  match m k s with
  | Some a => Some a
  | None => k s
  end.

(** [[a-zA-Z0-9_-]] *)
Definition is_id_char (c : ascii) : bool :=
  is_lower c || is_upper c
  || ((48 <=? nat_of_ascii c)%nat && (nat_of_ascii c <=? 57)%nat)
  || Ascii.eqb c "_" || Ascii.eqb c "-".

Fixpoint take_while (p : ascii -> bool) (s : string) : string :=
  match s with
  | EmptyString => EmptyString
  | String c s' => if p c then String c (take_while p s') else EmptyString
  end.

(** The group [([a-zA-Z0-9_-]+)] at the end of the pattern. *)
Definition re_video_id (s : string) : option string :=
  match take_while is_id_char s with
  | EmptyString => None
  | video_id => Some video_id
  end.

(** [re.match(shorts_pattern, url)], reduced to [match.group(1)]. *)
Definition match_shorts (url : string) : option string :=
  re_opt (fun k => re_lit "http" (re_opt (re_lit "s") (re_lit "://" k)))
    (re_opt (re_lit "www.")
       (re_lit "youtube.com/shorts/" re_video_id))
    url.

Definition normalize_youtube_url (url : string) : string :=
  match match_shorts url with
  | Some video_id => "https://www.youtube.com/watch?v=" +:+ video_id
  | None => url
  end.

(** ** Platform detection (messenger.py 110-129)

    [is_valid_url] rests on [urllib.parse.urlparse] and is an input. The
    outcome names the reply or the resolver the link is handed to. *)

Inductive url_outcome : Type :=
| ReplyInvalidUrl
| ReplyUnsupportedPlatform
| ToYoutube (url : string)      (* youtube_download(update, context, url) *)
| ToTiktok (url : string)       (* tiktok_download(update, context, url) *)
| ToInstagram (url : string).   (* instagram_download(update, context, url) *)

Definition handle_url (is_valid_url : string -> bool) (url : string)
  : url_outcome :=
  let url := clean_url url in
  if negb (is_valid_url url) then ReplyInvalidUrl
  else if contains "youtube.com" (lower url) || contains "youtu.be" (lower url)
       then ToYoutube url
  else if contains "tiktok.com" (lower url) then ToTiktok url
  else if contains "instagram.com" (lower url) then ToInstagram url
  else ReplyUnsupportedPlatform.

(** ** The key of the search cache (search.py 45)

    [f"{query.lower().strip()}_{limit}"]; [normalize] stands for
    [lower().strip()] on a query. *)
Definition cache_key (normalize : string -> string) (query : string)
    (limit : Z) : string :=
  normalize query +:+ "_" +:+ pretty limit.

(** ** The dispatch of button presses (bot.py 741-835)

    The branch [handle_callback_query] takes for the [data] of a pressed
    button, in the order of its tests. *)
Inductive callback_branch : Type :=
| NoData
| LanguageSelection
| UserMode
| VerifySubscription
| ResultsPage
| DownloadSong
| SearchRecognized
| AdminCallback
| BroadcastCallback
| Help
| SearchMusic
| RecognizeSong
| DownloadMedia
| BackToMenu
| MessengerCallback.   (* self.messenger.handle_callback(..., data, ...) *)

Definition handle_callback_query (data : string) : callback_branch :=
  if String.eqb data "" then NoData
  else if startswith "lang_" data then LanguageSelection
  else if String.eqb data "user_mode" then UserMode
  else if String.eqb data "verify_subscription" then VerifySubscription
  else if startswith "page_" data then ResultsPage
  else if startswith "download_song_" data then DownloadSong
  else if startswith "search_recognized_" data then SearchRecognized
  else if startswith "admin_" data || startswith "ban_" data
          || startswith "sub_" data || startswith "premium_" data
          || startswith "admins_" data || startswith "settings_" data
          || startswith "users_" data
       then AdminCallback
  else if startswith "bc_" data then BroadcastCallback
  else if String.eqb data "help" then Help
  else if String.eqb data "search_music" then SearchMusic
  else if String.eqb data "recognize_song" then RecognizeSong
  else if String.eqb data "download_media" then DownloadMedia
  else if String.eqb data "back_to_menu" then BackToMenu
  else MessengerCallback.

(** ** The handlers behind the router (messenger.py 479-488, 532-826)

    A handler runs against the world outside the process, reads and
    writes the local file system and sends to the chat. The activity
    logging of the handlers stands behind [hasattr(context.bot_data,
    'bot_instance')], which is false of a dict, and is left out; sending
    to the chat is taken to succeed. The temporary files that [pydub]
    makes and removes in the temporary directory of the system are left
    out as well. *)

Record outside : Type := Outside {
  out_get : string -> result response;
      (* self.session.get(url, stream=True, timeout=20) *)
  out_job : pyval -> nat -> result pyval;
      (* the k-th status call for a media URL: post, raise_for_status, json *)
  out_int : string -> result Z;
      (* int(s) on a str *)
  out_str : pyval -> string;
      (* str(v) of a value that is not a str *)
  out_pydub : option bytes -> option (bool * bytes)
      (* AudioSegment.from_file(input_path).export(mp3_path, ...) on the
         content of the input file ([None]: there is no such file).
         [None]: [from_file] raised, the output was not opened;
         [Some (ok, written)]: [export] opened the output for writing and
         left [written] in it, [ok] telling whether it went through *)
}.

(** The texts a handler sends, by what they say. *)
Inductive notice : Type :=
| InvalidFormatChosen        (* an invalid format was chosen *)
| LinkRetrievalFailed        (* the download link could not be obtained *)
| FileMissingAfterDownload   (* no file was found after the download *)
| VideoDownloadFailed        (* the video could not be downloaded *)
| MediaDownloadFailed        (* the media could not be downloaded *)
| AudioDownloadFailed        (* the audio could not be downloaded *)
| DownloadLinkNotFound       (* the link has no download URL *)
| Mp3Missing                 (* no MP3 file was found *)
| ConversionFailed           (* the conversion to MP3 failed *)
| DownloadError.             (* the text of the [except] branch *)

Inductive bot_action : Type :=
| SendMessage (n : notice)
| SendVideo (video : bytes) (title : pyval)
| SendAudio (audio : bytes) (title : pyval).

(** The handler monad: a computation that reads and writes the file
    system, sends to the chat, and returns or raises. *)
Definition Handler (A : Type) : Type :=
  filesystem * list bot_action ->
  result A * (filesystem * list bot_action).

Definition hret {A} (a : A) : Handler A := fun st => (Ok a, st).

Definition hbind {A B} (m : Handler A) (k : A -> Handler B) : Handler B :=
  fun st =>
    match m st with
    | (Ok a, st') => k a st'
    | (Raise e, st') => (Raise e, st')
    end.

Definition lift {A} (r : result A) : Handler A := fun st => (r, st).

Definition send (a : bot_action) : Handler unit :=
  fun st => (Ok tt, (st.1, st.2 ++ [a])%list).

(** [try: body except Exception: handler] *)
Definition try_except (body handler : Handler unit) : Handler unit :=
  fun st =>
    match body st with
    | (Ok a, st') => (Ok a, st')
    | (Raise _, st') => handler st'
    end.

Declare Scope handler_scope.
Delimit Scope handler_scope with handler.
Notation "x <- m ;; k" := (hbind m (fun x => k))
  (at level 100, m at next level, right associativity) : handler_scope.

(** [len(v)] *)
Definition py_len (v : pyval) : result Z :=
  match v with
  | PList l => Ok (Z.of_nat (length l))
  | PDict d => Ok (Z.of_nat (length d))
  | PStr s => Ok (Z.of_nat (String.length s))
  | _ => Raise TypeError
  end.

Definition IndexError : exn := RaisedException "IndexError".

(** [v[i]] with an integer index: a negative index counts from the end. *)
Definition py_index (v : pyval) (i : Z) : result pyval :=
  match v with
  | PList l =>
      let n := Z.of_nat (length l) in
      let j := if i <? 0 then i + n else i in
      if (0 <=? j) && (j <? n) then
        match nth_error l (Z.to_nat j) with
        | Some x => Ok x
        | None => Raise IndexError
        end
      else Raise IndexError
  | PStr s =>
      let n := Z.of_nat (String.length s) in
      let j := if i <? 0 then i + n else i in
      if (0 <=? j) && (j <? n) then
        match String.get (Z.to_nat j) s with
        | Some c => Ok (PStr (String c EmptyString))
        | None => Raise IndexError
        end
      else Raise IndexError
  | PDict _ => Raise KeyError
  | _ => Raise TypeError
  end.

(** A value inside an f-string. *)
Definition fmt_str (to_str : pyval -> string) (v : pyval) : string :=
  match v with
  | PStr s => s
  | _ => to_str v
  end.

(** [await self.download_file(url, filename, 0, update, context,
    direct_url)] with the values a handler has at hand. A URL that is not
    a str is turned into its text by the HTTP library, which then raises
    for the missing scheme; [download_file] returns [False] for it. *)
Definition download (o : outside) (url : pyval) (filename : string)
    (direct_url : pyval) : Handler bool :=
  fun st =>
    let fs := st.1 in
    let (ok, fs') :=
      match url with
      | PStr u =>
          match direct_url with
          | PStr d =>
              download_file (out_get o) (out_int o) fs u filename 0 (Some d)
          | _ =>
              if truthy direct_url then
                match out_get o u with
                | Ok r =>
                    if status_code r =? 200
                    then download_file (out_get o) (out_int o) fs u filename 0
                                       None
                    else (false, fs)
                | Raise _ => (false, fs)
                end
              else download_file (out_get o) (out_int o) fs u filename 0 None
          end
      | _ => (false, fs)
      end in
    (Ok ok, (fs', st.2)).

(** [os.path.exists(path) and os.path.getsize(path) > 0], and the content
    that [open(path, "rb")] then reads. A directory has a size above
    zero, and opening it raises. *)
Definition file_ready (path : string) : Handler (option bytes) :=
  fun st =>
    match resolve st.1 path with
    | Some cp =>
        match node_at cp (tree st.1) with
        | Some (File content) =>
            (Ok (if nonempty content then Some content else None), st)
        | Some (Dir _) => (Raise OSError, st)
        | None => (Ok None, st)
        end
    | None => (Ok None, st)
    end.

(** [convert_to_mp3] (messenger.py 479-488): [False] when [makedirs] or
    [pydub] raises. *)
Definition convert_to_mp3 (o : outside) (input_path mp3_path : string)
  : Handler bool :=
  fun st =>
    match makedirs (dirname mp3_path) st.1 with
    | (Raise _, fs1) => (Ok false, (fs1, st.2))
    | (Ok _, fs1) =>
        match out_pydub o (fs1 !! input_path) with
        | None => (Ok false, (fs1, st.2))
        | Some (ok, written) =>
            match write_file mp3_path written fs1 with
            | (Raise _, _) => (Ok false, (fs1, st.2))
            | (Ok _, fs2) => (Ok ok, (fs2, st.2))
            end
        end
    end.

(** [_handle_youtube_callback] (messenger.py 532-591) *)
Definition _handle_youtube_callback (o : outside)
    (format_type timestamp session_id : string) (cache_data : pyval)
    (chat_id : Z) : Handler unit :=
  try_except
    (n <- lift (out_int o format_type) ;;
     let index := n - 1 in
     formats <- lift (py_get cache_data "yt_formats" (PList [])) ;;
     title <- lift (py_get cache_data "yt_title" (PStr "YouTube Video")) ;;
     size <- lift (py_len formats) ;;
     if index >=? size then send (SendMessage InvalidFormatChosen)
     else
       selected <- lift (py_index formats index) ;;
       extension <- lift (py_getitem selected "extension") ;;
       let filename :=
         get_temp_path chat_id session_id
           ("youtube_media_" +:+ timestamp +:+ "."
            +:+ fmt_str (out_str o) extension) in
       media_url <- lift (py_getitem selected "url") ;;
       match (_get_final_download_url (out_job o media_url)).1 with
       | None => send (SendMessage LinkRetrievalFailed)
       | Some (file_url, _) =>
           if negb (truthy file_url)
           then send (SendMessage LinkRetrievalFailed)
           else
             ok <- download o file_url filename PNone ;;
             if (ok : bool) then
               ready <- file_ready filename ;;
               match ready with
               | Some content =>
                   ext <- lift (py_lower extension) ;;
                   if String.eqb ext "mp4"
                   then send (SendVideo content title)
                   else send (SendAudio content title)
               | None => send (SendMessage FileMissingAfterDownload)
               end
             else send (SendMessage VideoDownloadFailed)
       end)%handler
    (send (SendMessage DownloadError)).

(** The index of the link in a TikTok token (messenger.py 601-608,
    652-659): the third part less one, 0 when it is not a number or is
    missing. [data] is [update.callback_query.data]. *)
Definition tt_link_index (o : outside) (data : string) : Z :=
  let parts := split "_" data in
  if (3 <=? length parts)%nat then
    match out_int o (part 2 parts) with
    | Ok n => n - 1
    | Raise _ => 0
    end
  else 0.

(** [_handle_tiktok_callback] (messenger.py 593-745) *)
Definition _handle_tiktok_callback (o : outside) (data : string)
    (format_type timestamp session_id : string) (cache_data : pyval)
    (chat_id : Z) : Handler unit :=
  try_except
    (title <- lift (py_get cache_data "tt_title" (PStr "TikTok Video")) ;;
     links <- lift (py_get cache_data "tt_links" (PList [])) ;;
     if startswith "mp4" format_type then
       let link_index := tt_link_index o data in
       size <- lift (py_len links) ;;
       if link_index >=? size then send (SendMessage InvalidFormatChosen)
       else
         selected_link <- lift (py_index links link_index) ;;
         download_url <- lift (py_get selected_link "a" (PStr "")) ;;
         if negb (truthy download_url)
         then send (SendMessage DownloadLinkNotFound)
         else
           let filename :=
             get_temp_path chat_id session_id
               ("tiktok_media_" +:+ timestamp +:+ ".mp4") in
           ok <- download o download_url filename PNone ;;
           if (ok : bool) then
             ready <- file_ready filename ;;
             match ready with
             | Some content => send (SendVideo content title)
             | None => send (SendMessage FileMissingAfterDownload)
             end
           else send (SendMessage VideoDownloadFailed)
     else if startswith "mp3" format_type then
       let link_index := tt_link_index o data in
       size <- lift (py_len links) ;;
       if link_index >=? size then send (SendMessage InvalidFormatChosen)
       else
         selected_link <- lift (py_index links link_index) ;;
         download_url <- lift (py_get selected_link "a" (PStr "")) ;;
         if negb (truthy download_url)
         then send (SendMessage DownloadLinkNotFound)
         else
           link_type <- lift (py_get selected_link "t" (PStr "")) ;;
           is_mp3 <- lift (py_contains_str "MP3" link_type) ;;
           if (is_mp3 : bool) then
             let filename :=
               get_temp_path chat_id session_id
                 ("tiktok_audio_" +:+ timestamp +:+ ".mp3") in
             ok <- download o download_url filename PNone ;;
             if (ok : bool) then
               ready <- file_ready filename ;;
               match ready with
               | Some content => send (SendAudio content title)
               | None => send (SendMessage Mp3Missing)
               end
             else send (SendMessage AudioDownloadFailed)
           else
             let temp_mp4 :=
               get_temp_path chat_id session_id
                 ("tiktok_temp_" +:+ timestamp +:+ ".mp4") in
             let mp3_filename :=
               get_temp_path chat_id session_id
                 ("tiktok_audio_" +:+ timestamp +:+ ".mp3") in
             ok <- download o download_url temp_mp4 PNone ;;
             if (ok : bool) then
               converted <- convert_to_mp3 o temp_mp4 mp3_filename ;;
               if (converted : bool) then
                 ready <- file_ready mp3_filename ;;
                 match ready with
                 | Some content => send (SendAudio content title)
                 | None => send (SendMessage Mp3Missing)
                 end
               else send (SendMessage ConversionFailed)
             else send (SendMessage VideoDownloadFailed)
     else hret tt)%handler
    (send (SendMessage DownloadError)).

(** [_handle_instagram_callback] (messenger.py 747-826) *)
Definition _handle_instagram_callback (o : outside)
    (format_type timestamp session_id : string) (cache_data : pyval)
    (chat_id : Z) : Handler unit :=
  try_except
    (title <- lift (py_get cache_data "insta_title" (PStr "Instagram Media")) ;;
     url <- lift (py_get cache_data "insta_url" PNone) ;;
     direct_url <- lift (py_get cache_data "insta_direct_url" PNone) ;;
     if String.eqb format_type "mp4" then
       let filename :=
         get_temp_path chat_id session_id
           ("insta_media_" +:+ timestamp +:+ ".mp4") in
       ok <- download o url filename direct_url ;;
       if (ok : bool) then
         ready <- file_ready filename ;;
         match ready with
         | Some content => send (SendVideo content title)
         | None => send (SendMessage FileMissingAfterDownload)
         end
       else send (SendMessage MediaDownloadFailed)
     else if String.eqb format_type "mp3" then
       let temp_mp4 :=
         get_temp_path chat_id session_id
           ("insta_temp_" +:+ timestamp +:+ ".mp4") in
       let mp3_filename :=
         get_temp_path chat_id session_id
           ("insta_audio_" +:+ timestamp +:+ ".mp3") in
       ok <- download o url temp_mp4 direct_url ;;
       if (ok : bool) then
         converted <- convert_to_mp3 o temp_mp4 mp3_filename ;;
         if (converted : bool) then
           ready <- file_ready mp3_filename ;;
           match ready with
           | Some content => send (SendAudio content title)
           | None => send (SendMessage Mp3Missing)
           end
         else send (SendMessage ConversionFailed)
       else send (SendMessage MediaDownloadFailed)
     else hret tt)%handler
    (send (SendMessage DownloadError)).

(** What an event of the router sets off (messenger.py 518-530). A
    dispatch runs the handler inside the [try] of [handle_callback], whose
    [except] sends the error text; the [finally] removes the session's
    directory. *)
Definition run_event (o : outside) (chat_id : Z) (data : string) (ev : event)
  : Handler unit :=
  match ev with
  | Dispatch h format_type timestamp session_id cache_data =>
      try_except
        match h with
        | YoutubeHandler =>
            _handle_youtube_callback o format_type timestamp session_id
                                     cache_data chat_id
        | TiktokHandler =>
            _handle_tiktok_callback o data format_type timestamp session_id
                                    cache_data chat_id
        | InstagramHandler =>
            _handle_instagram_callback o format_type timestamp session_id
                                       cache_data chat_id
        end
        (send (SendMessage DownloadError))
  | CleanupTempFiles session_id =>
      fun st => (Ok tt, (cleanup_temp_files chat_id session_id st.1, st.2))
  | _ => hret tt
  end.

Fixpoint run_events (o : outside) (chat_id : Z) (data : string)
    (events : list event) : Handler unit :=
  match events with
  | [] => hret tt
  | ev :: rest =>
      (_ <- run_event o chat_id data ev ;; run_events o chat_id data rest)%handler
  end.

(** A button press served from the router to the cleanup: the events of
    the router, what was sent to the chat, and the cache and the file
    system afterwards. *)
Definition serve_callback (o : outside) (chat_id : Z) (data : string)
    (w : world) (fs : filesystem)
  : list event * list bot_action * (world * filesystem) :=
  let (events, w') := handle_callback data w in
  let st := (run_events o chat_id data events (fs, [])).2 in
  (events, st.2, (w', st.1)).

(* ===================================================================== *)
(** * Part II: vocabulary of the specification                            *)
(* ===================================================================== *)

(** Every character of [s] satisfies [p]. *)
Fixpoint str_all (p : ascii -> bool) (s : string) : bool :=
  match s with
  | EmptyString => true
  | String c s' => p c && str_all p s'
  end.

(** The representation invariant of a Python dict: a key occurs once. *)
Definition dict_ok {V} (d : list (string * V)) : Prop := NoDup (map fst d).

(** The deletions of [cleanup_expired_cache], one per expired key. *)
Definition del_all {V} (keys : list string) (d : list (string * V))
  : list (string * V) :=
  fold_left (fun c' key => dict_del key c') keys d.

(** The operations on the session cache, as a client issues them. *)
Inductive cache_op : Type :=
| OpStore (session_id : string) (d : pyval)
| OpGet (session_id : string)
| OpCleanup.

Definition run_op (op : cache_op) : M unit :=
  match op with
  | OpStore session_id d => store_in_cache session_id d
  | OpGet session_id => (_ <- get_from_cache session_id ;; ret tt)%state
  | OpCleanup => cleanup_expired_cache
  end.

Fixpoint run_ops (ops : list cache_op) : M unit :=
  match ops with
  | [] => ret tt
  | op :: rest => (run_op op ;;; run_ops rest)%state
  end.

(** [op] does not store under the key [k]. *)
Definition stores_elsewhere (k : string) (op : cache_op) : bool :=
  match op with
  | OpStore session_id _ => negb (String.eqb session_id k)
  | _ => true
  end.

(** ** Sample inputs *)

(** A cache holding one session that expires at time 100, under a clock
    that advances by one at every reading. *)
Definition sample_entry : cache_entry :=
  {| data := PDict [("yt_title", PStr "song")]; expires_at := 100 |}.

Definition sample_world : world :=
  {| cache := [("abc123", sample_entry)];
     clock := fun n => Z.of_nat n;
     reads := 0 |}.

(** A clock that advances by one second at every reading, and one that
    advances by a thousand seconds. *)
Definition clock_seconds : nat -> Z := fun n => Z.of_nat n * 1000000.
Definition clock_kiloseconds : nat -> Z := fun n => Z.of_nat n * 1000000000.

Definition sample_data : pyval := PDict [("yt_title", PStr "song")].

(** [s] holds no underscore: true of a decimal number, of a [strftime]
    timestamp of digits and of the text of a UUID. *)
Definition no_underscore (s : string) : bool :=
  str_all (fun c => negb (Ascii.eqb c "_")) s.

(** A TikTok response with one video link. *)
Definition sample_tt_response : pyval :=
  PDict [("status", PStr "ok"); ("desc", PStr "clip");
         ("links", PList [PDict [("t", PStr "MP4"); ("s", PStr "HD");
                                 ("a", PStr "https://cdn.example/v.mp4")]])].

(** ** The two-phase resolver *)

(** The response of a status call reports the completed sentinel together
    with a file URL and a file name that are both non-empty (truthy). *)
Definition reports_completed (http : result pyval) (url name : pyval) : Prop :=
  exists data api,
    http = Ok (PDict data)
    /\ dict_get "api" data = Some (PDict api)
    /\ dict_get "percent" api = Some (PStr "Completed")
    /\ dict_get "fileUrl" api = Some url
    /\ dict_get "fileName" api = Some name
    /\ truthy url = true /\ truthy name = true.

Definition never_completed (http : result pyval) : Prop :=
  forall url name, ~ reports_completed http url name.

(** The status calls of a trace (by attempt number) and its sleeps, in
    order. *)
Definition status_calls (tr : list poll_event) : list nat :=
  omap (fun ev => match ev with StatusCall a => Some a | _ => None end) tr.

Definition sleeps (tr : list poll_event) : list Z :=
  omap (fun ev => match ev with Sleep s => Some s | _ => None end) tr.

(** A job that completes at the third status call, after one response that
    is not ready and one failed request. *)
Definition sample_endpoint (attempt : nat) : result pyval :=
  match attempt with
  | 0%nat => Ok (PDict [("api", PDict [("percent", PStr "50%")])])
  | 1%nat => Raise RequestException
  | _ => Ok (PDict [("api", PDict [("percent", PStr "Completed");
                                   ("fileUrl", PStr "https://cdn.example/a.m4a");
                                   ("fileName", PStr "a.m4a")])])
  end.

(** A job that never completes. *)
Definition stuck_endpoint (attempt : nat) : result pyval :=
  Ok (PDict [("api", PDict [("percent", PStr "10%")])]).

(** ** Media items *)

(** The string under the key [k] of a media item, the empty string (the
    default every [get] of the selection passes) when the key is absent. *)
Definition field_str (item : pyval) (k : string) : string :=
  match item with
  | PDict d => match dict_get k d with Some (PStr s) => s | _ => EmptyString end
  | _ => EmptyString
  end.

Definition str_or_absent (d : list (string * pyval)) (k : string) : bool :=
  match dict_get k d with
  | None | Some (PStr _) => true
  | Some _ => false
  end.

(** A media item as the endpoint documents it: an object whose type,
    extension and quality label are strings when present. *)
Definition well_formed_item (item : pyval) : bool :=
  match item with
  | PDict d => str_or_absent d "type" && str_or_absent d "mediaExtension"
               && str_or_absent d "mediaQuality"
  | _ => false
  end.

(** Of kind audio: the type is audio, or the container is M4A. *)
Definition type_audio (item : pyval) : bool :=
  String.eqb (lower (field_str item "type")) "audio".

Definition is_m4a (item : pyval) : bool :=
  String.eqb (upper (field_str item "mediaExtension")) "M4A".

Definition audio_kind (item : pyval) : bool := type_audio item || is_m4a item.

(** The deny-list of the selection: the label 48K, and any label that
    contains the marker of an unavailable variant. *)
Definition deny_listed (item : pyval) : bool :=
  contains "false" (lower (field_str item "mediaQuality"))
  || String.eqb (field_str item "mediaQuality") "48K".

Definition is_128k (item : pyval) : bool :=
  String.eqb (field_str item "mediaQuality") "128K".

(** The candidates: of kind audio and not on the deny-list. *)
Definition candidate (item : pyval) : bool :=
  audio_kind item && negb (deny_listed item).

Definition media_item (ty ext quality : string) : pyval :=
  PDict [("type", PStr ty); ("mediaExtension", PStr ext);
         ("mediaQuality", PStr quality);
         ("mediaUrl", PStr "https://cdn.example/job")].

(** ** Cached formats *)

(** The value under the key [k] of a cached format or cache entry,
    [PNone] when there is none. *)
Definition fmt_field (fmt : pyval) (k : string) : pyval :=
  match fmt with
  | PDict d => default PNone (dict_get k d)
  | _ => PNone
  end.

(** The deny-list of the YouTube resolver, which it applies to the M4A
    variants: a label that contains the marker of an unavailable variant,
    and the labels 48K and 128K. *)
Definition yt_denied (quality : pyval) : bool :=
  match quality with
  | PStr q => contains "false" (lower q) || py_in_strs quality ["48K"; "128K"]
  | _ => false
  end.

(** What holds of every format the YouTube resolver caches: its URL is
    non-empty, its container is MP4 or M4A, and an M4A format carries no
    deny-listed label. *)
Definition yt_format_ok (fmt : pyval) : Prop :=
  truthy (fmt_field fmt "url") = true
  /\ (py_lower (fmt_field fmt "extension") = Ok "mp4"
      \/ py_lower (fmt_field fmt "extension") = Ok "m4a")
  /\ (py_lower (fmt_field fmt "extension") = Ok "m4a" ->
      yt_denied (fmt_field fmt "quality") = false).

(** A TikTok response whose only link has an empty URL. *)
Definition tt_response_empty_url : pyval :=
  PDict [("status", PStr "ok"); ("desc", PStr "clip");
         ("links", PList [PDict [("t", PStr "MP4"); ("s", PStr "HD");
                                 ("a", PStr "")]])].

(** A YouTube response with a video, a denied audio variant and a usable
    audio variant. *)
Definition sample_yt_response : pyval :=
  PDict [("api",
          PDict [("status", PStr "OK"); ("title", PStr "a/b: song?");
                 ("mediaItems",
                  PList [PDict [("type", PStr "Video");
                                ("mediaExtension", PStr "MP4");
                                ("mediaQuality", PStr "720p");
                                ("mediaUrl", PStr "https://cdn.example/v")];
                         PDict [("type", PStr "Audio");
                                ("mediaExtension", PStr "M4A");
                                ("mediaQuality", PStr "48K");
                                ("mediaUrl", PStr "https://cdn.example/a48")];
                         PDict [("type", PStr "Audio");
                                ("mediaExtension", PStr "M4A");
                                ("mediaQuality", PStr "160K");
                                ("mediaUrl", PStr "https://cdn.example/a160")]])])].

(** ** Response bodies *)

(** A body that arrives whole, as the chunks [chunks]. *)
Fixpoint stream_of (chunks : list bytes) : stream :=
  match chunks with
  | [] => Eof
  | chunk :: rest => Chunk chunk (stream_of rest)
  end.

(** A body whose connection breaks after the chunks [chunks]. *)
Fixpoint broken_after (chunks : list bytes) (e : exn) : stream :=
  match chunks with
  | [] => Broken e
  | chunk :: rest => Chunk chunk (broken_after rest e)
  end.

(** The total length of a list of chunks. *)
Definition total_len (chunks : list bytes) : Z :=
  foldr (fun chunk n => len chunk + n) 0 chunks.

(** A video response without a content-length header. *)
Definition unsized_video (b : stream) : response :=
  {| status_code := 200; content_type := Some "video/mp4";
     content_length := None; body := b |}.

(** 12801 chunks of 8192 bytes: 104865792 bytes, more than 100 MB. *)
Definition oversized_chunks : list bytes :=
  replicate (Z.to_nat 12801) (replicate (Z.to_nat 8192) Byte.x00).

(** A simple model of [int] on decimal digits, for the sample inputs. *)
Definition digit_value (c : ascii) : option Z :=
  let n := Z.of_nat (nat_of_ascii c) in
  if (48 <=? n) && (n <=? 57) then Some (n - 48) else None.

Fixpoint digits_value (s : string) (acc : Z) : result Z :=
  match s with
  | EmptyString => Ok acc
  | String c s' =>
      match digit_value c with
      | Some d => digits_value s' (10 * acc + d)
      | None => Raise ValueError
      end
  end.

Definition int_of_digits (s : string) : result Z :=
  match s with
  | EmptyString => Raise ValueError
  | _ => digits_value s 0
  end.

(** The declared content type is on the allow-list. *)
Definition valid_content_type (r : response) : bool :=
  existsb (fun ct => contains ct (lower (default EmptyString (content_type r))))
          valid_content_types.

(** A response whose body breaks after two bytes. *)
Definition broken_video : response :=
  unsized_video (broken_after [[Byte.x01; Byte.x02]] RequestException).

(** A response that declares HTML. *)
Definition html_page : response :=
  {| status_code := 200; content_type := Some "text/html";
     content_length := None; body := stream_of [[Byte.x3c]] |}.

(** ** Links *)

(** The last character of a string. *)
Fixpoint str_last (s : string) : option ascii :=
  match s with
  | EmptyString => None
  | String c EmptyString => Some c
  | String _ s' => str_last s'
  end.

(** The first character of a string. *)
Definition str_first (s : string) : option ascii :=
  match s with
  | EmptyString => None
  | String c _ => Some c
  end.

(** The platform a link is handed to, by the markers that occur in its
    lower-cased text. *)
Definition platform_of (shown sent : string) : url_outcome :=
  if contains "youtube.com" (lower shown) || contains "youtu.be" (lower shown)
  then ToYoutube sent
  else if contains "tiktok.com" (lower shown) then ToTiktok sent
  else if contains "instagram.com" (lower shown) then ToInstagram sent
  else ReplyUnsupportedPlatform.

(** [s] holds no slash: true of a decimal number and of the text of a
    UUID. *)
Definition no_slash (s : string) : bool :=
  str_all (fun c => negb (Ascii.eqb c "/")) s.

(** The clock never runs backwards. *)
Definition monotone (clk : nat -> Z) : Prop :=
  forall a b, (a <= b)%nat -> clk a <= clk b.

(** ** The local file system *)

(** A name that stands for itself in a path: it holds no slash and is
    none of the empty name, [.] and [..]. *)
Definition plain_name (s : string) : bool :=
  no_slash s
  && negb (String.eqb s "" || String.eqb s "." || String.eqb s "..").

(** The directory of a session: its names from the working directory,
    and from the root. *)
Definition session_path (chat_id : Z) (session_id : string) : list string :=
  ["temp"; "messenger"; pretty chat_id; session_id].

Definition session_dir (fs : filesystem) (chat_id : Z) (session_id : string)
  : list string :=
  (cwd fs ++ session_path chat_id session_id)%list.

(** The place [cp] lies below the directory [dir]. *)
Definition below (dir cp : list string) : Prop :=
  exists name rest, cp = (dir ++ name :: rest)%list.

(** The directory [rel] of the working directory exists or can be made:
    the working directory exists, and no regular file stands at a place
    on the way from it to [rel]. *)
Definition can_make (fs : filesystem) (rel : list string) : Prop :=
  is_dir (tree fs) (cwd fs) = true
  /\ forall k, file_at (cwd fs ++ take k rel)%list (tree fs) = None.

(** ** Handlers *)

(** A message says anything; a video or an audio that is sent is the
    content, not empty, of a regular file in the directory [dir]. *)
Definition delivers (dir : list string) (fs : filesystem) (a : bot_action)
  : Prop :=
  match a with
  | SendMessage _ => True
  | SendVideo content _ | SendAudio content _ =>
      content <> [] /\
      exists name, plain_name name = true
                   /\ file_at (dir ++ [name])%list (tree fs) = Some content
  end.

(** A handler computation is contained in the directory [rel] of the
    working directory, from the file systems that satisfy [P]: it leaves
    the working directory where it is and every regular file that is not
    below [rel] as it was, and makes no new one there; when it returns it
    has sent at most one action, and has sent a media only as [delivers]
    says; when it raises it has sent nothing. *)
Definition contained (rel : list string) (P : filesystem -> Prop)
    (m : Handler unit) : Prop :=
  forall fs out,
    P fs ->
    cwd (m (fs, out)).2.1 = cwd fs
    /\ (forall cp, ~ below (cwd fs ++ rel)%list cp ->
                   file_at cp (tree (m (fs, out)).2.1) = file_at cp (tree fs))
    /\ match (m (fs, out)).1 with
       | Ok _ =>
           exists acts,
             (m (fs, out)).2.2 = (out ++ acts)%list
             /\ (length acts <= 1)%nat
             /\ Forall (delivers (cwd fs ++ rel)%list (m (fs, out)).2.1) acts
       | Raise _ => (m (fs, out)).2.2 = out
       end.

(** The extension of a cached YouTube format holds no slash. *)
Definition plain_extension (o : outside) (fmt : pyval) : bool :=
  match py_getitem fmt "extension" with
  | Ok e => no_slash (fmt_str (out_str o) e)
  | Raise _ => true
  end.

Definition plain_extensions (o : outside) (cache_data : pyval) : bool :=
  match py_get cache_data "yt_formats" (PList []) with
  | Ok (PList formats) => forallb (plain_extension o) formats
  | _ => true
  end.

(** An outside world for the sample runs: every link serves a two-chunk
    video without a declared size, every job completes at its third
    status call, [int] reads decimal digits, and there is no converter. *)
Definition sample_outside : outside :=
  {| out_get := fun _ => Ok (unsized_video (stream_of [[Byte.x01]; [Byte.x02]]));
     out_job := fun _ => sample_endpoint;
     out_int := int_of_digits;
     out_str := fun _ => EmptyString;
     out_pydub := fun _ => None |}.

(** A session of the YouTube resolver with two formats. *)
Definition sample_yt_session : list (string * pyval) :=
  [("yt_formats",
    PList [PDict [("url", PStr "https://media.example/1");
                  ("extension", PStr "mp4")];
           PDict [("url", PStr "https://media.example/2");
                  ("extension", PStr "m4a")]]);
   ("yt_title", PStr "clip");
   ("yt_timestamp", PStr "20240101000000")].

(** The links of a TikTok answer: a video and its sound track. *)
Definition sample_tt_links : list pyval :=
  [PDict [("t", PStr "MP4 HD"); ("s", PStr "HD");
          ("a", PStr "https://cdn.example/v.mp4")];
   PDict [("t", PStr "MP3 audio"); ("s", PStr "128k");
          ("a", PStr "https://cdn.example/v.mp3")]].

(** Two sessions of one chat with a file each, the process at the root. *)
Definition sample_files : filesystem :=
  {| tree :=
       {[ "temp" :=
            Dir {[ "messenger" :=
                     Dir {[ "7" :=
                              Dir {[ "abc123" :=
                                       Dir {[ "v.mp4" := File [Byte.x01] ]};
                                     "abc124" :=
                                       Dir {[ "a.mp3" := File [Byte.x02] ]}
                                  ]} ]} ]} ]};
     cwd := [] |}.

(* ===================================================================== *)
(** * Part III: properties                                                *)
(* ===================================================================== *)

Local Open Scope list_scope.

(** ** Strings *)

Section StringFacts.
Variable p : ascii -> bool.

Lemma str_all_filter s : str_all p (str_filter p s) = true.
Proof.
  induction s as [|c s IH]; simpl; [done|].
  destruct (p c) eqn:Hc; simpl; [by rewrite Hc|done].
Qed.

Lemma str_filter_all s : str_all p s = true -> str_filter p s = s.
Proof.
  induction s as [|c s IH]; simpl; [done|].
  intros [Hc Hs]%andb_prop. rewrite Hc. by rewrite IH.
Qed.

Lemma str_all_take n s : str_all p s = true -> str_all p (str_take n s) = true.
Proof.
  revert s. induction n as [|n IH]; intros [|c s]; simpl; try done.
  intros [Hc Hs]%andb_prop. rewrite Hc. by apply IH.
Qed.

Lemma str_all_chars s c :
  str_all p s = true -> In c (str_chars s) -> p c = true.
Proof.
  induction s as [|c' s IH]; simpl; [done|].
  intros [Hc Hs]%andb_prop [->|Hin]; auto.
Qed.
End StringFacts.

Lemma str_take_length n s : (String.length (str_take n s) <= n)%nat.
Proof.
  revert s. induction n as [|n IH]; intros [|c s]; simpl; try lia.
  specialize (IH s). lia.
Qed.

Lemma str_take_all n s : (String.length s <= n)%nat -> str_take n s = s.
Proof.
  revert s. induction n as [|n IH]; intros [|c s]; simpl; try done; try lia.
  intros H. rewrite IH; [done|lia].
Qed.

(** ** The title sanitizer *)

Lemma clean_filename_all s :
  str_all (fun c => negb (is_hostile c)) (clean_filename s) = true.
Proof. unfold clean_filename. apply str_all_take, str_all_filter. Qed.

Lemma clean_filename_idem s : clean_filename (clean_filename s) = clean_filename s.
Proof.
  unfold clean_filename at 1.
  rewrite str_filter_all by apply clean_filename_all.
  apply str_take_all, str_take_length.
Qed.

(** ** Dictionaries *)

Section DictFacts.
Context {V : Type}.
Implicit Types (d : list (string * V)) (k : string) (v : V).

Lemma dict_get_set_eq k v d : dict_get k (dict_set k v d) = Some v.
Proof.
  induction d as [|[k' v'] d IH]; simpl.
  - by rewrite String.eqb_refl.
  - destruct (String.eqb k k') eqn:E; simpl; rewrite ?String.eqb_refl, ?E; done.
Qed.

Lemma dict_get_set_ne k k' v d :
  k <> k' -> dict_get k' (dict_set k v d) = dict_get k' d.
Proof.
  intros Hne. induction d as [|[k0 v0] d IH]; simpl.
  - by apply String.eqb_neq in Hne; rewrite String.eqb_sym, Hne.
  - destruct (String.eqb k k0) eqn:E; simpl.
    + apply String.eqb_eq in E as <-.
      assert (String.eqb k' k = false) as -> by (apply String.eqb_neq; congruence).
      done.
    + by rewrite IH.
Qed.

Lemma dict_get_del_eq k d : dict_get k (dict_del k d) = None.
Proof.
  induction d as [|[k' v'] d IH]; simpl; [done|].
  destruct (String.eqb k k') eqn:E; simpl; rewrite ?E; done.
Qed.

Lemma dict_get_del_ne k k' d :
  k <> k' -> dict_get k' (dict_del k d) = dict_get k' d.
Proof.
  intros Hne. induction d as [|[k0 v0] d IH]; simpl; [done|].
  destruct (String.eqb k k0) eqn:E; simpl.
  - apply String.eqb_eq in E as <-.
    assert (String.eqb k' k = false) as -> by (apply String.eqb_neq; congruence).
    done.
  - by rewrite IH.
Qed.

Lemma dict_get_del_Some k k' d v :
  dict_get k' (dict_del k d) = Some v -> dict_get k' d = Some v.
Proof.
  destruct (decide (k = k')) as [->|Hne].
  - by rewrite dict_get_del_eq.
  - by rewrite dict_get_del_ne.
Qed.

Lemma dict_get_In k v d : dict_get k d = Some v -> In (k, v) d.
Proof.
  induction d as [|[k' v'] d IH]; simpl; [done|].
  destruct (String.eqb k k') eqn:E.
  - apply String.eqb_eq in E as <-. intros [= ->]. by left.
  - auto.
Qed.

Lemma dict_get_NoDup k v d : dict_ok d -> In (k, v) d -> dict_get k d = Some v.
Proof.
  unfold dict_ok.
  induction d as [|[k' v'] d IH]; simpl; [done|].
  intros [Hnotin Hnd]%NoDup_cons [[= -> ->]|Hin].
  - by rewrite String.eqb_refl.
  - destruct (String.eqb k k') eqn:E; [|auto].
    apply String.eqb_eq in E as <-. exfalso. apply Hnotin.
    apply list_elem_of_In, in_map_iff. by exists (k, v).
Qed.

Lemma dict_del_fst k d x :
  In x (map fst (dict_del k d)) -> In x (map fst d).
Proof.
  induction d as [|[k' v'] d IH]; simpl; [done|].
  destruct (String.eqb k k'); simpl; tauto.
Qed.

Lemma dict_del_ok k d : dict_ok d -> dict_ok (dict_del k d).
Proof.
  unfold dict_ok.
  induction d as [|[k' v'] d IH]; simpl; [done|].
  intros [Hnotin Hnd]%NoDup_cons.
  destruct (String.eqb k k'); simpl; [auto|].
  apply NoDup_cons. split; [|auto].
  intros Hin. apply list_elem_of_In in Hin. apply dict_del_fst in Hin.
  by apply Hnotin, list_elem_of_In.
Qed.

Lemma dict_set_fst k v d x :
  In x (map fst (dict_set k v d)) -> x = k \/ In x (map fst d).
Proof.
  induction d as [|[k' v'] d IH]; simpl; [intros [<-|[]]; by left|].
  destruct (String.eqb k k') eqn:E; simpl.
  - apply String.eqb_eq in E as <-. tauto.
  - intros [<-|Hin]; [tauto|]. destruct (IH Hin); tauto.
Qed.

Lemma dict_set_ok k v d : dict_ok d -> dict_ok (dict_set k v d).
Proof.
  unfold dict_ok.
  induction d as [|[k' v'] d IH]; simpl.
  - intros _. apply NoDup_singleton.
  - intros [Hnotin Hnd]%NoDup_cons.
    destruct (String.eqb k k') eqn:E; simpl.
    + apply String.eqb_eq in E as <-. by apply NoDup_cons.
    + apply NoDup_cons. split; [|auto].
      intros Hin. apply list_elem_of_In in Hin. apply dict_set_fst in Hin.
      destruct Hin as [->|Hin].
      * by rewrite String.eqb_refl in E.
      * by apply Hnotin, list_elem_of_In.
Qed.

Lemma del_all_ok keys d : dict_ok d -> dict_ok (del_all keys d).
Proof.
  revert d. induction keys as [|key keys IH]; simpl; [done|].
  intros d Hd. apply IH. by apply dict_del_ok.
Qed.

Lemma del_all_notin keys d k :
  ~ In k keys -> dict_get k (del_all keys d) = dict_get k d.
Proof.
  revert d. induction keys as [|key keys IH]; simpl; [done|].
  intros d Hnotin. rewrite IH by tauto. apply dict_get_del_ne. naive_solver.
Qed.

Lemma del_all_Some keys d k v :
  dict_get k (del_all keys d) = Some v -> dict_get k d = Some v.
Proof.
  revert d. induction keys as [|key keys IH]; simpl; [done|].
  intros d H%IH. by eapply dict_get_del_Some.
Qed.

Lemma del_all_in keys d k : In k keys -> dict_get k (del_all keys d) = None.
Proof.
  revert d. induction keys as [|key keys IH]; simpl; [done|].
  intros d [->|Hin]; [|auto].
  destruct (dict_get k (del_all keys (dict_del k d))) eqn:E; [|done].
  apply del_all_Some in E. by rewrite dict_get_del_eq in E.
Qed.
End DictFacts.

(** ** The session cache *)

Section CacheFacts.
Implicit Types (w : world) (k : string) (e : cache_entry).

(** The scan reads the clock once per item and changes nothing else; a
    key is reported exactly when the reading made for its item is past
    the item's expiry. *)
Lemma expired_keys_run items w :
  exists keys,
    expired_keys items w
    = (keys, {| cache := cache w; clock := clock w;
                reads := reads w + length items |})
    /\ forall k, In k keys <->
         exists i e, items !! i = Some (k, e)
                     /\ clock w (reads w + i)%nat > expires_at e.
Proof.
  revert w. induction items as [|[key e] items IH]; intros w.
  - exists []. split.
    + simpl. unfold ret. destruct w; simpl. do 2 f_equal. lia.
    + intros k. split; [done|]. by intros (i & e & ? & _).
  - simpl. unfold bind, now at 1.
    destruct (IH {| cache := cache w; clock := clock w;
                    reads := S (reads w) |}) as (keys & -> & Hkeys).
    simpl in *. unfold ret.
    exists (if clock w (reads w) >? expires_at e then key :: keys else keys).
    split; [do 2 f_equal; lia|].
    intros k. split.
    + intros Hin.
      assert ((k = key /\ clock w (reads w) > expires_at e) \/ In k keys)
        as [[-> Hgt]|Hin'].
      { destruct (Z.gtb_spec (clock w (reads w)) (expires_at e)).
        - destruct Hin as [<-|?]; [left; split; [done|lia]|by right].
        - by right. }
      * exists 0%nat, e. split; [done|]. by rewrite Nat.add_0_r.
      * apply Hkeys in Hin' as (i & e' & Hi & Hgt).
        exists (S i), e'. split; [done|].
        by replace (reads w + S i)%nat with (S (reads w + i)) by lia.
    + intros (i & e' & Hi & Hgt). destruct i as [|i]; simpl in Hi.
      * injection Hi as <- <-. rewrite Nat.add_0_r in Hgt.
        destruct (Z.gtb_spec (clock w (reads w)) (expires_at e)); [|lia].
        by left.
      * assert (In k keys) as Hin.
        { apply Hkeys. exists i, e'. split; [done|].
          by replace (S (reads w + i)) with (reads w + S i)%nat by lia. }
        destruct (clock w (reads w) >? expires_at e); [by right|done].
Qed.

Lemma cleanup_run w :
  exists keys,
    cleanup_expired_cache w
    = (tt, {| cache := del_all keys (cache w); clock := clock w;
              reads := reads w + length (cache w) |})
    /\ forall k, In k keys <->
         exists i e, cache w !! i = Some (k, e)
                     /\ clock w (reads w + i)%nat > expires_at e.
Proof.
  destruct (expired_keys_run (cache w) w) as (keys & Hrun & Hkeys).
  exists keys. split; [|done].
  unfold cleanup_expired_cache, bind, get_cache. rewrite Hrun. done.
Qed.

(** An entry all of whose readings during the scan are within its
    lifetime survives the cleanup. *)
Lemma cleanup_keeps w k e :
  dict_ok (cache w) ->
  dict_get k (cache w) = Some e ->
  (forall i, (reads w <= i < reads (cleanup_expired_cache w).2)%nat ->
             clock w i <= expires_at e) ->
  dict_get k (cache (cleanup_expired_cache w).2) = Some e.
Proof.
  intros Hok Hget Hlive.
  destruct (cleanup_run w) as (keys & Hrun & Hkeys).
  rewrite Hrun in *. simpl in *.
  rewrite del_all_notin; [done|].
  intros (i & e' & Hi & Hgt)%Hkeys.
  assert (e' = e) as ->.
  { apply (dict_get_NoDup k e') in Hok; [congruence|].
    apply list_elem_of_In. by eapply list_elem_of_lookup_2. }
  assert (i < length (cache w))%nat by (by eapply lookup_lt_Some).
  specialize (Hlive (reads w + i)%nat). lia.
Qed.

Lemma cleanup_origin w k e :
  dict_get k (cache (cleanup_expired_cache w).2) = Some e ->
  dict_get k (cache w) = Some e.
Proof.
  destruct (cleanup_run w) as (keys & -> & _). simpl. apply del_all_Some.
Qed.

Lemma cleanup_frame w :
  clock (cleanup_expired_cache w).2 = clock w
  /\ (reads w <= reads (cleanup_expired_cache w).2)%nat
  /\ (dict_ok (cache w) -> dict_ok (cache (cleanup_expired_cache w).2)).
Proof.
  destruct (cleanup_run w) as (keys & -> & _). simpl.
  split; [done|]. split; [lia|]. apply del_all_ok.
Qed.

Lemma store_run session_id d w :
  let w1 := (cleanup_expired_cache w).2 in
  store_in_cache session_id d w
  = (tt, {| cache := dict_set session_id
                       {| data := d;
                          expires_at := clock w (reads w1) + cache_ttl |}
                       (cache w1);
            clock := clock w; reads := S (reads w1) |}).
Proof.
  destruct (cleanup_run w) as (keys & Hrun & _).
  unfold store_in_cache, bind. rewrite Hrun. reflexivity.
Qed.

Lemma get_run session_id w :
  let w1 := (cleanup_expired_cache w).2 in
  get_from_cache session_id w
  = match dict_get session_id (cache w1) with
    | Some e =>
        (if clock w (reads w1) <=? expires_at e then Some (data e) else None,
         {| cache := cache w1; clock := clock w; reads := S (reads w1) |})
    | None => (None, w1)
    end.
Proof.
  destruct (cleanup_run w) as (keys & Hrun & _).
  unfold get_from_cache, bind. rewrite Hrun. simpl.
  destruct (dict_get session_id (del_all keys (cache w))); reflexivity.
Qed.

(** Every operation leaves the clock alone, only consumes readings, and
    keeps the dict well formed. *)
Lemma run_op_frame op w :
  clock (run_op op w).2 = clock w
  /\ (reads w <= reads (run_op op w).2)%nat
  /\ (dict_ok (cache w) -> dict_ok (cache (run_op op w).2)).
Proof.
  destruct (cleanup_frame w) as (Hclk & Hreads & Hok).
  destruct op as [sid d|sid|]; simpl.
  - rewrite store_run. simpl. split; [done|]. split; [lia|].
    intros H. by apply dict_set_ok, Hok.
  - unfold bind. rewrite get_run.
    destruct (dict_get sid _); simpl; [|done].
    split; [done|]. split; [lia|done].
  - done.
Qed.

Lemma run_op_keeps op w k e :
  dict_ok (cache w) ->
  stores_elsewhere k op = true ->
  dict_get k (cache w) = Some e ->
  (forall i, (reads w <= i < reads (run_op op w).2)%nat ->
             clock w i <= expires_at e) ->
  dict_get k (cache (run_op op w).2) = Some e.
Proof.
  intros Hok Hop Hget Hlive.
  destruct op as [sid d|sid|]; simpl in *.
  - rewrite store_run in *. simpl in *.
    rewrite dict_get_set_ne.
    + apply cleanup_keeps; [done..|]. intros i Hi. apply Hlive. lia.
    + apply negb_true_iff, String.eqb_neq in Hop. done.
  - unfold bind in *. rewrite get_run in *.
    destruct (dict_get sid _); simpl in *.
    + apply cleanup_keeps; [done..|]. intros i Hi. apply Hlive. lia.
    + by apply cleanup_keeps.
  - by apply cleanup_keeps.
Qed.

Lemma run_op_origin op w k e :
  stores_elsewhere k op = true ->
  dict_get k (cache (run_op op w).2) = Some e ->
  dict_get k (cache w) = Some e.
Proof.
  intros Hop.
  destruct op as [sid d|sid|]; simpl in *.
  - rewrite store_run. simpl.
    apply negb_true_iff, String.eqb_neq in Hop.
    rewrite dict_get_set_ne by done. apply cleanup_origin.
  - unfold bind. rewrite get_run.
    destruct (dict_get sid _); simpl; apply cleanup_origin.
  - apply cleanup_origin.
Qed.

Lemma run_ops_frame ops w :
  clock (run_ops ops w).2 = clock w
  /\ (reads w <= reads (run_ops ops w).2)%nat
  /\ (dict_ok (cache w) -> dict_ok (cache (run_ops ops w).2)).
Proof.
  revert w. induction ops as [|op ops IH]; intros w; simpl.
  - split; [done|]. split; [lia|done].
  - unfold bind. destruct (run_op op w) as [[] w1] eqn:E.
    destruct (run_op_frame op w) as (Hc & Hr & Ho). rewrite E in *.
    destruct (IH w1) as (Hc' & Hr' & Ho'). simpl in *.
    split; [congruence|]. split; [lia|auto].
Qed.

Lemma run_ops_keeps ops w k e :
  dict_ok (cache w) ->
  forallb (stores_elsewhere k) ops = true ->
  dict_get k (cache w) = Some e ->
  (forall i, (reads w <= i < reads (run_ops ops w).2)%nat ->
             clock w i <= expires_at e) ->
  dict_get k (cache (run_ops ops w).2) = Some e.
Proof.
  revert w. induction ops as [|op ops IH]; intros w Hok Hops Hget Hlive.
  - done.
  - simpl in *. apply andb_prop in Hops as [Hop Hops].
    unfold bind in *. destruct (run_op op w) as [[] w1] eqn:E.
    destruct (run_op_frame op w) as (Hc & Hr & Ho). rewrite E in *.
    destruct (run_ops_frame ops w1) as (_ & Hr' & _). simpl in *.
    apply IH; [auto|done| |].
    + pose proof (run_op_keeps op w k e Hok Hop Hget) as Hk.
      rewrite E in Hk. apply Hk. intros i Hi. simpl in Hi. apply Hlive. lia.
    + intros i Hi. rewrite Hc. apply Hlive. lia.
Qed.

Lemma run_ops_origin ops w k e :
  forallb (stores_elsewhere k) ops = true ->
  dict_get k (cache (run_ops ops w).2) = Some e ->
  dict_get k (cache w) = Some e.
Proof.
  revert w. induction ops as [|op ops IH]; intros w Hops Hget.
  - done.
  - simpl in *. apply andb_prop in Hops as [Hop Hops].
    unfold bind in *. destruct (run_op op w) as [[] w1] eqn:E.
    apply (run_op_origin op w); [done|]. rewrite E. by apply IH.
Qed.
End CacheFacts.

(** C9. An operation of the session cache that does not store under the
    key [k] keeps the entry of [k] as it is, provided every clock reading
    the operation makes is within the entry's lifetime; and whatever entry
    [k] has afterwards is the entry it had before, data and expiry
    unchanged. *)
Theorem cache_ops_preserve_live_entries
    (op : cache_op) (w : world) (k : string) (e : cache_entry) :
  dict_ok (cache w) ->
  stores_elsewhere k op = true ->
  (dict_get k (cache w) = Some e ->
   (forall i, (reads w <= i < reads (run_op op w).2)%nat ->
              clock w i <= expires_at e) ->
   dict_get k (cache (run_op op w).2) = Some e)
  /\ (forall e', dict_get k (cache (run_op op w).2) = Some e' ->
                 dict_get k (cache w) = Some e').
Proof.
  intros Hok Hop. split.
  - intros Hget Hlive. by apply run_op_keeps.
  - intros e'. by apply run_op_origin.
Qed.

Lemma cache_ops_preserve_live_entries_witness :
  dict_get "abc123"
    (cache (run_op (OpStore "other" (PInt 1)) sample_world).2)
  = Some sample_entry.
Proof.
  refine (proj1 (cache_ops_preserve_live_entries
                   (OpStore "other" (PInt 1)) sample_world "abc123"
                   sample_entry _ _) _ _).
  - apply NoDup_singleton.
  - reflexivity.
  - reflexivity.
  - simpl. intros i Hi. lia.
Defined.

(** C3. After [store_in_cache session_id d], and whatever other cache
    operations follow that do not store under the same id: a
    [get_from_cache session_id] returns [d] when every clock reading made
    since the store is at most the TTL of 15 minutes after it; it returns
    [None] when the readings the get makes are more than the TTL after the
    store; and it returns [None] for an id the cache never held. The
    functions are total: no case raises. *)
Theorem session_cache_get
    (w0 : world) (session_id : string) (d : pyval) (ops : list cache_op) :
  dict_ok (cache w0) ->
  forallb (stores_elsewhere session_id) ops = true ->
  let w1 := (store_in_cache session_id d w0).2 in
  let stored_at := clock w0 (reads w1 - 1) in
  let w2 := (run_ops ops w1).2 in
  let w3 := (get_from_cache session_id w2).2 in
  ((forall i, (reads w1 <= i < reads w3)%nat ->
              clock w0 i - stored_at <= cache_ttl) ->
   (get_from_cache session_id w2).1 = Some d)
  /\ ((forall i, (reads w2 <= i < reads w3)%nat ->
                 clock w0 i - stored_at > cache_ttl) ->
      (get_from_cache session_id w2).1 = None)
  /\ (dict_get session_id (cache w0) = None ->
      (get_from_cache session_id (run_ops ops w0).2).1 = None).
Proof.
  intros Hok Hops w1 stored_at w2 w3.
  set (e := {| data := d; expires_at := stored_at + cache_ttl |}).
  destruct (cleanup_frame w0) as (Hc0 & Hr0 & Hok0).
  assert (clock w1 = clock w0 /\ dict_ok (cache w1)
          /\ dict_get session_id (cache w1) = Some e) as (Hc1 & Hok1 & Hget1).
  { subst w1 e stored_at. rewrite store_run. simpl.
    rewrite Nat.sub_0_r. split; [done|]. split.
    - by apply dict_set_ok, Hok0.
    - apply dict_get_set_eq. }
  destruct (run_ops_frame ops w1) as (Hc2 & Hr2 & Hok2). fold w2 in Hc2, Hr2, Hok2.
  destruct (cleanup_frame w2) as (Hc2' & Hr2' & Hok2').
  assert (reads w3 = match dict_get session_id (cache (cleanup_expired_cache w2).2)
                     with Some _ => S (reads (cleanup_expired_cache w2).2)
                     | None => reads (cleanup_expired_cache w2).2 end) as Hr3.
  { subst w3. rewrite get_run.
    by destruct (dict_get session_id (cache (cleanup_expired_cache w2).2)). }
  assert (reads (cleanup_expired_cache w2).2 <= reads w3)%nat as Hle3.
  { rewrite Hr3.
    destruct (dict_get session_id (cache (cleanup_expired_cache w2).2)); lia. }
  split; [|split].
  - intros Hlive.
    assert (dict_get session_id (cache w2) = Some e) as Hget2.
    { apply run_ops_keeps; [done..|]. intros i Hi. fold w2 in Hi.
      rewrite Hc1. specialize (Hlive i). unfold e. simpl. lia. }
    assert (dict_get session_id (cache (cleanup_expired_cache w2).2) = Some e)
      as Hget2'.
    { apply cleanup_keeps; [auto|done|]. intros i Hi. rewrite Hc2, Hc1.
      specialize (Hlive i). unfold e. simpl. lia. }
    rewrite Hget2' in Hr3. rewrite get_run, Hget2'. simpl.
    specialize (Hlive (reads (cleanup_expired_cache w2).2)).
    rewrite Hc2, Hc1.
    destruct (Z.leb_spec (clock w0 (reads (cleanup_expired_cache w2).2))
                         (stored_at + cache_ttl)); [done|lia].
  - intros Hdead. rewrite get_run.
    destruct (dict_get session_id (cache (cleanup_expired_cache w2).2))
      as [e'|] eqn:Hget2'; [|done].
    simpl.
    assert (e' = e) as ->.
    { apply cleanup_origin, run_ops_origin in Hget2'; [|done]. congruence. }
    specialize (Hdead (reads (cleanup_expired_cache w2).2)).
    rewrite Hc2, Hc1. simpl.
    destruct (Z.leb_spec (clock w0 (reads (cleanup_expired_cache w2).2))
                         (stored_at + cache_ttl)); [lia|done].
  - intros Hnone. rewrite get_run.
    destruct (dict_get session_id
                (cache (cleanup_expired_cache (run_ops ops w0).2).2))
      as [e'|] eqn:Hget; [|done].
    apply cleanup_origin, run_ops_origin in Hget; [|done]. congruence.
Qed.

Lemma session_cache_get_witness :
  (get_from_cache "abc123"
     (run_ops [OpStore "other" PNone; OpGet "abc123"; OpCleanup]
        (store_in_cache "abc123" sample_data (init_world clock_seconds)).2).2).1
  = Some sample_data
  /\ (get_from_cache "abc123"
        (run_ops [OpGet "other"]
           (store_in_cache "abc123" sample_data
              (init_world clock_kiloseconds)).2).2).1
     = None
  /\ (get_from_cache "abc123"
        (run_ops [OpStore "other" PNone] (init_world clock_seconds)).2).1
     = None.
Proof.
  split; [|split].
  - refine (proj1 (session_cache_get (init_world clock_seconds) "abc123"
                     sample_data [OpStore "other" PNone; OpGet "abc123"; OpCleanup]
                     _ _) _).
    + apply NoDup_nil_2.
    + reflexivity.
    + intros i Hi. vm_compute in Hi. unfold cache_ttl. simpl.
      unfold clock_seconds. lia.
  - refine (proj1 (proj2 (session_cache_get (init_world clock_kiloseconds)
                            "abc123" sample_data [OpGet "other"] _ _)) _).
    + apply NoDup_nil_2.
    + reflexivity.
    + intros i Hi. vm_compute in Hi. unfold cache_ttl. simpl.
      unfold clock_kiloseconds. lia.
  - refine (proj2 (proj2 (session_cache_get (init_world clock_seconds)
                            "abc123" sample_data [OpStore "other" PNone] _ _)) _).
    + apply NoDup_nil_2.
    + reflexivity.
    + reflexivity.
Defined.

(** ** Splitting callback tokens *)

Lemma split_app sep a b :
  str_all (fun c => negb (Ascii.eqb c sep)) a = true ->
  split sep (a +:+ String sep b) = a :: split sep b.
Proof.
  induction a as [|c a IH]; simpl.
  - intros _. by rewrite Ascii.eqb_refl.
  - intros [Hc Ha]%andb_prop. apply negb_true_iff in Hc. rewrite Hc.
    by rewrite IH.
Qed.

Lemma split_single sep a :
  str_all (fun c => negb (Ascii.eqb c sep)) a = true -> split sep a = [a].
Proof.
  induction a as [|c a IH]; simpl; [done|].
  intros [Hc Ha]%andb_prop. apply negb_true_iff in Hc. rewrite Hc.
  by rewrite IH.
Qed.

Lemma pretty_N_go_no_underscore x s :
  no_underscore s = true -> no_underscore (pretty_N_go x s) = true.
Proof.
  revert s. induction (N.lt_wf_0 x) as [x _ IH]; intros s Hs.
  assert (x = 0 \/ 0 < x)%N as [->|Hpos] by lia.
  - by rewrite pretty_N_go_0.
  - rewrite pretty_N_go_step by done. apply IH.
    + by apply N.div_lt.
    + unfold no_underscore in *. simpl. rewrite Hs.
      unfold pretty_N_char. by repeat case_match.
Qed.

Lemma pretty_nat_no_underscore (n : nat) : no_underscore (pretty n) = true.
Proof.
  unfold pretty, pretty_nat, pretty, pretty_N.
  case_decide; [done|]. by apply pretty_N_go_no_underscore.
Qed.

Lemma append_underscore r : "_" +:+ r = String "_" r.
Proof. reflexivity. Qed.

(** What the router sees of the tokens the three resolvers build. *)
Lemma split_yt_token i timestamp session_id :
  no_underscore timestamp = true ->
  no_underscore session_id = true ->
  split "_" (yt_token i timestamp session_id)
  = ["yt"; pretty i; timestamp; session_id].
Proof.
  intros Ht Hs. unfold yt_token.
  change ("yt_" +:+ ?r) with ("yt" +:+ String "_" r).
  rewrite split_app by done.
  rewrite !append_underscore.
  rewrite split_app by apply pretty_nat_no_underscore.
  rewrite split_app by done.
  by rewrite split_single.
Qed.

Lemma split_insta_token kind timestamp session_id :
  no_underscore kind = true ->
  no_underscore timestamp = true ->
  no_underscore session_id = true ->
  split "_" (insta_token kind timestamp session_id)
  = ["insta"; kind; timestamp; session_id].
Proof.
  intros Hk Ht Hs. unfold insta_token.
  change ("insta_" +:+ ?r) with ("insta" +:+ String "_" r).
  rewrite split_app by done.
  rewrite !append_underscore.
  rewrite split_app by done.
  rewrite split_app by done.
  by rewrite split_single.
Qed.

Lemma split_tt_token kind i timestamp session_id :
  no_underscore kind = true ->
  no_underscore timestamp = true ->
  no_underscore session_id = true ->
  split "_" (tt_token kind i timestamp session_id)
  = ["tt"; kind; pretty i; timestamp; session_id].
Proof.
  intros Hk Ht Hs. unfold tt_token.
  change ("tt_" +:+ ?r) with ("tt" +:+ String "_" r).
  rewrite split_app by done.
  rewrite !append_underscore.
  rewrite split_app by done.
  rewrite split_app by apply pretty_nat_no_underscore.
  rewrite split_app by done.
  by rewrite split_single.
Qed.

(** ** The callback router *)

Lemma get_from_cache_absent session_id w :
  dict_get session_id (cache w) = None ->
  (get_from_cache session_id w).1 = None.
Proof.
  intros Hnone. rewrite get_run.
  destruct (dict_get session_id (cache (cleanup_expired_cache w).2))
    as [e|] eqn:E; [|done].
  apply cleanup_origin in E. congruence.
Qed.

(** The router looks the session up under the fourth part of the token. *)
Lemma handle_callback_lookup data platform format_type timestamp session_id
    more w :
  split "_" data = platform :: format_type :: timestamp :: session_id :: more ->
  (handle_callback data w).2 = (get_from_cache session_id w).2
  /\ ((get_from_cache session_id w).1 = None ->
      (handle_callback data w).1 = [AnswerSessionExpired])
  /\ (forall cd,
        (get_from_cache session_id w).1 = Some cd -> truthy cd = true ->
        exists dispatch,
          (handle_callback data w).1
          = AnswerLoading (upper format_type) :: dispatch
            ++ [CleanupTempFiles session_id]
          /\ (platform = "yt" ->
              dispatch = [Dispatch YoutubeHandler format_type timestamp
                                   session_id cd])
          /\ (platform = "tt" ->
              dispatch = [Dispatch TiktokHandler format_type timestamp
                                   session_id cd])
          /\ (platform = "insta" ->
              dispatch = [Dispatch InstagramHandler format_type timestamp
                                   session_id cd])).
Proof.
  intros Hsplit. unfold handle_callback. rewrite Hsplit. simpl.
  unfold bind, part. simpl.
  destruct (get_from_cache session_id w) as [[cd|] w'] eqn:E; simpl.
  - split; [by destruct (truthy cd)|]. split; [done|].
    intros cd' [= <-] Htruthy. rewrite Htruthy. simpl.
    eexists. split; [reflexivity|].
    split; [|split]; intros ->; reflexivity.
  - split; [done|]. split; [done|]. by intros cd' [=].
Qed.

(** C8. A token with fewer than four underscore-separated parts is answered
    with the invalid-button notice and nothing else happens: the cache is
    not consulted (the world is unchanged) and no handler is dispatched. A
    token [yt_3_20240101000000_abc123] whose session is in the cache is
    dispatched to the YouTube handler with selector 3 and session abc123,
    and [insta_mp3_20240101000000_abc123] to the Instagram handler, whose
    [mp3] branch delivers audio. *)
Theorem router_rejects_short_tokens :
  (forall data w,
     (length (split "_" data) < 4)%nat ->
     handle_callback data w = ([AnswerInvalidButton], w))
  /\ (forall w cd,
        (get_from_cache "abc123" w).1 = Some cd -> truthy cd = true ->
        (handle_callback "yt_3_20240101000000_abc123" w).1
        = [AnswerLoading "3";
           Dispatch YoutubeHandler "3" "20240101000000" "abc123" cd;
           CleanupTempFiles "abc123"])
  /\ (forall w cd,
        (get_from_cache "abc123" w).1 = Some cd -> truthy cd = true ->
        (handle_callback "insta_mp3_20240101000000_abc123" w).1
        = [AnswerLoading "MP3";
           Dispatch InstagramHandler "mp3" "20240101000000" "abc123" cd;
           CleanupTempFiles "abc123"]
        /\ instagram_branch "mp3" = InstaAudio).
Proof.
  split; [|split].
  - intros data w Hlen. unfold handle_callback.
    destruct (split "_" data) as [|p0 [|p1 [|p2 [|p3 more]]]]; simpl in *;
      try reflexivity.
    lia.
  - intros w cd Hget Htruthy.
    destruct (handle_callback_lookup "yt_3_20240101000000_abc123"
                "yt" "3" "20240101000000" "abc123" [] w eq_refl)
      as (_ & _ & Hd).
    destruct (Hd cd Hget Htruthy) as (dispatch & -> & Hyt & _).
    by rewrite Hyt.
  - intros w cd Hget Htruthy. split; [|reflexivity].
    destruct (handle_callback_lookup "insta_mp3_20240101000000_abc123"
                "insta" "mp3" "20240101000000" "abc123" [] w eq_refl)
      as (_ & _ & Hd).
    destruct (Hd cd Hget Htruthy) as (dispatch & -> & _ & _ & Hinsta).
    by rewrite Hinsta.
Qed.

Lemma router_rejects_short_tokens_witness :
  handle_callback "yt_3_abc123" sample_world
  = ([AnswerInvalidButton], sample_world)
  /\ (handle_callback "yt_3_20240101000000_abc123" sample_world).1
     = [AnswerLoading "3";
        Dispatch YoutubeHandler "3" "20240101000000" "abc123"
                 (data sample_entry);
        CleanupTempFiles "abc123"]
  /\ (handle_callback "insta_mp3_20240101000000_abc123" sample_world).1
     = [AnswerLoading "MP3";
        Dispatch InstagramHandler "mp3" "20240101000000" "abc123"
                 (data sample_entry);
        CleanupTempFiles "abc123"].
Proof.
  destruct router_rejects_short_tokens as (Hshort & Hyt & Hinsta).
  split; [|split].
  - apply Hshort. simpl. lia.
  - apply Hyt; reflexivity.
  - apply Hinsta; reflexivity.
Defined.

(** The tokens of the YouTube and Instagram resolvers carry the session id
    as their fourth part, where the router reads it. *)
Lemma yt_token_session i timestamp session_id w :
  no_underscore timestamp = true ->
  no_underscore session_id = true ->
  (handle_callback (yt_token i timestamp session_id) w).2
  = (get_from_cache session_id w).2
  /\ forall cd,
       (get_from_cache session_id w).1 = Some cd -> truthy cd = true ->
       (handle_callback (yt_token i timestamp session_id) w).1
       = [AnswerLoading (upper (pretty i));
          Dispatch YoutubeHandler (pretty i) timestamp session_id cd;
          CleanupTempFiles session_id].
Proof.
  intros Ht Hs.
  destruct (handle_callback_lookup _ _ _ _ _ _ w
              (split_yt_token i timestamp session_id Ht Hs)) as (Hw & _ & Hd).
  split; [done|]. intros cd Hget Htruthy.
  destruct (Hd cd Hget Htruthy) as (dispatch & -> & Hyt & _).
  by rewrite Hyt.
Qed.

Lemma insta_token_session kind timestamp session_id w :
  no_underscore kind = true ->
  no_underscore timestamp = true ->
  no_underscore session_id = true ->
  (handle_callback (insta_token kind timestamp session_id) w).2
  = (get_from_cache session_id w).2
  /\ forall cd,
       (get_from_cache session_id w).1 = Some cd -> truthy cd = true ->
       (handle_callback (insta_token kind timestamp session_id) w).1
       = [AnswerLoading (upper kind);
          Dispatch InstagramHandler kind timestamp session_id cd;
          CleanupTempFiles session_id].
Proof.
  intros Hk Ht Hs.
  destruct (handle_callback_lookup _ _ _ _ _ _ w
              (split_insta_token kind timestamp session_id Hk Ht Hs))
    as (Hw & _ & Hd).
  split; [done|]. intros cd Hget Htruthy.
  destruct (Hd cd Hget Htruthy) as (dispatch & -> & _ & _ & Hinsta).
  by rewrite Hinsta.
Qed.

(** A TikTok token has five parts: the router takes the timestamp, its
    fourth part, for the session id, and finds no session under it. *)
Lemma tt_token_session kind i timestamp session_id w :
  no_underscore kind = true ->
  no_underscore timestamp = true ->
  no_underscore session_id = true ->
  dict_get timestamp (cache w) = None ->
  (handle_callback (tt_token kind i timestamp session_id) w).1
  = [AnswerSessionExpired].
Proof.
  intros Hk Ht Hs Hnone.
  destruct (handle_callback_lookup _ _ _ _ _ _ w
              (split_tt_token kind i timestamp session_id Hk Ht Hs))
    as (_ & Hexp & _).
  by apply Hexp, get_from_cache_absent.
Qed.

(** C2, at a token the TikTok resolver builds. The resolver stores the
    links under the session id abc123 and offers one button; the session is
    live, yet pressing the button is answered with the session-expired
    notice, because the router looks the session up under the timestamp. *)
Theorem tiktok_token_session_mismatch :
  let run := tiktok_download (Ok sample_tt_response) "20240101000000" "abc123"
               (init_world clock_seconds) in
  run.1 = ["tt_mp4_1_20240101000000_abc123"]
  /\ is_Some (get_from_cache "abc123" run.2).1
  /\ part 3 (split "_" "tt_mp4_1_20240101000000_abc123") = "20240101000000"
  /\ (handle_callback "tt_mp4_1_20240101000000_abc123" run.2).1
     = [AnswerSessionExpired].
Proof.
  vm_compute. split; [done|]. split; [by eexists|]. done.
Qed.

(** ** The two-phase resolver *)

(** [check_status] returns a pair exactly for a completed response. *)
Lemma check_status_completed http url name :
  check_status http = Ok (Some (url, name)) <-> reports_completed http url name.
Proof.
  split.
  - unfold check_status, rbind.
    destruct http as [data|e]; [|done].
    destruct data as [| | | | |d]; try done. simpl.
    destruct (dict_get "api" d) as [api|] eqn:Hapi; simpl; [|done].
    destruct (truthy api) eqn:Htr; [|done].
    destruct api as [| | | | |a]; try done. simpl.
    destruct (py_eq_str (default PNone (dict_get "percent" a)) "Completed")
      eqn:Hp; [|done].
    destruct (truthy (default PNone (dict_get "fileUrl" a))) eqn:Hu; [|done].
    destruct (truthy (default PNone (dict_get "fileName" a))) eqn:Hn; [|done].
    simpl. intros [= <- <-].
    destruct (dict_get "percent" a) as [[| | |p| |]|] eqn:Hpa; try done.
    simpl in Hp. apply String.eqb_eq in Hp as ->.
    destruct (dict_get "fileUrl" a) as [u|] eqn:Hua; [|done].
    destruct (dict_get "fileName" a) as [n|] eqn:Hna; [|done].
    exists d, a. simpl in *. done.
  - intros (data & api & -> & Hapi & Hp & Hu & Hn & Htu & Htn).
    assert (truthy (PDict api) = true) as Htr by (by destruct api).
    unfold check_status, rbind. cbn -[dict_get truthy].
    rewrite Hapi. cbn -[dict_get truthy]. rewrite Htr.
    cbn -[dict_get truthy]. rewrite Hp, Hu, Hn.
    cbn -[dict_get truthy]. by rewrite Htu, Htn.
Qed.

Lemma check_status_never http :
  never_completed http ->
  check_status http = Ok None \/ exists e, check_status http = Raise e.
Proof.
  intros Hnever.
  destruct (check_status http) as [[[url name]|]|e] eqn:E; [|by left|by right; eexists].
  apply check_status_completed in E. by destruct (Hnever url name).
Qed.

Lemma status_calls_call a tr : status_calls (StatusCall a :: tr) = a :: status_calls tr.
Proof. reflexivity. Qed.
Lemma status_calls_sleep s tr : status_calls (Sleep s :: tr) = status_calls tr.
Proof. reflexivity. Qed.
Lemma status_calls_log a tr : status_calls (LogAttemptError a :: tr) = status_calls tr.
Proof. reflexivity. Qed.
Lemma sleeps_call a tr : sleeps (StatusCall a :: tr) = sleeps tr.
Proof. reflexivity. Qed.
Lemma sleeps_sleep s tr : sleeps (Sleep s :: tr) = s :: sleeps tr.
Proof. reflexivity. Qed.
Lemma sleeps_log a tr : sleeps (LogAttemptError a :: tr) = sleeps tr.
Proof. reflexivity. Qed.

Create Rewrite HintDb trace.
#[local] Hint Rewrite status_calls_call status_calls_sleep status_calls_log
  sleeps_call sleeps_sleep sleeps_log : trace.

Lemma poll_loop_first endpoint n attempt k url name :
  (attempt + n = max_attempts)%nat ->
  (attempt <= k < max_attempts)%nat ->
  reports_completed (endpoint k) url name ->
  (forall j, (attempt <= j < k)%nat -> never_completed (endpoint j)) ->
  exists tr,
    poll_loop endpoint n attempt = (Some (url, name), tr)
    /\ status_calls tr = seq attempt (S (k - attempt))
    /\ sleeps tr = replicate (k - attempt) 2.
Proof.
  unfold max_attempts.
  revert attempt. induction n as [|n IH]; intros attempt Hsum Hk Hdone Hnot.
  - lia.
  - simpl. destruct (decide (attempt = k)) as [->|Hne].
    + apply check_status_completed in Hdone. rewrite Hdone.
      eexists. split; [done|]. by rewrite Nat.sub_diag.
    + destruct (IH (S attempt)) as (tr & Hrun & Hcalls & Hsleeps);
        [lia|lia|done|intros j Hj; apply Hnot; lia|].
      assert ((attempt <? 9)%nat = true) as Hlt by (apply Nat.ltb_lt; lia).
      replace (k - attempt)%nat with (S (k - S attempt)) by lia.
      destruct (check_status_never (endpoint attempt)) as [->|[e ->]];
        [apply Hnot; lia|..]; rewrite Hlt, Hrun; eexists; (split; [done|]);
        cbn [app]; autorewrite with trace; rewrite Hcalls, Hsleeps; done.
Qed.

Lemma poll_loop_never endpoint n attempt :
  (attempt + n = max_attempts)%nat ->
  (forall j, (attempt <= j < max_attempts)%nat -> never_completed (endpoint j)) ->
  exists tr,
    poll_loop endpoint n attempt = (None, tr)
    /\ status_calls tr = seq attempt n
    /\ sleeps tr = replicate (n - 1) 2.
Proof.
  unfold max_attempts.
  revert attempt. induction n as [|n IH]; intros attempt Hsum Hnot.
  - by eexists.
  - simpl.
    destruct (IH (S attempt)) as (tr & Hrun & Hcalls & Hsleeps);
      [lia|intros j Hj; apply Hnot; lia|].
    rewrite Nat.sub_0_r.
    destruct (Nat.ltb_spec attempt 9) as [Hlt|Hge].
    + assert (n = S (n - 1)) as Hn by lia.
      destruct (check_status_never (endpoint attempt)) as [->|[e ->]];
        [apply Hnot; lia|..]; rewrite Hrun; eexists; (split; [done|]);
        cbn [app]; autorewrite with trace; rewrite Hcalls, Hsleeps;
        (split; [done|]); by rewrite Hn at 2.
    + assert (n = 0%nat) as -> by lia. simpl in Hrun. injection Hrun as <-.
      destruct (check_status_never (endpoint attempt)) as [->|[e ->]];
        [apply Hnot; lia|..]; by eexists.
Qed.

(** C4. If the endpoint first reports the completed sentinel with a
    non-empty file URL and file name at status call number [k + 1] (at most
    the tenth), the resolver makes exactly the calls 0 to [k], sleeps two
    seconds after each call but the last, and returns that pair. If none of
    the ten calls meets such a response, it makes exactly ten calls with
    nine sleeps of two seconds between them and returns the pair of
    [None]s. A request that raises counts as a response that is not ready.
    The resolver returns in every case: its result type has no exception.
    [_get_detail_async] of [search.py] behaves the same. *)
Theorem two_phase_resolver_attempts (endpoint : nat -> result pyval) :
  (forall k url name,
     (k < max_attempts)%nat ->
     reports_completed (endpoint k) url name ->
     (forall j, (j < k)%nat -> never_completed (endpoint j)) ->
     exists tr,
       _get_final_download_url endpoint = (Some (url, name), tr)
       /\ _get_detail_async endpoint = (Some (url, name), tr)
       /\ status_calls tr = seq 0 (S k)
       /\ sleeps tr = replicate k 2)
  /\ ((forall j, (j < max_attempts)%nat -> never_completed (endpoint j)) ->
      exists tr,
        _get_final_download_url endpoint = (None, tr)
        /\ _get_detail_async endpoint = (None, tr)
        /\ status_calls tr = seq 0 max_attempts
        /\ sleeps tr = replicate (max_attempts - 1) 2).
Proof.
  split.
  - intros k url name Hk Hdone Hnot.
    destruct (poll_loop_first endpoint max_attempts 0 k url name)
      as (tr & Hrun & Hcalls & Hsleeps);
      [done|lia|done|intros j Hj; apply Hnot; lia|].
    rewrite Nat.sub_0_r in *. by exists tr.
  - intros Hnot.
    destruct (poll_loop_never endpoint max_attempts 0)
      as (tr & Hrun & Hcalls & Hsleeps);
      [done|intros j Hj; apply Hnot; lia|].
    by exists tr.
Qed.

Lemma sample_endpoint_never j : (j < 2)%nat -> never_completed (sample_endpoint j).
Proof.
  intros Hj url name (data & api & Heq & Hapi & Hp & _).
  destruct j as [|[|j]]; [| |lia]; simpl in Heq; [|done].
  injection Heq as <-. simpl in Hapi. injection Hapi as <-. done.
Qed.

Lemma stuck_endpoint_never j : never_completed (stuck_endpoint j).
Proof.
  intros url name (data & api & Heq & Hapi & Hp & _).
  injection Heq as <-. simpl in Hapi. injection Hapi as <-. done.
Qed.

Lemma two_phase_resolver_attempts_witness :
  (exists tr,
     _get_final_download_url sample_endpoint
     = (Some (PStr "https://cdn.example/a.m4a", PStr "a.m4a"), tr)
     /\ _get_detail_async sample_endpoint
        = (Some (PStr "https://cdn.example/a.m4a", PStr "a.m4a"), tr)
     /\ status_calls tr = [0; 1; 2]%nat
     /\ sleeps tr = [2; 2])
  /\ (exists tr,
        _get_final_download_url stuck_endpoint = (None, tr)
        /\ _get_detail_async stuck_endpoint = (None, tr)
        /\ status_calls tr = seq 0 10
        /\ sleeps tr = replicate 9 2).
Proof.
  split.
  - apply (proj1 (two_phase_resolver_attempts sample_endpoint) 2%nat).
    + unfold max_attempts. lia.
    + eexists _, _. simpl. repeat split; reflexivity.
    + apply sample_endpoint_never.
  - apply (proj2 (two_phase_resolver_attempts stuck_endpoint)).
    intros j _. apply stuck_endpoint_never.
Defined.

(** ** Best-audio selection *)

Section BestAudio.
Implicit Types (item : pyval) (items : list pyval).

Lemma get_lower_field item k :
  well_formed_item item = true ->
  In k ["type"; "mediaExtension"; "mediaQuality"] ->
  (v <- py_get item k (PStr "") ;; py_lower v)%result
  = Ok (lower (field_str item k))
  /\ (v <- py_get item k (PStr "") ;; py_upper v)%result
     = Ok (upper (field_str item k))
  /\ py_get item k (PStr "") = Ok (PStr (field_str item k)).
Proof.
  destruct item as [| | | | |d]; try done. simpl.
  intros [[Ht He]%andb_prop Hq]%andb_prop Hk.
  unfold str_or_absent in *.
  assert (match dict_get k d with
          | None | Some (PStr _) => true | Some _ => false end = true) as H.
  { destruct Hk as [<-|[<-|[<-|[]]]]; done. }
  destruct (dict_get k d) as [[| | |s| |]|]; done.
Qed.

Lemma audio_kind_truthy item :
  well_formed_item item = true -> audio_kind item = true -> truthy item = true.
Proof.
  destruct item as [| | | | |[|kv d]]; done.
Qed.

(** One turn of the first loop on a well-formed item. *)
Lemma first_pass_step item rest best :
  well_formed_item item = true ->
  first_pass (item :: rest) best
  = if candidate item then
      if is_128k item then Ok (Some item)
      else if no_best best && is_m4a item then first_pass rest (Some item)
      else first_pass rest best
    else first_pass rest best.
Proof.
  intros Hwf.
  destruct (get_lower_field item "type" Hwf) as (Ht & _ & _); [simpl; tauto|].
  destruct (get_lower_field item "mediaExtension" Hwf) as (_ & He & _);
    [simpl; tauto|].
  destruct (get_lower_field item "mediaQuality" Hwf) as (_ & _ & Hq);
    [simpl; tauto|].
  cbn [first_pass]. unfold rbind in *.
  destruct (py_get item "type" (PStr "")) as [tv|]; [|done].
  rewrite Ht.
  destruct (py_get item "mediaExtension" (PStr "")) as [ev|]; [|done].
  rewrite He, Hq.
  unfold candidate, audio_kind, type_audio, is_m4a, deny_listed, is_128k.
  cbn [py_lower py_in_strs existsb py_eq_str].
  destruct (String.eqb (lower (field_str item "type")) "audio"
            || String.eqb (upper (field_str item "mediaExtension")) "M4A");
    [|done].
  rewrite orb_false_r. cbn [andb].
  by destruct (contains "false" (lower (field_str item "mediaQuality"))
               || String.eqb (field_str item "mediaQuality") "48K").
Qed.

Lemma first_pass_run items best :
  Forall (fun item => well_formed_item item = true) items ->
  (forall b, best = Some b -> truthy b = true) ->
  first_pass items best
  = Ok (match find (fun x => candidate x && is_128k x) items with
        | Some x => Some x
        | None =>
            match best with
            | Some b => Some b
            | None => find (fun x => candidate x && is_m4a x) items
            end
        end).
Proof.
  intros Hwf. revert best.
  induction Hwf as [|item rest Hitem Hrest IH]; intros best Hbest.
  - simpl. by destruct best.
  - rewrite first_pass_step by done. cbn [find].
    destruct (candidate item) eqn:Hc; cbn [andb]; [|by apply IH].
    destruct (is_128k item) eqn:H128; [done|].
    destruct (is_m4a item) eqn:Hm4a.
    + destruct best as [b|]; simpl.
      * rewrite (Hbest b eq_refl). simpl. by apply IH.
      * rewrite IH; [done|]. intros b [= <-].
        apply audio_kind_truthy; [done|]. by apply andb_prop in Hc as [].
    + rewrite andb_false_r. by apply IH.
Qed.

Lemma second_pass_run items :
  Forall (fun item => well_formed_item item = true) items ->
  second_pass items = Ok (find type_audio items).
Proof.
  induction 1 as [|item rest Hitem Hrest IH]; [done|].
  destruct (get_lower_field item "type" Hitem) as (Ht & _ & _); [simpl; tauto|].
  cbn [second_pass find]. unfold rbind in *.
  destruct (py_get item "type" (PStr "")) as [tv|]; [|done].
  rewrite Ht. unfold type_audio.
  by destruct (String.eqb (lower (field_str item "type")) "audio").
Qed.

Lemma find_truthy (p : pyval -> bool) items x :
  Forall (fun item => well_formed_item item = true) items ->
  (forall y, p y = true -> audio_kind y = true) ->
  find p items = Some x -> truthy x = true.
Proof.
  intros Hwf Hp Hfind. apply find_some in Hfind as [Hin Hpx].
  apply audio_kind_truthy; [|auto].
  rewrite Forall_forall in Hwf. by apply Hwf, list_elem_of_In.
Qed.

(** The whole selection on well-formed items. *)
Lemma best_audio_run items :
  Forall (fun item => well_formed_item item = true) items ->
  best_audio items
  = Ok (match find (fun x => candidate x && is_128k x) items with
        | Some x => Some x
        | None =>
            match find (fun x => candidate x && is_m4a x) items with
            | Some x => Some x
            | None => find type_audio items
            end
        end).
Proof.
  intros Hwf. unfold best_audio.
  rewrite first_pass_run by done. cbn [rbind].
  assert (forall (p : pyval -> bool) x,
            (forall y, p y = true -> audio_kind y = true) ->
            find p items = Some x -> no_best (Some x) = false) as Hsel.
  { intros p x Hp Hx. simpl. by rewrite (find_truthy p items x). }
  assert (forall y q, candidate y && q = true -> audio_kind y = true) as Hcand.
  { intros y q Hy. apply andb_prop in Hy as [Hy _].
    by apply andb_prop in Hy as []. }
  destruct (find (fun x => candidate x && is_128k x) items) as [x|] eqn:H128.
  { assert (no_best (Some x) = false) as Hnb.
    { apply (Hsel (fun x => candidate x && is_128k x)); [|done].
      intros y. apply Hcand. }
    rewrite Hnb. cbn [rbind]. by rewrite Hnb. }
  destruct (find (fun x => candidate x && is_m4a x) items) as [x|] eqn:Hm4a.
  { assert (no_best (Some x) = false) as Hnb.
    { apply (Hsel (fun x => candidate x && is_m4a x)); [|done].
      intros y. apply Hcand. }
    rewrite Hnb. cbn [rbind]. by rewrite Hnb. }
  cbn [no_best]. rewrite second_pass_run by done. cbn [rbind].
  destruct (find type_audio items) as [x|] eqn:Hty; [|done].
  assert (no_best (Some x) = false) as Hnb.
  { apply (Hsel type_audio); [|done].
    intros y Hy. unfold audio_kind. by rewrite Hy. }
  by rewrite Hnb.
Qed.
End BestAudio.

(** C5, as the code has it. On well-formed media items: whatever is chosen
    is an item of the list of kind audio; the first candidate labelled 128K
    is chosen whenever there is one; failing that, the first candidate in
    the M4A container; failing that too, the first item of type audio,
    which is stated here for the case that it is not on the deny-list; and
    without any item of kind audio nothing is chosen. The choice is a
    function of the ordered list. *)
Theorem best_audio_selection (items : list pyval) :
  Forall (fun item => well_formed_item item = true) items ->
  (forall x, best_audio items = Ok (Some x) ->
             In x items /\ audio_kind x = true)
  /\ (forall x,
        find (fun y => candidate y && is_128k y) items = Some x ->
        best_audio items = Ok (Some x))
  /\ (forall x,
        find (fun y => candidate y && is_128k y) items = None ->
        find (fun y => candidate y && is_m4a y) items = Some x ->
        best_audio items = Ok (Some x))
  /\ (forall x,
        find (fun y => candidate y && is_128k y) items = None ->
        find (fun y => candidate y && is_m4a y) items = None ->
        find type_audio items = Some x ->
        deny_listed x = false ->
        best_audio items = Ok (Some x))
  /\ (find audio_kind items = None -> best_audio items = Ok None)
  /\ (forall items', items' = items -> best_audio items' = best_audio items).
Proof.
  intros Hwf. pose proof (best_audio_run items Hwf) as Hrun.
  repeat split.
  - rewrite Hrun in H. injection H as H.
    destruct (find (fun y => candidate y && is_128k y) items) as [y|] eqn:H1;
      [injection H as ->; by apply find_some in H1 as []|].
    destruct (find (fun y => candidate y && is_m4a y) items) as [y|] eqn:H2;
      [injection H as ->; by apply find_some in H2 as []|].
    by apply find_some in H as [].
  - rewrite Hrun in H. injection H as H.
    destruct (find (fun y => candidate y && is_128k y) items) as [y|] eqn:H1.
    { injection H as ->. apply find_some in H1 as [_ Hy].
      apply andb_prop in Hy as [Hy _]. by apply andb_prop in Hy as []. }
    destruct (find (fun y => candidate y && is_m4a y) items) as [y|] eqn:H2.
    { injection H as ->. apply find_some in H2 as [_ Hy].
      apply andb_prop in Hy as [Hy _]. by apply andb_prop in Hy as []. }
    apply find_some in H as [_ Hy]. unfold audio_kind. by rewrite Hy.
  - intros x H1. by rewrite Hrun, H1.
  - intros x H1 H2. by rewrite Hrun, H1, H2.
  - intros x H1 H2 H3 _. by rewrite Hrun, H1, H2, H3.
  - intros Hnone. rewrite Hrun.
    assert (forall (p : pyval -> bool),
              (forall y, p y = true -> audio_kind y = true) ->
              find p items = None) as Hno.
    { intros p Hp. destruct (find p items) as [y|] eqn:E; [|done].
      apply find_some in E as [Hin Hy].
      pose proof (Hp y Hy) as Ha.
      by rewrite (find_none _ _ Hnone y Hin) in Ha. }
    rewrite !Hno; [done|..].
    + intros y Hy. unfold audio_kind. by rewrite Hy.
    + intros y Hy. apply andb_prop in Hy as [Hy _]. by apply andb_prop in Hy as [].
    + intros y Hy. apply andb_prop in Hy as [Hy _]. by apply andb_prop in Hy as [].
  - by intros items' ->.
Qed.

Lemma best_audio_selection_witness :
  best_audio [media_item "video" "mp4" "720p"; media_item "audio" "m4a" "48K";
              media_item "audio" "m4a" "128K"]
  = Ok (Some (media_item "audio" "m4a" "128K")).
Proof.
  refine (proj1 (proj2 (best_audio_selection _ _)) _ _).
  - repeat constructor.
  - reflexivity.
Defined.

(** C5 as stated fails twice. An item on the deny-list is chosen when it is
    the only item of type audio: the second loop does not consult the
    deny-list. And with two candidates, neither labelled 128K, the second
    one is chosen when it is the one in the M4A container. *)
Lemma best_audio_picks_denied_label :
  (best_audio [media_item "audio" "m4a" "48K"]
   = Ok (Some (media_item "audio" "m4a" "48K"))
   /\ deny_listed (media_item "audio" "m4a" "48K") = true)
  /\ (best_audio [media_item "audio" "opus" "160K"; media_item "audio" "m4a" "64K"]
      = Ok (Some (media_item "audio" "m4a" "64K"))
      /\ candidate (media_item "audio" "opus" "160K") = true
      /\ is_128k (media_item "audio" "m4a" "64K") = false).
Proof. vm_compute. done. Qed.

(** ** What the resolvers cache *)

Lemma yt_format_of_ok item fmt :
  yt_format_of item = Ok (Some fmt) -> yt_format_ok fmt.
Proof.
  unfold yt_format_of, rbind.
  destruct item as [| | | | |d]; try done. cbn -[dict_get contains lower].
  destruct (default (PStr "") (dict_get "mediaExtension" d))
    as [| | |es| |] eqn:Hext; try done.
  cbn -[dict_get contains lower].
  set (quality := default (PStr "") (dict_get "mediaQuality" d)).
  destruct (String.eqb (lower es) "m4a") eqn:Hm4a.
  - destruct quality as [| | |q| |] eqn:Hq; try done.
    cbn -[dict_get contains lower].
    destruct (contains "false" (lower q)
              || (String.eqb q "48K" || (String.eqb q "128K" || false)))
      eqn:Hden; [done|].
    rewrite orb_true_r. cbn [andb].
    destruct (truthy (default PNone (dict_get "mediaUrl" d))) eqn:Hurl;
      [|done].
    cbn -[dict_get contains lower].
    destruct (dict_get "mediaExtension" d) as [ev|] eqn:He; [|done].
    simpl in Hext. subst ev.
    destruct (dict_get "mediaUrl" d) as [u|] eqn:Hu; [|done].
    intros [= <-]. unfold yt_format_ok.
    cbn -[contains lower]. apply String.eqb_eq in Hm4a.
    split; [done|]. split; [right; by rewrite Hm4a|].
    intros _. done.
  - cbn [orb]. rewrite orb_false_r.
    destruct (String.eqb (lower es) "mp4") eqn:Hmp4; [|done].
    cbn -[dict_get contains lower].
    destruct (truthy (default PNone (dict_get "mediaUrl" d))) eqn:Hurl;
      [|done].
    cbn -[dict_get contains lower].
    destruct (dict_get "mediaExtension" d) as [ev|] eqn:He; [|done].
    simpl in Hext. subst ev.
    destruct (dict_get "mediaUrl" d) as [u|] eqn:Hu; [|done].
    intros [= <-]. unfold yt_format_ok.
    cbn -[contains lower]. apply String.eqb_eq in Hmp4.
    split; [done|]. split; [left; by rewrite Hmp4|].
    intros [= Heq]. rewrite Hmp4 in Heq. done.
Qed.

Lemma yt_filter_formats_ok media_items acc formats :
  Forall yt_format_ok acc ->
  yt_filter_formats media_items acc = Ok formats ->
  Forall yt_format_ok formats.
Proof.
  revert acc. induction media_items as [|item rest IH]; intros acc Hacc; simpl.
  - by intros [= <-].
  - unfold rbind. destruct (yt_format_of item) as [[fmt|]|e] eqn:E; [| |done].
    + apply IH. apply Forall_app. split; [done|].
      apply Forall_singleton. by apply yt_format_of_ok in E.
    + by apply IH.
Qed.

(** Peels the first [rbind] of a hypothesis that a computation returned. *)
Ltac step_bind H :=
  match type of H with
  | rbind ?m _ = Ok _ =>
      let E := fresh "E" in
      destruct m eqn:E; cbn [rbind] in H; [|discriminate H]
  end.

Lemma py_clean_filename_fixed v title :
  py_clean_filename v = Ok title -> clean_filename title = title.
Proof.
  destruct v; try done. intros [= <-]. apply clean_filename_idem.
Qed.

Lemma youtube_resolve_some response timestamp session_id r :
  youtube_resolve response timestamp session_id = Ok (Some r) ->
  exists formats title,
    cache_data r = PDict [("yt_formats", PList formats);
                          ("yt_title", PStr title);
                          ("yt_timestamp", PStr timestamp)]
    /\ formats <> []
    /\ Forall yt_format_ok formats
    /\ clean_filename title = title
    /\ buttons r = imap (fun i _ => yt_token (S i) timestamp session_id) formats.
Proof.
  intros H. unfold youtube_resolve in H.
  step_bind H. step_bind H. destruct a0; [done|].
  do 6 step_bind H.
  destruct a5 as [|fmt formats]; [done|]. injection H as <-.
  exists (fmt :: formats), a2. simpl.
  split; [done|]. split; [done|]. split; [|split; [|done]].
  - by eapply yt_filter_formats_ok.
  - by eapply py_clean_filename_fixed.
Qed.

Lemma tiktok_resolve_some response timestamp session_id r :
  tiktok_resolve response timestamp session_id = Ok (Some r) ->
  exists d title,
    response = PDict d
    /\ cache_data r = PDict [("tt_title", PStr title);
                             ("tt_links", default (PList []) (dict_get "links" d));
                             ("tt_timestamp", PStr timestamp)]
    /\ clean_filename title = title.
Proof.
  intros H. unfold tiktok_resolve in H.
  step_bind H. destruct (negb (py_eq_str a "ok")); [done|].
  do 5 step_bind H. injection H as <-.
  destruct response as [| | | | |d]; try done.
  exists d, a1. simpl in *. injection E2 as <-.
  split; [done|]. split; [done|]. by eapply py_clean_filename_fixed.
Qed.

Lemma instagram_resolve_some unquote response hrefs caption timestamp
    session_id r :
  instagram_resolve unquote response hrefs caption timestamp session_id
  = Ok (Some r) ->
  exists title url direct_url,
    cache_data r = PDict [("insta_title", PStr title);
                          ("insta_url", PStr url);
                          ("insta_direct_url", PStr direct_url);
                          ("insta_timestamp", PStr timestamp)]
    /\ contains media_marker url = true
    /\ clean_filename title = title
    /\ buttons r = [insta_token "mp4" timestamp session_id;
                    insta_token "mp3" timestamp session_id].
Proof.
  intros H. unfold instagram_resolve in H.
  step_bind H. destruct (py_eq_str a "error"); [done|].
  step_bind H.
  destruct (parse_media_items unquote hrefs) as [|[url direct] rest] eqn:Hp;
    [done|].
  step_bind H. injection H as <-.
  exists a1, url, direct. simpl.
  split; [done|]. split; [|split; [|done]].
  - unfold parse_media_items in Hp.
    destruct (filter (fun href => contains media_marker href = true) hrefs)
      as [|href more] eqn:Hf; [done|].
    injection Hp as <- _ _.
    assert (href ∈ filter (fun href => contains media_marker href = true) hrefs)
      as Hin by (rewrite Hf; left).
    by apply list_elem_of_filter in Hin as [].
  - by eapply py_clean_filename_fixed.
Qed.

Lemma contains_nonempty p s :
  p <> EmptyString -> contains p s = true -> s <> EmptyString.
Proof. intros Hp Hc ->. by destruct p. Qed.

(** What [resolve_and_store] leaves in the cache. *)
Lemma resolve_and_store_run r session_id w :
  match r with
  | Ok (Some res) =>
      exists t, dict_get session_id (cache (resolve_and_store r session_id w).2)
                = Some {| data := cache_data res; expires_at := t |}
  | _ => (resolve_and_store r session_id w).2 = w
  end.
Proof.
  destruct r as [[res|]|e]; try done.
  simpl. unfold bind. rewrite store_run. simpl.
  eexists. apply dict_get_set_eq.
Qed.

Lemma youtube_download_entry http timestamp session_id w :
  (youtube_download http timestamp session_id w).2 = w
  \/ exists formats title t,
       dict_get session_id
         (cache (youtube_download http timestamp session_id w).2)
       = Some {| data := PDict [("yt_formats", PList formats);
                                ("yt_title", PStr title);
                                ("yt_timestamp", PStr timestamp)];
                 expires_at := t |}
       /\ formats <> []
       /\ Forall yt_format_ok formats
       /\ clean_filename title = title.
Proof.
  unfold youtube_download.
  destruct http as [response|e]; cbn [rbind]; [|by left].
  pose proof (resolve_and_store_run
                (youtube_resolve response timestamp session_id) session_id w)
    as Hrun.
  destruct (youtube_resolve response timestamp session_id) as [[r|]|e] eqn:E;
    [|by left..].
  apply youtube_resolve_some in E as (formats & title & Hcd & Hne & Hok & Ht & _).
  destruct Hrun as [t Hget]. rewrite Hcd in Hget.
  right. by exists formats, title, t.
Qed.

Lemma tiktok_download_entry http timestamp session_id w :
  (tiktok_download http timestamp session_id w).2 = w
  \/ exists d title t,
       http = Ok (PDict d)
       /\ dict_get session_id
            (cache (tiktok_download http timestamp session_id w).2)
          = Some {| data := PDict [("tt_title", PStr title);
                                   ("tt_links",
                                    default (PList []) (dict_get "links" d));
                                   ("tt_timestamp", PStr timestamp)];
                    expires_at := t |}
       /\ clean_filename title = title.
Proof.
  unfold tiktok_download.
  destruct http as [response|e]; cbn [rbind]; [|by left].
  pose proof (resolve_and_store_run
                (tiktok_resolve response timestamp session_id) session_id w)
    as Hrun.
  destruct (tiktok_resolve response timestamp session_id) as [[r|]|e] eqn:E;
    [|by left..].
  apply tiktok_resolve_some in E as (d & title & -> & Hcd & Ht).
  destruct Hrun as [t Hget]. rewrite Hcd in Hget.
  right. by exists d, title, t.
Qed.

Lemma instagram_download_entry unquote http hrefs caption timestamp
    session_id w :
  (instagram_download unquote http hrefs caption timestamp session_id w).2 = w
  \/ exists title url direct_url t,
       dict_get session_id
         (cache (instagram_download unquote http hrefs caption timestamp
                   session_id w).2)
       = Some {| data := PDict [("insta_title", PStr title);
                                ("insta_url", PStr url);
                                ("insta_direct_url", PStr direct_url);
                                ("insta_timestamp", PStr timestamp)];
                 expires_at := t |}
       /\ contains media_marker url = true
       /\ clean_filename title = title.
Proof.
  unfold instagram_download.
  destruct http as [response|e]; cbn [rbind]; [|by left].
  pose proof (resolve_and_store_run
                (instagram_resolve unquote response hrefs caption timestamp
                   session_id) session_id w) as Hrun.
  destruct (instagram_resolve unquote response hrefs caption timestamp
              session_id) as [[r|]|e] eqn:E; [|by left..].
  apply instagram_resolve_some in E as (title & url & direct & Hcd & Hc & Ht & _).
  destruct Hrun as [t Hget]. rewrite Hcd in Hget.
  right. by exists title, url, direct, t.
Qed.

(** C6, as the code has it. A resolver either caches nothing (the world is
    as before) or stores one entry under the session id. In the entry of
    the YouTube resolver every format has a non-empty URL, is an MP4 or an
    M4A, and no M4A format carries a label of the deny-list; in the entry
    of the Instagram resolver the source URL contains the media marker and
    so is not empty; the entry of the TikTok resolver holds the links of the
    response as they were received. *)
Theorem resolvers_cache_contents :
  (forall http timestamp session_id w,
     (youtube_download http timestamp session_id w).2 = w
     \/ exists formats title t,
          dict_get session_id
            (cache (youtube_download http timestamp session_id w).2)
          = Some {| data := PDict [("yt_formats", PList formats);
                                   ("yt_title", PStr title);
                                   ("yt_timestamp", PStr timestamp)];
                    expires_at := t |}
          /\ formats <> []
          /\ Forall yt_format_ok formats)
  /\ (forall unquote http hrefs caption timestamp session_id w,
        (instagram_download unquote http hrefs caption timestamp
           session_id w).2 = w
        \/ exists title url direct_url t,
             dict_get session_id
               (cache (instagram_download unquote http hrefs caption
                         timestamp session_id w).2)
             = Some {| data := PDict [("insta_title", PStr title);
                                      ("insta_url", PStr url);
                                      ("insta_direct_url", PStr direct_url);
                                      ("insta_timestamp", PStr timestamp)];
                       expires_at := t |}
             /\ contains media_marker url = true
             /\ url <> EmptyString)
  /\ (forall http timestamp session_id w,
        (tiktok_download http timestamp session_id w).2 = w
        \/ exists d title t,
             http = Ok (PDict d)
             /\ dict_get session_id
                  (cache (tiktok_download http timestamp session_id w).2)
                = Some {| data := PDict [("tt_title", PStr title);
                                         ("tt_links",
                                          default (PList [])
                                                  (dict_get "links" d));
                                         ("tt_timestamp", PStr timestamp)];
                          expires_at := t |}).
Proof.
  split; [|split].
  - intros http timestamp session_id w.
    destruct (youtube_download_entry http timestamp session_id w)
      as [?|(formats & title & t & ? & ? & ? & _)]; [by left|].
    right. by exists formats, title, t.
  - intros unquote http hrefs caption timestamp session_id w.
    destruct (instagram_download_entry unquote http hrefs caption timestamp
                session_id w)
      as [?|(title & url & direct & t & ? & Hc & _)]; [by left|].
    right. exists title, url, direct, t. split; [done|]. split; [done|].
    by apply (contains_nonempty media_marker).
  - intros http timestamp session_id w.
    destruct (tiktok_download_entry http timestamp session_id w)
      as [?|(d & title & t & ? & ? & _)]; [by left|].
    right. by exists d, title, t.
Qed.

(** C6 as stated fails. The TikTok resolver caches a link whose URL is
    empty and offers a button for it; and the YouTube filter keeps an MP4
    item that carries the label 48K. *)
Lemma tiktok_caches_empty_url :
  (let run := tiktok_download (Ok tt_response_empty_url) "20240101000000"
                "abc123" (init_world clock_seconds) in
   run.1 = ["tt_mp4_1_20240101000000_abc123"]
   /\ exists links link t,
        dict_get "abc123" (cache run.2)
        = Some {| data := PDict [("tt_title", PStr "clip");
                                 ("tt_links", PList links);
                                 ("tt_timestamp", PStr "20240101000000")];
                  expires_at := t |}
        /\ In link links
        /\ fmt_field link "a" = PStr EmptyString)
  /\ exists fmt,
       yt_format_of (media_item "video" "mp4" "48K") = Ok (Some fmt)
       /\ fmt_field fmt "quality" = PStr "48K".
Proof.
  split.
  - split; [by vm_compute|].
    eexists _, _, _. split; [by vm_compute|]. split; [by left|done].
  - eexists. split; [by vm_compute|done].
Qed.

(** C10. [clean_filename] is idempotent, its result has at most 100
    characters, and none of the nine characters the pattern deletes occurs
    in it; and the title of every entry a resolver caches is a fixed point
    of [clean_filename]. *)
Theorem clean_filename_idempotent_bounded :
  (forall s,
     clean_filename (clean_filename s) = clean_filename s
     /\ (String.length (clean_filename s) <= 100)%nat
     /\ (forall c, In c hostile_chars -> ~ In c (str_chars (clean_filename s))))
  /\ (forall http timestamp session_id w,
        (youtube_download http timestamp session_id w).2 = w
        \/ exists e title,
             dict_get session_id
               (cache (youtube_download http timestamp session_id w).2)
             = Some e
             /\ fmt_field (data e) "yt_title" = PStr title
             /\ clean_filename title = title)
  /\ (forall http timestamp session_id w,
        (tiktok_download http timestamp session_id w).2 = w
        \/ exists e title,
             dict_get session_id
               (cache (tiktok_download http timestamp session_id w).2)
             = Some e
             /\ fmt_field (data e) "tt_title" = PStr title
             /\ clean_filename title = title)
  /\ (forall unquote http hrefs caption timestamp session_id w,
        (instagram_download unquote http hrefs caption timestamp
           session_id w).2 = w
        \/ exists e title,
             dict_get session_id
               (cache (instagram_download unquote http hrefs caption
                         timestamp session_id w).2)
             = Some e
             /\ fmt_field (data e) "insta_title" = PStr title
             /\ clean_filename title = title).
Proof.
  split; [|split; [|split]].
  - intros s. split; [|split].
    + apply clean_filename_idem.
    + apply str_take_length.
    + intros c Hc Hin.
      pose proof (str_all_chars _ _ _ (clean_filename_all s) Hin) as Hok.
      simpl in Hok. apply negb_true_iff in Hok.
      unfold is_hostile in Hok.
      assert (existsb (Ascii.eqb c) hostile_chars = true) as Hex; [|congruence].
      apply existsb_exists. exists c. split; [done|apply Ascii.eqb_refl].
  - intros http timestamp session_id w.
    destruct (youtube_download_entry http timestamp session_id w)
      as [?|(formats & title & t & Hget & _ & _ & Ht)]; [by left|].
    right. eexists _, title. by rewrite Hget.
  - intros http timestamp session_id w.
    destruct (tiktok_download_entry http timestamp session_id w)
      as [?|(d & title & t & _ & Hget & Ht)]; [by left|].
    right. eexists _, title. by rewrite Hget.
  - intros unquote http hrefs caption timestamp session_id w.
    destruct (instagram_download_entry unquote http hrefs caption timestamp
                session_id w)
      as [?|(title & url & direct & t & Hget & _ & Ht)]; [by left|].
    right. eexists _, title. by rewrite Hget.
Qed.

(** ** The local file system *)

(** *** Places in the tree *)

Lemma node_at_cons c rest d :
  node_at (c :: rest) d
  = match d !! c with
    | Some (Dir d') => node_at rest d'
    | Some (File content) =>
        match rest with [] => Some (File content) | _ => None end
    | None => None
    end.
Proof. reflexivity. Qed.

Lemma file_at_cons c rest d :
  file_at (c :: rest) d
  = match d !! c with
    | Some (Dir d') => file_at rest d'
    | Some (File content) =>
        match rest with [] => Some content | _ => None end
    | None => None
    end.
Proof.
  unfold file_at. rewrite node_at_cons.
  destruct (d !! c) as [[content|d']|]; [|done..]. by destruct rest.
Qed.

Lemma is_dir_cons c rest d :
  is_dir d (c :: rest)
  = match d !! c with
    | Some (Dir d') => is_dir d' rest
    | _ => false
    end.
Proof.
  unfold is_dir. rewrite node_at_cons.
  destruct (d !! c) as [[content|d']|]; [|done..]. by destruct rest.
Qed.

Lemma put_cons c rest new d :
  put (c :: rest) new d
  = match rest with
    | [] => <[c := new]> d
    | _ => match d !! c with
           | Some (Dir d') => <[c := Dir (put rest new d')]> d
           | _ => d
           end
    end.
Proof. reflexivity. Qed.

Lemma put_cons_ne c rest new d :
  rest <> [] ->
  put (c :: rest) new d
  = match d !! c with
    | Some (Dir d') => <[c := Dir (put rest new d')]> d
    | _ => d
    end.
Proof. by destruct rest. Qed.

Lemma remove_cons c rest d :
  remove (c :: rest) d
  = match rest with
    | [] => delete c d
    | _ => match d !! c with
           | Some (Dir d') => <[c := Dir (remove rest d')]> d
           | _ => d
           end
    end.
Proof. reflexivity. Qed.

(** Nothing lies below what is not a directory. *)
Lemma file_at_below_none cp rest d :
  is_dir d cp = false -> rest <> [] -> file_at (cp ++ rest) d = None.
Proof.
  revert d. induction cp as [|c cp IH]; intros d Hdir Hrest; [done|].
  cbn [app]. rewrite file_at_cons. rewrite is_dir_cons in Hdir.
  destruct (d !! c) as [[content|d']|]; [|by apply IH|done].
  destruct cp; [by destruct rest|done].
Qed.

Lemma is_dir_below_none cp rest d :
  is_dir d cp = false -> is_dir d (cp ++ rest) = false.
Proof.
  revert d. induction cp as [|c cp IH]; intros d Hdir; [done|].
  cbn [app]. rewrite is_dir_cons in *.
  destruct (d !! c) as [[content|d']|]; [done|by apply IH|done].
Qed.

(** A directory is no regular file. *)
Lemma is_dir_no_file cp d : is_dir d cp = true -> file_at cp d = None.
Proof. unfold is_dir, file_at. by destruct (node_at cp d) as [[]|]. Qed.

(** *** Writing a regular file *)

(** What is put at a place in a directory that exists is there. *)
Lemma node_at_put_eq cp c new d :
  is_dir d cp = true ->
  node_at (cp ++ [c]) (put (cp ++ [c]) new d) = Some new.
Proof.
  revert d. induction cp as [|a cp IH]; intros d Hdir.
  - cbn [app]. rewrite put_cons, node_at_cons, lookup_insert_eq.
    by destruct new.
  - cbn [app]. rewrite put_cons_ne by (by destruct cp).
    rewrite is_dir_cons in Hdir.
    destruct (d !! a) as [[content|d']|] eqn:Ha; [done| |done].
    rewrite node_at_cons, lookup_insert_eq. by apply IH.
Qed.

Lemma removelast_snoc {A} (l : list A) (x : A) : removelast (l ++ [x]) = l.
Proof. apply removelast_last. Qed.

Lemma snoc_removelast {A} (l : list A) :
  l <> [] -> exists x, l = removelast l ++ [x].
Proof.
  intros Hl. destruct (exists_last Hl) as (l' & x & ->).
  exists x. by rewrite removelast_snoc.
Qed.

(** Writing a regular file where no directory stands changes no other
    regular file and makes no directory. *)
Lemma file_at_put_file cp cp' content d :
  cp' <> cp -> is_dir d cp = false ->
  file_at cp' (put cp (File content) d) = file_at cp' d.
Proof.
  revert cp' d. induction cp as [|c rest IH]; intros cp' d Hne Hdir; [done|].
  rewrite put_cons. destruct rest as [|c2 rest2].
  - destruct cp' as [|c' r']; [done|]. rewrite !file_at_cons.
    destruct (decide (c' = c)) as [->|Hc]; [|by rewrite lookup_insert_ne].
    rewrite lookup_insert_eq. rewrite is_dir_cons in Hdir.
    destruct r' as [|x r']; [done|].
    by destruct (d !! c) as [[?|?]|].
  - rewrite is_dir_cons in Hdir.
    destruct (d !! c) as [[?|d']|] eqn:Hc; [done| |done].
    destruct cp' as [|c' r']; [done|]. rewrite !file_at_cons.
    destruct (decide (c' = c)) as [->|Hc']; [|by rewrite lookup_insert_ne].
    rewrite lookup_insert_eq, Hc. apply IH; [congruence|done].
Qed.

Lemma is_dir_put_file cp cp' content d :
  is_dir d cp = false ->
  is_dir (put cp (File content) d) cp' = is_dir d cp'.
Proof.
  revert cp' d. induction cp as [|c rest IH]; intros cp' d Hdir; [done|].
  rewrite put_cons. destruct rest as [|c2 rest2].
  - destruct cp' as [|c' r']; [done|]. rewrite !is_dir_cons.
    destruct (decide (c' = c)) as [->|Hc]; [|by rewrite lookup_insert_ne].
    rewrite lookup_insert_eq. rewrite is_dir_cons in Hdir.
    destruct (d !! c) as [[?|d']|]; [done| |done].
    symmetry. by apply (is_dir_below_none [] r').
  - rewrite is_dir_cons in Hdir.
    destruct (d !! c) as [[?|d']|] eqn:Hc; [done| |done].
    destruct cp' as [|c' r']; [done|]. rewrite !is_dir_cons.
    destruct (decide (c' = c)) as [->|Hc']; [|by rewrite lookup_insert_ne].
    rewrite lookup_insert_eq, Hc. by apply IH.
Qed.

(** *** Making a directory *)

(** An empty directory put at a place with nothing below it changes no
    regular file. *)
Lemma file_at_put_dir cp cp' d :
  node_at cp d = None ->
  file_at cp' (put cp (Dir ∅) d) = file_at cp' d.
Proof.
  revert cp' d. induction cp as [|c rest IH]; intros cp' d Hnone; [done|].
  rewrite put_cons. rewrite node_at_cons in Hnone. destruct rest as [|c2 rest2].
  - destruct cp' as [|c' r']; [done|]. rewrite !file_at_cons.
    destruct (decide (c' = c)) as [->|Hc]; [|by rewrite lookup_insert_ne].
    rewrite lookup_insert_eq.
    destruct (d !! c) as [[?|?]|]; [done..|].
    by destruct r'.
  - destruct (d !! c) as [[?|d']|] eqn:Hc; [done| |done].
    destruct cp' as [|c' r']; [done|]. rewrite !file_at_cons.
    destruct (decide (c' = c)) as [->|Hc']; [|by rewrite lookup_insert_ne].
    rewrite lookup_insert_eq, Hc. by apply IH.
Qed.

Lemma is_dir_put_dir cp cp' d :
  node_at cp d = None -> is_dir d cp' = true ->
  is_dir (put cp (Dir ∅) d) cp' = true.
Proof.
  revert cp' d. induction cp as [|c rest IH]; intros cp' d Hnone Hdir; [done|].
  rewrite put_cons. rewrite node_at_cons in Hnone. destruct rest as [|c2 rest2].
  - destruct cp' as [|c' r']; [done|]. rewrite is_dir_cons in *.
    destruct (decide (c' = c)) as [->|Hc]; [|by rewrite lookup_insert_ne].
    by destruct (d !! c) as [[?|?]|].
  - destruct (d !! c) as [[?|d']|] eqn:Hc; [done| |done].
    destruct cp' as [|c' r']; [done|]. rewrite is_dir_cons in *.
    destruct (decide (c' = c)) as [->|Hc']; [|by rewrite lookup_insert_ne].
    rewrite lookup_insert_eq. rewrite Hc in Hdir. by apply IH.
Qed.

Lemma is_dir_put_eq cp c d :
  is_dir d cp = true -> is_dir (put (cp ++ [c]) (Dir ∅) d) (cp ++ [c]) = true.
Proof. intros Hdir. unfold is_dir. by rewrite node_at_put_eq. Qed.

(** *** Removing a directory *)

Lemma file_at_remove_below cp rest d :
  cp <> [] -> file_at (cp ++ rest) (remove cp d) = None.
Proof.
  revert d. induction cp as [|c cp IH]; intros d Hne; [done|].
  cbn [app]. rewrite remove_cons, file_at_cons. destruct cp as [|c2 cp2].
  - by rewrite lookup_delete_eq.
  - destruct (d !! c) as [[?|d']|] eqn:Hc.
    + by rewrite Hc.
    + rewrite lookup_insert_eq. by apply IH.
    + by rewrite Hc.
Qed.

Lemma file_at_remove_other cp cp' d :
  ~ cp `prefix_of` cp' -> file_at cp' (remove cp d) = file_at cp' d.
Proof.
  revert cp' d. induction cp as [|c rest IH]; intros cp' d Hpre; [done|].
  rewrite remove_cons. destruct rest as [|c2 rest2].
  - destruct cp' as [|c' r']; [done|]. rewrite !file_at_cons.
    destruct (decide (c' = c)) as [->|Hc]; [|by rewrite lookup_delete_ne].
    destruct Hpre. by exists r'.
  - destruct (d !! c) as [[?|d']|] eqn:Hc; [done| |done].
    destruct cp' as [|c' r']; [done|]. rewrite !file_at_cons.
    destruct (decide (c' = c)) as [->|Hc']; [|by rewrite lookup_insert_ne].
    rewrite lookup_insert_eq, Hc. apply IH.
    intros [k ->]. apply Hpre. by exists k.
Qed.

(** Emptying a directory. *)
Lemma file_at_clear_below cp rest d :
  cp <> [] -> file_at (cp ++ rest) (put cp (Dir ∅) d) = None.
Proof.
  revert d. induction cp as [|c cp IH]; intros d Hne; [done|].
  cbn [app]. rewrite put_cons, file_at_cons. destruct cp as [|c2 cp2].
  - rewrite lookup_insert_eq. by destruct rest.
  - destruct (d !! c) as [[?|d']|] eqn:Hc.
    + by rewrite Hc.
    + rewrite lookup_insert_eq. by apply IH.
    + by rewrite Hc.
Qed.

Lemma file_at_clear_other cp cp' d :
  ~ cp `prefix_of` cp' -> file_at cp' (put cp (Dir ∅) d) = file_at cp' d.
Proof.
  revert cp' d. induction cp as [|c rest IH]; intros cp' d Hpre; [done|].
  rewrite put_cons. destruct rest as [|c2 rest2].
  - destruct cp' as [|c' r']; [done|]. rewrite !file_at_cons.
    destruct (decide (c' = c)) as [->|Hc]; [|by rewrite lookup_insert_ne].
    destruct Hpre. by exists r'.
  - destruct (d !! c) as [[?|d']|] eqn:Hc; [done| |done].
    destruct cp' as [|c' r']; [done|]. rewrite !file_at_cons.
    destruct (decide (c' = c)) as [->|Hc']; [|by rewrite lookup_insert_ne].
    rewrite lookup_insert_eq, Hc. apply IH.
    intros [k ->]. apply Hpre. by exists k.
Qed.

(** *** Walking a path *)

(** The walk looks at nothing but which places are directories. *)
Lemma walk_ext d d' cur comps :
  (forall cp, is_dir d cp = is_dir d' cp) ->
  walk d cur comps = walk d' cur comps.
Proof.
  intros Hsame. revert cur. induction comps as [|c rest IH]; intros cur; [done|].
  cbn [walk]. rewrite Hsame. by rewrite IH.
Qed.

Lemma plain_name_step cur c : plain_name c = true -> step cur c = cur ++ [c].
Proof.
  unfold plain_name, step. intros [_ Hc]%andb_prop.
  apply negb_true_iff in Hc.
  apply orb_false_elim in Hc as [[H1 H2]%orb_false_elim H3].
  by rewrite H1, H2, H3.
Qed.

(** Along plain names the walk goes straight down. *)
Lemma walk_plain d cur comps cp :
  Forall (fun c => plain_name c = true) comps ->
  walk d cur comps = Some cp -> cp = cur ++ comps.
Proof.
  intros Hplain. revert cur.
  induction Hplain as [|c rest Hc _ IH]; intros cur; cbn [walk].
  - intros [= <-]. by rewrite app_nil_r.
  - destruct (is_dir d cur); [|done]. rewrite plain_name_step by done.
    intros ->%IH. by rewrite <- app_assoc.
Qed.

Lemma walk_plain_dirs d cur comps :
  Forall (fun c => plain_name c = true) comps ->
  comps <> [] ->
  is_dir d (cur ++ removelast comps) = true ->
  walk d cur comps = Some (cur ++ comps).
Proof.
  intros Hplain. revert cur.
  induction Hplain as [|c rest Hc _ IH]; intros cur Hne Hdir; [done|].
  cbn [walk]. rewrite plain_name_step by done.
  assert (is_dir d cur = true) as Hcur.
  { destruct (is_dir d cur) eqn:E; [done|].
    by rewrite (is_dir_below_none cur _ d E) in Hdir. }
  rewrite Hcur. destruct rest as [|c2 rest2].
  - cbn [walk]. done.
  - rewrite IH; [by rewrite <- app_assoc|done|].
    change (removelast (c :: c2 :: rest2)) with (c :: removelast (c2 :: rest2))
      in Hdir.
    by rewrite <- app_assoc.
Qed.

(** *** Texts of paths *)

Lemma startswith_app p rest : startswith p (p +:+ rest) = true.
Proof.
  induction p as [|c p IH]; simpl; [done|].
  by rewrite Ascii.eqb_refl, IH.
Qed.

Lemma str_app_assoc a b c : (a +:+ b) +:+ c = a +:+ b +:+ c.
Proof.
  induction a as [|x a IH]; [done|].
  change (String x ((a +:+ b) +:+ c) = String x (a +:+ b +:+ c)).
  by f_equal.
Qed.

Lemma str_all_app p a b : str_all p (a +:+ b) = str_all p a && str_all p b.
Proof.
  induction a as [|c a IH]; [done|].
  change (p c && str_all p (a +:+ b) = p c && str_all p a && str_all p b).
  by rewrite IH, andb_assoc.
Qed.

Lemma no_slash_app a b : no_slash (a +:+ b) = no_slash a && no_slash b.
Proof. apply str_all_app. Qed.

Lemma no_slash_relative s : no_slash s = true -> startswith "/" s = false.
Proof.
  destruct s as [|c s]; [done|]. unfold no_slash. cbn [str_all].
  intros [Hc _]%andb_prop. apply negb_true_iff in Hc.
  change (Ascii.eqb "/" c && true = false).
  by rewrite Ascii.eqb_sym, Hc.
Qed.

Lemma no_slash_contains s : no_slash s = true -> contains "/" s = false.
Proof.
  induction s as [|c s IH]; [done|]. unfold no_slash. cbn [str_all].
  intros [Hc Hs]%andb_prop. apply negb_true_iff in Hc.
  change (Ascii.eqb "/" c && true || contains "/" s = false).
  rewrite Ascii.eqb_sym, Hc. by apply IH.
Qed.

Lemma contains_slash_app a b : contains "/" (a +:+ String "/" b) = true.
Proof.
  induction a as [|c a IH]; [done|].
  change (startswith "/" (String c (a +:+ String "/" b))
          || contains "/" (a +:+ String "/" b) = true).
  rewrite IH. apply orb_true_r.
Qed.

Lemma no_slash_no_end s : no_slash s = true -> endswith_char "/" s = false.
Proof.
  induction s as [|c s IH]; [done|]. unfold no_slash. cbn [str_all].
  intros [Hc Hs]%andb_prop. apply negb_true_iff in Hc.
  cbn [endswith_char]. destruct s; [done|]. by apply IH.
Qed.

Lemma endswith_char_app c a b :
  b <> EmptyString -> endswith_char c (a +:+ b) = endswith_char c b.
Proof.
  intros Hb. induction a as [|x a IH]; [done|].
  change (endswith_char c (String x (a +:+ b)) = endswith_char c b).
  cbn [endswith_char]. destruct (a +:+ b) as [|y r] eqn:E.
  - by destruct a, b.
  - exact IH.
Qed.

Lemma head_of_no_slash s : no_slash s = true -> head_of s = EmptyString.
Proof.
  destruct s as [|c s]; [done|]. unfold no_slash. cbn [str_all].
  intros [Hc Hs]%andb_prop. apply negb_true_iff in Hc.
  cbn [head_of]. by rewrite Hc, (no_slash_contains s Hs).
Qed.

Lemma head_of_app a b :
  no_slash b = true -> head_of (a +:+ String "/" b) = a +:+ "/".
Proof.
  intros Hb. induction a as [|c a IH].
  - change (head_of (String "/" b) = "/"). cbn [head_of].
    rewrite Ascii.eqb_refl. cbn [orb]. by rewrite (head_of_no_slash b Hb).
  - change (head_of (String c (a +:+ String "/" b))
            = String c (a +:+ "/")).
    cbn [head_of]. rewrite contains_slash_app, orb_true_r. by rewrite IH.
Qed.

Lemma rstrip_app_slash a :
  a <> EmptyString -> endswith_char "/" a = false ->
  rstrip (Ascii.eqb "/") (a +:+ "/") = a.
Proof.
  induction a as [|c a IH]; [done|]. intros _ Hend.
  change (rstrip (Ascii.eqb "/") (String c (a +:+ "/")) = String c a).
  cbn [rstrip]. destruct a as [|c2 a].
  - change (rstrip (Ascii.eqb "/") (EmptyString +:+ "/")) with EmptyString.
    cbn [endswith_char] in Hend. by rewrite Ascii.eqb_sym, Hend.
  - by rewrite IH.
Qed.

(** The directory of a path that ends in a plain name. *)
Lemma dirname_app a b :
  a <> EmptyString -> endswith_char "/" a = false -> no_slash b = true ->
  dirname (a +:+ String "/" b) = a.
Proof.
  intros Ha Hend Hb. unfold dirname. rewrite head_of_app by done.
  rewrite rstrip_app_slash by done.
  destruct a; [done|]. reflexivity.
Qed.

Lemma path_join_plain a b :
  a <> EmptyString -> endswith_char "/" a = false -> no_slash b = true ->
  path_join a b = a +:+ String "/" b.
Proof.
  intros Ha Hend Hb. unfold path_join.
  rewrite (no_slash_relative b Hb), Hend.
  destruct a; [done|]. reflexivity.
Qed.

Lemma split_nonempty sep s : split sep s <> [].
Proof.
  destruct s as [|c s]; [done|]. cbn [split].
  destruct (Ascii.eqb c sep); [done|]. by destruct (split sep s).
Qed.

Lemma split_join sep a b :
  split sep (a +:+ String sep b) = split sep a ++ split sep b.
Proof.
  induction a as [|c a IH].
  - change (split sep (String sep b) = [EmptyString] ++ split sep b).
    cbn [split]. by rewrite Ascii.eqb_refl.
  - change (split sep (String c (a +:+ String sep b))
            = split sep (String c a) ++ split sep b).
    cbn [split]. destruct (Ascii.eqb c sep); [by rewrite IH|].
    rewrite IH. pose proof (split_nonempty sep a).
    by destruct (split sep a).
Qed.

(** *** The paths of a session *)

Lemma pretty_N_go_all (p : ascii -> bool) x s :
  (forall n, p (pretty_N_char n) = true) ->
  str_all p s = true -> str_all p (pretty_N_go x s) = true.
Proof.
  intros Hp. revert s. induction (N.lt_wf_0 x) as [x _ IH]; intros s Hs.
  assert (x = 0 \/ 0 < x)%N as [->|Hpos] by lia.
  - by rewrite pretty_N_go_0.
  - rewrite pretty_N_go_step by done. apply IH; [by apply N.div_lt|].
    simpl. by rewrite Hp, Hs.
Qed.

Lemma pretty_N_go_nonempty x s :
  s <> EmptyString -> pretty_N_go x s <> EmptyString.
Proof.
  revert s. induction (N.lt_wf_0 x) as [x _ IH]; intros s Hs.
  assert (x = 0 \/ 0 < x)%N as [->|Hpos] by lia.
  - by rewrite pretty_N_go_0.
  - rewrite pretty_N_go_step by done. apply IH; [by apply N.div_lt|done].
Qed.

(** The text of an integer is a run of digits with an optional sign. *)
Lemma pretty_Z_all (p : ascii -> bool) (z : Z) :
  (forall n, p (pretty_N_char n) = true) -> p "-"%char = true ->
  str_all p (pretty z) = true.
Proof.
  intros Hd Hm.
  assert (forall q, str_all p (pretty (N.pos q)) = true) as Hpos.
  { intros q. unfold pretty, pretty_N. case_decide; [done|].
    by apply pretty_N_go_all. }
  destruct z as [|q|q].
  - change (p (pretty_N_char 0) && true = true). by rewrite Hd.
  - apply Hpos.
  - change (p "-"%char && str_all p (pretty (N.pos q)) = true).
    by rewrite Hm, Hpos.
Qed.

Lemma pretty_Z_nonempty (z : Z) : pretty z <> EmptyString.
Proof.
  destruct z as [|q|q]; [done| |done].
  change (pretty (Z.pos q)) with (pretty (N.pos q)).
  unfold pretty, pretty_N. case_decide; [done|].
  rewrite pretty_N_go_step by done. by apply pretty_N_go_nonempty.
Qed.

Lemma pretty_Z_no_slash (z : Z) : no_slash (pretty z) = true.
Proof.
  apply pretty_Z_all; [|done].
  intros n. unfold pretty_N_char. by repeat case_match.
Qed.

Lemma pretty_Z_plain (z : Z) : plain_name (pretty z) = true.
Proof.
  unfold plain_name. rewrite pretty_Z_no_slash. cbn [andb].
  apply negb_true_iff.
  assert (str_all (fun c => negb (Ascii.eqb c ".")) (pretty z) = true) as Hdot.
  { apply pretty_Z_all; [|done].
    intros n. unfold pretty_N_char. by repeat case_match. }
  pose proof (pretty_Z_nonempty z) as Hne.
  destruct (pretty z) as [|c s]; [done|].
  cbn [str_all] in Hdot. apply andb_prop in Hdot as [Hc _].
  apply negb_true_iff in Hc.
  change (String.eqb (String c s) "." || String.eqb (String c s) ".." = false).
  cbn [String.eqb]. by rewrite Hc.
Qed.

Lemma plain_name_no_slash s : plain_name s = true -> no_slash s = true.
Proof. by intros [H _]%andb_prop. Qed.

Lemma plain_name_nonempty s : plain_name s = true -> s <> EmptyString.
Proof. by intros H ->. Qed.

(** A name that begins with a character other than the slash and the dot
    and holds no slash is plain. *)
Lemma plain_name_cons c s :
  negb (Ascii.eqb c "/") && negb (Ascii.eqb c ".") = true ->
  no_slash s = true -> plain_name (String c s) = true.
Proof.
  intros [Hc Hd]%andb_prop Hs. unfold plain_name, no_slash in *.
  cbn [str_all]. rewrite Hc, Hs. cbn [andb]. apply negb_true_iff in Hd.
  cbn [String.eqb]. by rewrite Hd.
Qed.

(** A session id that is a plain name makes the paths of the session what
    they look like. *)
Lemma temp_dir_plain chat_id session_id :
  plain_name session_id = true ->
  temp_dir chat_id session_id
  = "temp" +:+ String "/" ("messenger" +:+ String "/" (pretty chat_id
      +:+ String "/" session_id)).
Proof.
  intros Hs. unfold temp_dir.
  change (path_join "temp" "messenger") with ("temp/messenger").
  rewrite (path_join_plain "temp/messenger") by
    (done || apply pretty_Z_no_slash).
  rewrite path_join_plain.
  - rewrite !str_app_assoc. reflexivity.
  - done.
  - change ("temp/messenger" +:+ String "/" (pretty chat_id))
      with ("temp/messenger/" +:+ pretty chat_id).
    rewrite endswith_char_app by apply pretty_Z_nonempty.
    apply no_slash_no_end, pretty_Z_no_slash.
  - by apply plain_name_no_slash.
Qed.

Lemma temp_dir_end chat_id session_id :
  plain_name session_id = true ->
  temp_dir chat_id session_id <> EmptyString
  /\ endswith_char "/" (temp_dir chat_id session_id) = false.
Proof.
  intros Hs. rewrite temp_dir_plain by done. split; [done|].
  change ("temp" +:+ String "/" ("messenger" +:+ String "/"
            (pretty chat_id +:+ String "/" session_id)))
    with ("temp/messenger/" +:+ (pretty chat_id +:+ String "/" session_id)).
  rewrite <- str_app_assoc.
  change (String "/" session_id) with ("/" +:+ session_id).
  rewrite <- str_app_assoc.
  rewrite endswith_char_app by (by apply plain_name_nonempty).
  by apply no_slash_no_end, plain_name_no_slash.
Qed.

Lemma get_temp_path_plain chat_id session_id name :
  plain_name session_id = true -> no_slash name = true ->
  get_temp_path chat_id session_id name
  = temp_dir chat_id session_id +:+ String "/" name.
Proof.
  intros Hs Hn. unfold get_temp_path.
  destruct (temp_dir_end chat_id session_id Hs).
  by apply path_join_plain.
Qed.

Lemma dirname_get_temp_path chat_id session_id name :
  plain_name session_id = true -> no_slash name = true ->
  dirname (get_temp_path chat_id session_id name)
  = temp_dir chat_id session_id.
Proof.
  intros Hs Hn. rewrite get_temp_path_plain by done.
  destruct (temp_dir_end chat_id session_id Hs).
  by apply dirname_app.
Qed.

Lemma split_temp_dir chat_id session_id :
  plain_name session_id = true ->
  split "/" (temp_dir chat_id session_id) = session_path chat_id session_id.
Proof.
  intros Hs. rewrite temp_dir_plain by done.
  rewrite (split_app "/" "temp") by done.
  rewrite (split_app "/" "messenger") by done.
  rewrite split_app by apply pretty_Z_no_slash.
  rewrite split_single by (by apply plain_name_no_slash). done.
Qed.

Lemma split_get_temp_path chat_id session_id name :
  plain_name session_id = true -> no_slash name = true ->
  split "/" (get_temp_path chat_id session_id name)
  = session_path chat_id session_id ++ [name].
Proof.
  intros Hs Hn. rewrite get_temp_path_plain by done.
  rewrite split_join, split_temp_dir by done.
  by rewrite (split_single "/" name).
Qed.

Lemma session_path_plain chat_id session_id :
  plain_name session_id = true ->
  Forall (fun c => plain_name c = true) (session_path chat_id session_id).
Proof.
  intros Hs. repeat constructor; [done..|apply pretty_Z_plain|done].
Qed.

Lemma temp_dir_relative chat_id session_id :
  plain_name session_id = true ->
  startswith "/" (temp_dir chat_id session_id) = false
  /\ String.eqb (temp_dir chat_id session_id) "" = false.
Proof. intros Hs. by rewrite temp_dir_plain. Qed.

Lemma get_temp_path_relative chat_id session_id name :
  plain_name session_id = true -> no_slash name = true ->
  startswith "/" (get_temp_path chat_id session_id name) = false
  /\ String.eqb (get_temp_path chat_id session_id name) "" = false.
Proof.
  intros Hs Hn. by rewrite get_temp_path_plain, temp_dir_plain.
Qed.

(** A path of the session that resolves names a place in the session's
    directory. *)
Lemma resolve_get_temp_path fs chat_id session_id name cp :
  plain_name session_id = true -> plain_name name = true ->
  resolve fs (get_temp_path chat_id session_id name) = Some cp ->
  cp = session_dir fs chat_id session_id ++ [name].
Proof.
  intros Hs Hn. unfold resolve, start_of.
  pose proof (plain_name_no_slash name Hn) as Hn'.
  destruct (get_temp_path_relative chat_id session_id name Hs Hn')
    as [-> ->].
  cbn [orb]. destruct (has_nul _); [done|].
  rewrite split_get_temp_path by done. intros Hwalk.
  apply walk_plain in Hwalk.
  - unfold session_dir. by rewrite <- app_assoc.
  - apply Forall_app. split; [by apply session_path_plain|by constructor].
Qed.

(** *** [makedirs] *)

(** Making directories changes no regular file. *)
Lemma mkdir_p_files d cur comps cp :
  file_at cp (mkdir_p d cur comps).2 = file_at cp d.
Proof.
  revert d cur. induction comps as [|c rest IH]; intros d cur; [done|].
  cbn [mkdir_p]. destruct (has_nul c); [done|].
  destruct (node_at (step cur c) d) as [[content|d']|] eqn:E; [done|apply IH|].
  rewrite IH. by apply file_at_put_dir.
Qed.

Lemma makedirs_cwd path fs : cwd (makedirs path fs).2 = cwd fs.
Proof.
  unfold makedirs. by repeat case_match.
Qed.

Lemma makedirs_files path fs cp :
  file_at cp (tree (makedirs path fs).2) = file_at cp (tree fs).
Proof.
  unfold makedirs.
  destruct (String.eqb path ""); [done|].
  destruct (is_dir (tree fs) (start_of fs path)); [|done].
  pose proof (mkdir_p_files (tree fs) (start_of fs path) (split "/" path) cp)
    as Hfiles.
  by destruct (mkdir_p _ _ _).
Qed.

Lemma is_dir_put_dir_inv cp cp' d :
  node_at cp d = None -> is_dir (put cp (Dir ∅) d) cp' = true ->
  is_dir d cp' = true \/ cp' = cp.
Proof.
  revert cp' d. induction cp as [|c rest IH]; intros cp' d Hnone Hdir;
    [by left|].
  rewrite put_cons in Hdir. rewrite node_at_cons in Hnone.
  destruct rest as [|c2 rest2].
  - destruct cp' as [|c' r']; [by left|]. rewrite is_dir_cons in *.
    destruct (decide (c' = c)) as [->|Hc];
      [|rewrite lookup_insert_ne in Hdir by done; by left].
    rewrite lookup_insert_eq in Hdir.
    destruct r' as [|x r']; [by right|].
    by rewrite is_dir_cons, lookup_empty in Hdir.
  - destruct (d !! c) as [[?|d']|] eqn:Hc; [by left| |by left].
    destruct cp' as [|c' r']; [by left|]. rewrite is_dir_cons in *.
    destruct (decide (c' = c)) as [->|Hc'];
      [|rewrite lookup_insert_ne in Hdir by done; by left].
    rewrite lookup_insert_eq in Hdir. rewrite Hc.
    destruct (IH r' d' Hnone Hdir) as [?| ->]; [by left|by right].
Qed.

(** Along plain names, with no regular file in the way, every directory
    is made, and no other. *)
Lemma mkdir_p_plain d cur comps :
  Forall (fun c => plain_name c = true /\ has_nul c = false) comps ->
  is_dir d cur = true ->
  (forall k, file_at (cur ++ take k comps) d = None) ->
  exists d',
    mkdir_p d cur comps = (Ok tt, d')
    /\ is_dir d' (cur ++ comps) = true
    /\ (forall cp, is_dir d cp = true -> is_dir d' cp = true)
    /\ (forall cp, is_dir d' cp = true ->
          is_dir d cp = true \/ exists k, cp = cur ++ take k comps).
Proof.
  intros Hplain. revert d cur.
  induction Hplain as [|c rest [Hc Hnul] _ IH]; intros d cur Hcur Hfile.
  - exists d. rewrite app_nil_r. repeat split; [done..|]. by left.
  - cbn [mkdir_p]. rewrite Hnul, plain_name_step by done.
    assert (forall d0,
              (forall cp, file_at cp d0 = file_at cp d) ->
              forall k, file_at ((cur ++ [c]) ++ take k rest) d0 = None)
      as Hshift.
    { intros d0 Hsame k. rewrite Hsame, <- app_assoc. apply (Hfile (S k)). }
    assert (forall cp, (exists k, cp = (cur ++ [c]) ++ take k rest) ->
                       exists k, cp = cur ++ take k (c :: rest)) as Hk.
    { intros cp [k ->]. exists (S k). by rewrite <- app_assoc. }
    destruct (node_at (cur ++ [c]) d) as [[content|d1]|] eqn:E.
    + specialize (Hfile 1%nat). change (take 1 (c :: rest)) with [c] in Hfile.
      unfold file_at in Hfile. by rewrite E in Hfile.
    + destruct (IH d (cur ++ [c])) as (d' & Hrun & Hdir & Hmono & Hinv).
      { unfold is_dir. by rewrite E. }
      { by apply Hshift. }
      exists d'. split; [done|]. split; [by rewrite <- app_assoc in Hdir|].
      split; [done|]. intros cp Hcp.
      destruct (Hinv cp Hcp) as [?|?]; [by left|right; by apply Hk].
    + destruct (IH (put (cur ++ [c]) (Dir ∅) d) (cur ++ [c]))
        as (d' & Hrun & Hdir & Hmono & Hinv).
      { by apply is_dir_put_eq. }
      { apply Hshift. intros cp. by apply file_at_put_dir. }
      exists d'. split; [done|]. split; [by rewrite <- app_assoc in Hdir|].
      split.
      * intros cp Hcp. apply Hmono. by apply is_dir_put_dir.
      * intros cp Hcp. destruct (Hinv cp Hcp) as [Hput|?];
          [|right; by apply Hk].
        destruct (is_dir_put_dir_inv _ _ _ E Hput) as [?| ->]; [by left|].
        right. exists 1%nat. done.
Qed.

Lemma contains_char_app c a b :
  contains (String c EmptyString) (a +:+ b)
  = contains (String c EmptyString) a || contains (String c EmptyString) b.
Proof.
  induction a as [|x a IH].
  - reflexivity.
  - change (startswith (String c "") (String x (a +:+ b))
            || contains (String c "") (a +:+ b)
            = (startswith (String c "") (String x a)
               || contains (String c "") a) || contains (String c "") b).
    rewrite IH. cbn [startswith]. by rewrite !andb_true_r, orb_assoc.
Qed.

Lemma has_nul_app a b : has_nul (a +:+ b) = has_nul a || has_nul b.
Proof. apply contains_char_app. Qed.

Lemma pretty_Z_no_nul (z : Z) : has_nul (pretty z) = false.
Proof.
  assert (str_all (fun c => negb (Ascii.eqb c Ascii.zero)) (pretty z) = true)
    as Hall.
  { apply pretty_Z_all; [|done].
    intros n. unfold pretty_N_char. by repeat case_match. }
  induction (pretty z) as [|c s IH]; [done|].
  cbn [str_all] in Hall. apply andb_prop in Hall as [Hc Hs].
  apply negb_true_iff in Hc.
  change (Ascii.eqb Ascii.zero c && true || has_nul s = false).
  rewrite Ascii.eqb_sym, Hc. by apply IH.
Qed.

Lemma has_nul_temp_dir chat_id session_id :
  plain_name session_id = true ->
  has_nul (temp_dir chat_id session_id) = has_nul session_id.
Proof.
  intros Hs. rewrite temp_dir_plain by done.
  rewrite (has_nul_app "temp").
  change (has_nul (String "/" ?s)) with (has_nul s).
  rewrite (has_nul_app "messenger").
  change (has_nul (String "/" ?s)) with (has_nul s).
  rewrite has_nul_app, pretty_Z_no_nul.
  change (has_nul (String "/" ?s)) with (has_nul s).
  reflexivity.
Qed.

Lemma has_nul_get_temp_path chat_id session_id name :
  plain_name session_id = true -> no_slash name = true ->
  has_nul (get_temp_path chat_id session_id name)
  = has_nul session_id || has_nul name.
Proof.
  intros Hs Hn. rewrite get_temp_path_plain by done.
  rewrite has_nul_app, has_nul_temp_dir by done.
  change (has_nul (String "/" ?s)) with (has_nul s).
  reflexivity.
Qed.

(** The directory of a session can be made where [can_make] says so. *)
Lemma makedirs_temp_dir fs chat_id session_id :
  plain_name session_id = true ->
  has_nul session_id = false ->
  can_make fs (session_path chat_id session_id) ->
  exists fs1,
    makedirs (temp_dir chat_id session_id) fs = (Ok tt, fs1)
    /\ cwd fs1 = cwd fs
    /\ is_dir (tree fs1) (session_dir fs chat_id session_id) = true
    /\ (forall cp, file_at cp (tree fs1) = file_at cp (tree fs))
    /\ (forall cp, is_dir (tree fs1) cp = true ->
          is_dir (tree fs) cp = true
          \/ exists k, cp = cwd fs ++ take k (session_path chat_id session_id)).
Proof.
  intros Hs Hnul [Hcwd Hfile].
  unfold makedirs, start_of.
  destruct (temp_dir_relative chat_id session_id Hs) as [Hrel Hne].
  rewrite Hrel, Hne.
  rewrite Hcwd. rewrite split_temp_dir by done.
  destruct (mkdir_p_plain (tree fs) (cwd fs) (session_path chat_id session_id))
    as (d' & Hrun & Hdir & _ & Hinv); [|done|done|].
  { repeat constructor; [apply pretty_Z_plain|apply pretty_Z_no_nul|done..]. }
  pose proof (mkdir_p_files (tree fs) (cwd fs)
                (session_path chat_id session_id)) as Hf.
  rewrite Hrun in *. cbn [fst snd] in Hf.
  eexists. split; [done|]. cbn [tree cwd]. done.
Qed.

(** *** Writing through a path *)

(** A regular file written where no directory stands leaves every path
    resolving as before. *)
Lemma resolve_put_file fs cp content path :
  is_dir (tree fs) cp = false ->
  resolve {| tree := put cp (File content) (tree fs); cwd := cwd fs |} path
  = resolve fs path.
Proof.
  intros Hdir. unfold resolve, start_of. cbn [tree cwd].
  destruct (String.eqb path "" || has_nul path); [done|].
  apply walk_ext. intros cp'. by apply is_dir_put_file.
Qed.

Lemma write_file_ok path content fs fs' :
  write_file path content fs = (Ok tt, fs') ->
  exists cp c,
    resolve fs path = Some (cp ++ [c])
    /\ is_dir (tree fs) (cp ++ [c]) = false
    /\ is_dir (tree fs) cp = true
    /\ fs' = {| tree := put (cp ++ [c]) (File content) (tree fs);
                cwd := cwd fs |}.
Proof.
  unfold write_file. destruct (resolve fs path) as [cp|] eqn:Hres; [|done].
  assert (is_dir (tree fs) cp = false -> cp <> []) as Hne.
  { by intros Hdir ->. }
  unfold is_dir in *.
  destruct (node_at cp (tree fs)) as [[x|d']|] eqn:Hnode; [|done|];
    (destruct (node_at (removelast cp) (tree fs)) as [[?|?]|] eqn:Hparent;
       [done| |done]);
    intros [= <-];
    (destruct (snoc_removelast cp (Hne eq_refl)) as [c Hc]);
    exists (removelast cp), c; rewrite <- Hc, Hnode, Hparent; done.
Qed.

Lemma write_file_at path content fs cp c :
  resolve fs path = Some (cp ++ [c]) ->
  is_dir (tree fs) (cp ++ [c]) = false ->
  is_dir (tree fs) cp = true ->
  write_file path content fs
  = (Ok tt, {| tree := put (cp ++ [c]) (File content) (tree fs);
               cwd := cwd fs |}).
Proof.
  intros Hres Hdir Hparent. unfold write_file. rewrite Hres.
  rewrite removelast_snoc, Hparent. unfold is_dir in Hdir.
  by destruct (node_at (cp ++ [c]) (tree fs)) as [[x|d']|].
Qed.

Lemma write_file_raise path content fs e fs' :
  write_file path content fs = (Raise e, fs') -> fs' = fs.
Proof. unfold write_file. repeat case_match; congruence. Qed.

Lemma write_file_cwd path content fs : cwd (write_file path content fs).2 = cwd fs.
Proof. unfold write_file. by repeat case_match. Qed.

(** What was written through a path is read through it. *)
Lemma write_file_read path content fs fs' :
  write_file path content fs = (Ok tt, fs') -> fs' !! path = Some content.
Proof.
  intros (cp & c & Hres & Hdir & Hparent & ->)%write_file_ok.
  unfold lookup, filesystem_lookup. rewrite resolve_put_file by done.
  rewrite Hres. cbn [tree]. unfold file_at. by rewrite node_at_put_eq.
Qed.

(** Every regular file but the one the path names is as it was. *)
Lemma write_file_files path content fs cp :
  resolve (write_file path content fs).2 path <> Some cp ->
  file_at cp (tree (write_file path content fs).2) = file_at cp (tree fs).
Proof.
  destruct (write_file path content fs) as [[[]|e] fs'] eqn:Hw.
  - apply write_file_ok in Hw as (cp0 & c & Hres & Hdir & Hparent & ->).
    cbn [snd tree]. rewrite resolve_put_file, Hres by done. intros Hne.
    apply file_at_put_file; [congruence|done].
  - apply write_file_raise in Hw as ->. done.
Qed.

(** *** [download_file] *)

Lemma download_file_cwd http_get int_of_str fs url filename file_size
    direct_url :
  cwd (download_file http_get int_of_str fs url filename file_size
         direct_url).2 = cwd fs.
Proof.
  unfold download_file.
  destruct (open_download http_get int_of_str url file_size direct_url)
    as [[r|]|e]; [|done..].
  pose proof (makedirs_cwd (dirname filename) fs) as Hm.
  destruct (makedirs (dirname filename) fs) as [[[]|e] fs1]; [|done].
  destruct (write_body (body r) []) as [outcome written].
  pose proof (write_file_cwd filename written fs1) as Hw.
  destruct (write_file filename written fs1) as [[[]|e] fs2]; [|done].
  cbn [snd] in *. congruence.
Qed.

(** [download_file] changes no regular file but the one its destination
    names, and removes none. *)
Lemma download_file_files http_get int_of_str fs url filename file_size
    direct_url cp :
  resolve (download_file http_get int_of_str fs url filename file_size
             direct_url).2 filename <> Some cp ->
  file_at cp (tree (download_file http_get int_of_str fs url filename
                      file_size direct_url).2)
  = file_at cp (tree fs).
Proof.
  unfold download_file.
  destruct (open_download http_get int_of_str url file_size direct_url)
    as [[r|]|e]; [|done..].
  pose proof (makedirs_files (dirname filename) fs cp) as Hm.
  destruct (makedirs (dirname filename) fs) as [[[]|e] fs1]; [|done].
  destruct (write_body (body r) []) as [outcome written].
  pose proof (write_file_files filename written fs1 cp) as Hw.
  destruct (write_file filename written fs1) as [[[]|e] fs2]; [|done].
  cbn [snd] in *. intros Hne. by rewrite Hw.
Qed.

(** [download_file] on a response that passes the checks made before the
    first write, into a directory that can be made. *)
Lemma download_file_streams http_get int_of_str fs url filename file_size
    direct_url r fs1 fs2 :
  open_download http_get int_of_str url file_size direct_url = Ok (Some r) ->
  makedirs (dirname filename) fs = (Ok tt, fs1) ->
  write_file filename (write_body (body r) []).2 fs1 = (Ok tt, fs2) ->
  download_file http_get int_of_str fs url filename file_size direct_url
  = (match (write_body (body r) []).1 with Ok _ => true | Raise _ => false end,
     fs2).
Proof.
  intros Hopen Hmake Hwrite. unfold download_file. rewrite Hopen, Hmake.
  destruct (write_body (body r) []) as [outcome written].
  cbn [snd] in Hwrite. by rewrite Hwrite.
Qed.

(** A regular file written into the directory of a session, wherever the
    directory can be made and the destination is no directory. *)
Lemma write_session_file fs chat_id session_id name content :
  plain_name session_id = true -> plain_name name = true ->
  has_nul (get_temp_path chat_id session_id name) = false ->
  can_make fs (session_path chat_id session_id) ->
  is_dir (tree fs) (session_dir fs chat_id session_id ++ [name]) = false ->
  exists fs1 fs2,
    makedirs (dirname (get_temp_path chat_id session_id name)) fs
    = (Ok tt, fs1)
    /\ write_file (get_temp_path chat_id session_id name) content fs1
       = (Ok tt, fs2)
    /\ cwd fs2 = cwd fs
    /\ resolve fs2 (get_temp_path chat_id session_id name)
       = Some (session_dir fs chat_id session_id ++ [name])
    /\ file_at (session_dir fs chat_id session_id ++ [name]) (tree fs2)
       = Some content
    /\ (forall cp, cp <> session_dir fs chat_id session_id ++ [name] ->
                   file_at cp (tree fs2) = file_at cp (tree fs)).
Proof.
  intros Hs Hn Hnul Hmake Hdest.
  pose proof (plain_name_no_slash name Hn) as Hn'.
  assert (has_nul session_id = false) as Hnul_s.
  { rewrite has_nul_get_temp_path in Hnul by done.
    by apply orb_false_elim in Hnul as [? _]. }
  destruct (makedirs_temp_dir fs chat_id session_id Hs Hnul_s Hmake)
    as (fs1 & Hrun & Hcwd & Hdir & Hfiles & Hinv).
  rewrite dirname_get_temp_path by done.
  exists fs1.
  assert (resolve fs1 (get_temp_path chat_id session_id name)
          = Some (session_dir fs chat_id session_id ++ [name])) as Hres.
  { unfold resolve, start_of.
    destruct (get_temp_path_relative chat_id session_id name Hs Hn')
      as [-> ->].
    rewrite Hnul. cbn [orb]. rewrite split_get_temp_path by done.
    rewrite walk_plain_dirs.
    - unfold session_dir. by rewrite Hcwd, <- app_assoc.
    - apply Forall_app. split; [by apply session_path_plain|by constructor].
    - done.
    - rewrite removelast_snoc, Hcwd. exact Hdir. }
  assert (is_dir (tree fs1) (session_dir fs chat_id session_id ++ [name])
          = false) as Hdest1.
  { destruct (is_dir (tree fs1)
                (session_dir fs chat_id session_id ++ [name])) eqn:E; [|done].
    destruct (Hinv _ E) as [?|[k Hk]]; [congruence|].
    unfold session_dir in Hk. rewrite <- app_assoc in Hk.
    apply app_inv_head in Hk.
    apply (f_equal length) in Hk. rewrite length_app, length_take in Hk.
    cbn [length session_path] in Hk. lia. }
  assert (is_dir (tree fs1) (session_dir fs chat_id session_id) = true)
    as Hparent by done.
  rewrite (write_file_at _ content fs1 _ name Hres Hdest1 Hparent).
  eexists. split; [done|]. split; [done|]. cbn [cwd tree].
  split; [done|]. split; [by rewrite resolve_put_file|].
  split; [unfold file_at; by rewrite node_at_put_eq|].
  intros cp Hcp. rewrite <- Hfiles. by apply file_at_put_file.
Qed.

(** *** [cleanup_temp_files] *)

Lemma last_is_name_temp_dir chat_id session_id :
  plain_name session_id = true ->
  last_is_name (temp_dir chat_id session_id) = true.
Proof.
  intros Hs. unfold last_is_name. rewrite split_temp_dir by done.
  assert (forall x, x <> EmptyString -> negb (String.eqb x "") = true) as Hf.
  { intros x Hx. by apply negb_true_iff, String.eqb_neq. }
  unfold session_path. cbn [List.filter].
  rewrite (Hf "temp"), (Hf "messenger") by done.
  rewrite (Hf (pretty chat_id)) by apply pretty_Z_nonempty.
  rewrite (Hf session_id) by (by apply plain_name_nonempty).
  cbn [last]. apply andb_prop in Hs as [_ Hs].
  apply negb_true_iff in Hs. apply orb_false_elim in Hs as [Hs ?].
  apply orb_false_elim in Hs as [_ Hs]. apply negb_true_iff.
  by apply orb_false_intro.
Qed.

Lemma resolve_temp_dir fs chat_id session_id :
  plain_name session_id = true -> has_nul session_id = false ->
  resolve fs (temp_dir chat_id session_id)
  = walk (tree fs) (cwd fs) (session_path chat_id session_id).
Proof.
  intros Hs Hnul. unfold resolve, start_of.
  destruct (temp_dir_relative chat_id session_id Hs) as [-> ->].
  by rewrite has_nul_temp_dir, Hnul, split_temp_dir.
Qed.

Lemma below_not_prefix dir cp :
  ~ below dir cp -> cp <> dir -> ~ dir `prefix_of` cp.
Proof.
  intros Hbelow Hne [[|name rest] ->].
  - by rewrite app_nil_r in Hne.
  - apply Hbelow. by exists name, rest.
Qed.

(** With a session id that is a plain name, [cleanup_temp_files] removes
    the regular files below the directory of the session and no other. *)
Lemma cleanup_temp_files_files fs chat_id session_id :
  plain_name session_id = true -> has_nul session_id = false ->
  cwd (cleanup_temp_files chat_id session_id fs) = cwd fs
  /\ (forall cp, below (session_dir fs chat_id session_id) cp ->
        file_at cp (tree (cleanup_temp_files chat_id session_id fs)) = None)
  /\ (forall cp, ~ below (session_dir fs chat_id session_id) cp ->
        file_at cp (tree (cleanup_temp_files chat_id session_id fs))
        = file_at cp (tree fs)).
Proof.
  intros Hs Hnul.
  assert (is_dir (tree fs) (session_dir fs chat_id session_id) = false ->
          forall cp, below (session_dir fs chat_id session_id) cp ->
                     file_at cp (tree fs) = None) as Hnone.
  { intros Hdir cp (name & rest & ->). by apply file_at_below_none. }
  unfold cleanup_temp_files, path_exists, rmtree.
  rewrite resolve_temp_dir by done.
  destruct (walk (tree fs) (cwd fs) (session_path chat_id session_id))
    as [cp0|] eqn:Hwalk.
  - apply walk_plain in Hwalk as ->; [|by apply session_path_plain].
    fold (session_dir fs chat_id session_id).
    destruct (node_at (session_dir fs chat_id session_id) (tree fs))
      as [[x|d']|] eqn:Hnode.
    + split; [done|]. split; [|done]. apply Hnone.
      unfold is_dir. by rewrite Hnode.
    + rewrite last_is_name_temp_dir by done.
      destruct (session_dir fs chat_id session_id) as [|c0 l0] eqn:E.
      { unfold session_dir in E. by apply app_eq_nil in E as [_ ?]. }
      rewrite <- E in *. cbn [snd cwd tree].
      split; [done|]. split.
      * intros cp (name & rest & ->). apply file_at_remove_below. by rewrite E.
      * intros cp Hcp.
        destruct (decide (cp = session_dir fs chat_id session_id)) as [->|Hne].
        -- rewrite <- (app_nil_r (session_dir fs chat_id session_id)) at 1.
           rewrite file_at_remove_below by (by rewrite E).
           unfold file_at. by rewrite Hnode.
        -- apply file_at_remove_other. by apply below_not_prefix.
    + split; [done|]. split; [|done]. apply Hnone.
      unfold is_dir. by rewrite Hnode.
  - split; [done|]. split; [|done]. apply Hnone.
    destruct (is_dir (tree fs) (session_dir fs chat_id session_id)) eqn:Hdir;
      [|done].
    rewrite walk_plain_dirs in Hwalk; [done|by apply session_path_plain|done|].
    destruct (is_dir (tree fs)
                (cwd fs ++ removelast (session_path chat_id session_id)))
      eqn:Hparent; [done|].
    apply (is_dir_below_none _ [session_id]) in Hparent.
    rewrite <- app_assoc in Hparent.
    unfold session_dir in Hdir.
    change (removelast (session_path chat_id session_id) ++ [session_id])
      with (session_path chat_id session_id) in Hparent.
    congruence.
Qed.

(** ** Streaming downloads *)

Lemma len_nonneg (chunk : bytes) : 0 <= len chunk.
Proof. unfold len. lia. Qed.

Lemma total_len_nonneg chunks : 0 <= total_len chunks.
Proof.
  induction chunks as [|c chunks IH]; simpl; [done|].
  pose proof (len_nonneg c). lia.
Qed.

Lemma total_len_concat chunks : total_len chunks = len (concat chunks).
Proof.
  induction chunks as [|c chunks IH]; simpl; [done|].
  unfold len in *. rewrite length_app, IH. lia.
Qed.

Lemma total_len_replicate n (chunk : bytes) :
  total_len (replicate n chunk) = Z.of_nat n * len chunk.
Proof.
  induction n as [|n IH]; [done|].
  cbn [replicate total_len foldr]. fold (total_len (replicate n chunk)).
  rewrite IH. lia.
Qed.

(** An empty chunk is skipped, which leaves the file as it is. *)
Lemma write_body_stream_of chunks written :
  write_body (stream_of chunks) written = (Ok tt, written ++ concat chunks).
Proof.
  revert written. induction chunks as [|c chunks IH]; intros written; simpl.
  - by rewrite app_nil_r.
  - destruct c as [|b c]; simpl; [apply IH|].
    rewrite IH. by rewrite <- app_assoc.
Qed.

Lemma write_body_broken_after chunks e written :
  write_body (broken_after chunks e) written
  = (Raise e, written ++ concat chunks).
Proof.
  revert written. induction chunks as [|c chunks IH]; intros written; simpl.
  - by rewrite app_nil_r.
  - destruct c as [|b c]; simpl; [apply IH|].
    rewrite IH. by rewrite <- app_assoc.
Qed.

Lemma open_download_unsized http_get int_of_str url direct_url b :
  http_get url = Ok (unsized_video b) ->
  open_download http_get int_of_str url 0 direct_url = Ok (Some (unsized_video b)).
Proof.
  intros Hget. unfold open_download. rewrite Hget. reflexivity.
Qed.

(** A body that arrives whole is written out whole, into a directory of a
    session that can be made. *)
Lemma download_file_whole http_get int_of_str fs url file_size direct_url r
    chunks chat_id session_id name :
  open_download http_get int_of_str url file_size direct_url = Ok (Some r) ->
  body r = stream_of chunks ->
  plain_name session_id = true -> plain_name name = true ->
  has_nul (get_temp_path chat_id session_id name) = false ->
  can_make fs (session_path chat_id session_id) ->
  is_dir (tree fs) (session_dir fs chat_id session_id ++ [name]) = false ->
  exists fs2,
    download_file http_get int_of_str fs url
      (get_temp_path chat_id session_id name) file_size direct_url
    = (true, fs2)
    /\ cwd fs2 = cwd fs
    /\ resolve fs2 (get_temp_path chat_id session_id name)
       = Some (session_dir fs chat_id session_id ++ [name])
    /\ file_at (session_dir fs chat_id session_id ++ [name]) (tree fs2)
       = Some (concat chunks)
    /\ (forall cp, cp <> session_dir fs chat_id session_id ++ [name] ->
                   file_at cp (tree fs2) = file_at cp (tree fs)).
Proof.
  intros Hopen Hbody Hs Hn Hnul Hmake Hdest.
  destruct (write_session_file fs chat_id session_id name (concat chunks)
              Hs Hn Hnul Hmake Hdest)
    as (fs1 & fs2 & Hm & Hw & Hcwd & Hres & Hfile & Hframe).
  exists fs2. split; [|done].
  rewrite (download_file_streams _ _ _ _ _ _ _ r fs1 fs2 Hopen Hm);
    rewrite Hbody, write_body_stream_of; done.
Qed.

Lemma file_at_empty cp : file_at cp ∅ = None.
Proof. by destruct cp. Qed.

Lemma is_dir_empty c cp : is_dir ∅ (c :: cp) = false.
Proof. done. Qed.

(** In the empty file system every directory can be made. *)
Lemma can_make_empty rel : can_make ∅ rel.
Proof. split; [done|]. intros k. apply file_at_empty. Qed.

(** C1, at a body of 12801 chunks of 8192 bytes without a content-length
    header. [download_file] keeps no count of the bytes it writes: it
    returns [True] and leaves all 104865792 bytes at the destination, more
    than the limit of 100 MB. *)
Theorem download_file_ignores_measured_size :
  let http_get := fun _ : string =>
                    Ok (unsized_video (stream_of oversized_chunks)) in
  let run := download_file http_get int_of_digits ∅
               "https://cdn.example/big"
               "temp/messenger/1/abc123/youtube_media.mp4" 0 None in
  run.1 = true
  /\ (exists written,
        run.2 !! "temp/messenger/1/abc123/youtube_media.mp4" = Some written
        /\ len written = 104865792)
  /\ 104865792 > max_size * 1024 * 1024.
Proof.
  intros http_get run. subst run.
  destruct (download_file_whole http_get int_of_digits ∅
              "https://cdn.example/big" 0 None
              (unsized_video (stream_of oversized_chunks)) oversized_chunks
              1 "abc123" "youtube_media.mp4")
    as (fs2 & Hrun & _ & Hres & Hfile & _);
    [reflexivity..|apply can_make_empty|reflexivity|].
  change (get_temp_path 1 "abc123" "youtube_media.mp4")
    with "temp/messenger/1/abc123/youtube_media.mp4" in Hrun, Hres.
  rewrite Hrun. cbn [fst snd].
  split; [reflexivity|]. split; [|reflexivity].
  exists (concat oversized_chunks). split.
  - unfold lookup, filesystem_lookup. by rewrite Hres.
  - rewrite <- total_len_concat. unfold oversized_chunks.
    rewrite total_len_replicate. unfold len. rewrite length_replicate.
    rewrite !Z2Nat.id by lia. reflexivity.
Qed.

(** The loop of [search.py] does count: a body that leaves the limit
    behind is cut off and the file removed. *)
Lemma write_counted_over chunks written n :
  n <= max_size_mb * 1024 * 1024 ->
  n + total_len chunks > max_size_mb * 1024 * 1024 ->
  write_counted (stream_of chunks) written n = (AudioTooLarge, None).
Proof.
  revert written n. induction chunks as [|c chunks IH]; intros written n Hn Hover.
  - simpl in Hover. lia.
  - cbn [stream_of write_counted]. cbn [total_len foldr] in Hover.
    fold (total_len chunks) in Hover.
    destruct c as [|b c]; cbn [nonempty].
    + apply IH; [done|]. unfold len in Hover. simpl in Hover. lia.
    + destruct (Z.gtb_spec (n + len (b :: c)) (max_size_mb * 1024 * 1024));
        [done|].
      apply IH; lia.
Qed.

Lemma write_counted_within chunks written n :
  n + total_len chunks <= max_size_mb * 1024 * 1024 ->
  write_counted (stream_of chunks) written n
  = (AudioDownloaded, Some (written ++ concat chunks)).
Proof.
  revert written n. induction chunks as [|c chunks IH]; intros written n Hn.
  - simpl. by rewrite app_nil_r.
  - cbn [stream_of write_counted]. cbn [total_len foldr] in Hn.
    fold (total_len chunks) in Hn. pose proof (total_len_nonneg chunks).
    destruct c as [|b c]; cbn [nonempty].
    + simpl. apply IH. unfold len in Hn. simpl in Hn. lia.
    + destruct (Z.gtb_spec (n + len (b :: c)) (max_size_mb * 1024 * 1024));
        [lia|].
      rewrite IH by lia. simpl. by rewrite <- app_assoc.
Qed.

Lemma download_audio_counts http_get int_of_str fs file_url file_path chunks :
  http_get file_url = Ok (unsized_video (stream_of chunks)) ->
  total_len chunks > max_size_mb * 1024 * 1024 ->
  download_audio http_get int_of_str fs file_url file_path
  = (AudioTooLarge, delete file_path fs).
Proof.
  intros Hget Hover. unfold download_audio. rewrite Hget.
  cbn [status_code unsized_video content_length body].
  change ((400 <=? 200) && (200 <? 600)) with false. cbv iota.
  rewrite write_counted_over; [done|unfold max_size_mb; lia|lia].
Qed.

Lemma oversized_chunks_total : total_len oversized_chunks = 104865792.
Proof.
  unfold oversized_chunks.
  rewrite total_len_replicate. unfold len. rewrite length_replicate.
  rewrite !Z2Nat.id by lia. reflexivity.
Qed.

Lemma download_audio_cuts_oversized fs :
  let http_get := fun _ : string =>
                    Ok (unsized_video (stream_of oversized_chunks)) in
  download_audio http_get int_of_digits fs "https://cdn.example/big" "a.m4a"
  = (AudioTooLarge, delete "a.m4a" fs).
Proof.
  intros http_get.
  apply (download_audio_counts _ _ _ _ _ oversized_chunks); [reflexivity|].
  rewrite oversized_chunks_total. unfold max_size_mb. lia.
Qed.

Lemma open_download_first http_get int_of_str url file_size direct_url r :
  http_get url = Ok r -> status_code r = 200 ->
  open_download http_get int_of_str url file_size direct_url
  = if negb (valid_content_type r) then Ok None
    else (total_size <-
            match content_length r with
            | Some h => int_of_str h
            | None => Ok (file_size * 1024 * 1024)
            end ;;
          if total_size >? max_size * 1024 * 1024 then Ok None
          else Ok (Some r))%result.
Proof.
  intros Hget Hst. unfold open_download. rewrite Hget. cbn [rbind].
  rewrite Hst. change (negb (200 =? 200)) with false. cbn [andb rbind].
  rewrite Hst. reflexivity.
Qed.

(** What [cleanup_temp_files] leaves of a file of the session. *)
Lemma cleanup_removes chat_id session_id name fs :
  plain_name session_id = true -> has_nul session_id = false ->
  plain_name name = true ->
  cleanup_temp_files chat_id session_id fs
    !! get_temp_path chat_id session_id name = None.
Proof.
  intros Hs Hnul Hn.
  destruct (cleanup_temp_files_files fs chat_id session_id Hs Hnul)
    as (Hcwd & Hbelow & _).
  unfold lookup, filesystem_lookup.
  destruct (resolve (cleanup_temp_files chat_id session_id fs)
              (get_temp_path chat_id session_id name)) as [cp|] eqn:Hres;
    [|done].
  apply resolve_get_temp_path in Hres as ->; [|done..].
  apply Hbelow. exists name, []. unfold session_dir. by rewrite Hcwd.
Qed.

(** C7, as the code has it. [download_file] returns [False] with the file
    system untouched when the content type is not on the allow-list and
    when the declared size is over the limit; whenever it returns [False],
    either no regular file has changed, or the body broke while it was
    written and the bytes written so far are at the destination. Nothing
    in [download_file] removes them; for a destination that
    [get_temp_path] builds from a session id and a file name that are
    plain names, [cleanup_temp_files] of the session does. *)
Theorem download_file_failure :
  (forall http_get int_of_str fs url filename file_size direct_url r,
     http_get url = Ok r -> status_code r = 200 ->
     valid_content_type r = false ->
     download_file http_get int_of_str fs url filename file_size direct_url
     = (false, fs))
  /\ (forall http_get int_of_str fs url filename file_size direct_url r h n,
        http_get url = Ok r -> status_code r = 200 ->
        content_length r = Some h -> int_of_str h = Ok n ->
        n > max_size * 1024 * 1024 ->
        download_file http_get int_of_str fs url filename file_size direct_url
        = (false, fs))
  /\ (forall http_get int_of_str fs url filename file_size direct_url,
        (download_file http_get int_of_str fs url filename file_size
           direct_url).1 = false ->
        (forall cp,
           file_at cp (tree (download_file http_get int_of_str fs url filename
                               file_size direct_url).2)
           = file_at cp (tree fs))
        \/ exists r e written,
             open_download http_get int_of_str url file_size direct_url
             = Ok (Some r)
             /\ write_body (body r) [] = (Raise e, written)
             /\ (download_file http_get int_of_str fs url filename file_size
                   direct_url).2 !! filename = Some written)
  /\ (forall http_get int_of_str fs url file_size direct_url chat_id
             session_id name,
        plain_name session_id = true -> has_nul session_id = false ->
        plain_name name = true ->
        cleanup_temp_files chat_id session_id
          (download_file http_get int_of_str fs url
             (get_temp_path chat_id session_id name) file_size direct_url).2
        !! get_temp_path chat_id session_id name = None).
Proof.
  split; [|split; [|split]].
  - intros http_get int_of_str fs url filename file_size direct_url r
      Hget Hst Hty.
    unfold download_file.
    rewrite (open_download_first _ _ _ _ _ r) by done.
    by rewrite Hty.
  - intros http_get int_of_str fs url filename file_size direct_url r h n
      Hget Hst Hcl Hint Hn.
    unfold download_file.
    rewrite (open_download_first _ _ _ _ _ r) by done.
    destruct (negb (valid_content_type r)); [done|].
    rewrite Hcl, Hint. cbn [rbind].
    destruct (Z.gtb_spec n (max_size * 1024 * 1024)); [done|lia].
  - intros http_get int_of_str fs url filename file_size direct_url Hfalse.
    unfold download_file in *.
    destruct (open_download http_get int_of_str url file_size direct_url)
      as [[r|]|e]; [|by left..].
    pose proof (makedirs_files (dirname filename) fs) as Hm.
    destruct (makedirs (dirname filename) fs) as [[[]|e] fs1]; [|by left].
    destruct (write_body (body r) []) as [outcome written] eqn:Hbody.
    destruct (write_file filename written fs1) as [[[]|e] fs2] eqn:Hw;
      [|by left].
    destruct outcome as [[]|e]; [done|].
    right. exists r, e, written. split; [done|]. split; [done|].
    by apply write_file_read in Hw.
  - intros. by apply cleanup_removes.
Qed.

Lemma download_file_failure_witness :
  download_file (fun _ => Ok html_page) int_of_digits ∅
    "https://example.org/page" "temp/messenger/1/abc123/thumb.jpg" 0 None
  = (false, ∅)
  /\ cleanup_temp_files 1 "abc123"
       (download_file (fun _ => Ok broken_video) int_of_digits ∅
          "https://cdn.example/v" (get_temp_path 1 "abc123" "v.mp4") 0
          None).2
     !! get_temp_path 1 "abc123" "v.mp4" = None.
Proof.
  destruct download_file_failure as (Htype & _ & _ & Hclean).
  split.
  - apply (Htype _ _ _ _ _ _ _ html_page); reflexivity.
  - apply Hclean; reflexivity.
Defined.

(** C7 as stated fails: when the body breaks after two bytes,
    [download_file] returns [False] and the two bytes are at the
    destination. *)
Lemma download_file_leaves_partial_file :
  let run := download_file (fun _ => Ok broken_video) int_of_digits ∅
               "https://cdn.example/v" "temp/messenger/1/abc123/v.mp4" 0 None in
  run.1 = false
  /\ run.2 !! "temp/messenger/1/abc123/v.mp4" = Some [Byte.x01; Byte.x02].
Proof. intros run. subst run. split; vm_compute; reflexivity. Qed.


(* ===================================================================== *)
(** * Part IV: further properties of the code                             *)
(* ===================================================================== *)

(** ** [download_file]: what it writes and where *)

(** X1. Whatever the outcome, [download_file] leaves the working directory
    where it is and changes no regular file but the one its destination
    names: it removes none and makes no other. A destination without a
    directory part is never written: [os.makedirs] raises for the empty
    path, and the call returns [False] with the file system untouched. *)
Theorem download_file_touches_destination_only
    http_get int_of_str (fs : filesystem) url filename file_size direct_url :
  let run := download_file http_get int_of_str fs url filename file_size
               direct_url in
  cwd run.2 = cwd fs
  /\ (forall cp, resolve run.2 filename <> Some cp ->
                 file_at cp (tree run.2) = file_at cp (tree fs))
  /\ (no_slash filename = true -> run = (false, fs)).
Proof.
  intros run. subst run. split; [apply download_file_cwd|].
  split; [intros cp; apply download_file_files|].
  intros Hplain. unfold download_file.
  destruct (open_download http_get int_of_str url file_size direct_url)
    as [[r|]|e]; [|done..].
  unfold dirname. by rewrite (head_of_no_slash filename Hplain).
Qed.

Lemma download_file_touches_destination_only_witness :
  download_file (fun _ => Ok (unsized_video (stream_of [[Byte.x01]])))
    int_of_digits ∅ "https://cdn.example/v" "v.mp4" 0 None
  = (false, ∅).
Proof.
  apply (download_file_touches_destination_only
           (fun _ => Ok (unsized_video (stream_of [[Byte.x01]])))
           int_of_digits ∅ "https://cdn.example/v" "v.mp4" 0 None).
  reflexivity.
Defined.

(** X2. A response with status 200, an allowed content type and a declared
    size within the limit (or, without the header, a size hint within the
    limit) whose body arrives whole is written out exactly. For a
    destination that [get_temp_path] builds from a session id and a file
    name that are plain names, in a file system where the directory of the
    session exists or can be made and the destination is no directory,
    [download_file] returns [True], the destination holds the bytes of the
    body in order, replacing whatever was there, and every other regular
    file is as it was. *)
Theorem download_file_success
    http_get int_of_str (fs : filesystem) url file_size direct_url r chunks
    chat_id session_id name :
  http_get url = Ok r ->
  status_code r = 200 ->
  valid_content_type r = true ->
  match content_length r with
  | Some h => exists n, int_of_str h = Ok n /\ n <= max_size * 1024 * 1024
  | None => file_size * 1024 * 1024 <= max_size * 1024 * 1024
  end ->
  body r = stream_of chunks ->
  plain_name session_id = true ->
  plain_name name = true ->
  has_nul (get_temp_path chat_id session_id name) = false ->
  can_make fs (session_path chat_id session_id) ->
  is_dir (tree fs) (session_dir fs chat_id session_id ++ [name]) = false ->
  let filename := get_temp_path chat_id session_id name in
  let run := download_file http_get int_of_str fs url filename file_size
               direct_url in
  run.1 = true
  /\ run.2 !! filename = Some (concat chunks)
  /\ file_at (session_dir fs chat_id session_id ++ [name]) (tree run.2)
     = Some (concat chunks)
  /\ (forall cp, cp <> session_dir fs chat_id session_id ++ [name] ->
                 file_at cp (tree run.2) = file_at cp (tree fs)).
Proof.
  intros Hget Hst Hty Hlen Hbody Hs Hn Hnul Hmake Hdest filename run.
  subst filename run.
  assert (open_download http_get int_of_str url file_size direct_url
          = Ok (Some r)) as Hopen.
  { rewrite (open_download_first _ _ _ _ _ r) by done. rewrite Hty.
    cbn [negb]. destruct (content_length r) as [h|].
    - destruct Hlen as (n & -> & Hn'). cbn [rbind].
      by destruct (Z.gtb_spec n (max_size * 1024 * 1024)); [lia|].
    - cbn [rbind].
      by destruct (Z.gtb_spec (file_size * 1024 * 1024)
                     (max_size * 1024 * 1024)); [lia|]. }
  destruct (download_file_whole http_get int_of_str fs url file_size
              direct_url r chunks chat_id session_id name
              Hopen Hbody Hs Hn Hnul Hmake Hdest)
    as (fs2 & -> & Hcwd & Hres & Hfile & Hframe).
  cbn [fst snd]. split; [done|]. split; [|done].
  unfold lookup, filesystem_lookup. by rewrite Hres.
Qed.

Lemma download_file_success_witness :
  (download_file
     (fun _ => Ok (unsized_video (stream_of [[Byte.x01]; []; [Byte.x02]])))
     int_of_digits ∅ "https://cdn.example/v"
     (get_temp_path 7 "abc123" "v.mp4") 0 None).1 = true
  /\ (download_file
        (fun _ => Ok (unsized_video (stream_of [[Byte.x01]; []; [Byte.x02]])))
        int_of_digits ∅ "https://cdn.example/v"
        (get_temp_path 7 "abc123" "v.mp4") 0 None).2
     !! get_temp_path 7 "abc123" "v.mp4"
     = Some [Byte.x01; Byte.x02].
Proof.
  destruct (download_file_success
              (fun _ => Ok (unsized_video
                              (stream_of [[Byte.x01]; []; [Byte.x02]])))
              int_of_digits ∅ "https://cdn.example/v" 0 None
              (unsized_video (stream_of [[Byte.x01]; []; [Byte.x02]]))
              [[Byte.x01]; []; [Byte.x02]] 7 "abc123" "v.mp4")
    as (Hret & Hread & _);
    [reflexivity|reflexivity|reflexivity|simpl; unfold max_size; lia
    |reflexivity|reflexivity|reflexivity|reflexivity
    |split; [reflexivity|intros k; by destruct k as [|[|[|[|[|k]]]]]]
    |reflexivity|].
  split; [exact Hret|exact Hread].
Defined.

(** X3. The fallback URL. When the first response has a status other than
    200 and a non-empty fallback URL was given, [download_file] behaves as
    a download of the fallback URL alone; when the first response has
    status 200 the fallback is ignored; and when the first request raises,
    the fallback is not tried and nothing is written. *)
Theorem download_file_fallback
    http_get int_of_str (fs : filesystem) url filename file_size d :
  (forall r, http_get url = Ok r -> status_code r <> 200 -> d <> EmptyString ->
     download_file http_get int_of_str fs url filename file_size (Some d)
     = download_file http_get int_of_str fs d filename file_size None)
  /\ (forall r, http_get url = Ok r -> status_code r = 200 ->
        download_file http_get int_of_str fs url filename file_size (Some d)
        = download_file http_get int_of_str fs url filename file_size None)
  /\ (forall e, http_get url = Raise e ->
        download_file http_get int_of_str fs url filename file_size (Some d)
        = (false, fs)).
Proof.
  split; [|split].
  - intros r Hget Hst Hd. unfold download_file, open_download.
    rewrite Hget. cbn [rbind default].
    apply Z.eqb_neq in Hst. rewrite Hst.
    apply String.eqb_neq in Hd. rewrite Hd. cbn [negb andb]. unfold id.
    destruct (http_get d) as [r'|e]; cbn [rbind]; [|done].
    by rewrite andb_false_r.
  - intros r Hget Hst. unfold download_file, open_download.
    rewrite Hget. cbn [rbind]. rewrite Hst.
    by change (negb (200 =? 200)) with false.
  - intros e Hget. unfold download_file, open_download. by rewrite Hget.
Qed.

Lemma download_file_fallback_witness :
  download_file
    (fun u => if String.eqb u "https://proxy.example/m"
              then Ok {| status_code := 403; content_type := None;
                         content_length := None; body := Eof |}
              else Ok (unsized_video (stream_of [[Byte.x01]])))
    int_of_digits ∅ "https://proxy.example/m"
    "temp/messenger/1/abc123/v.mp4" 0 (Some "https://cdn.example/direct")
  = download_file
      (fun u => if String.eqb u "https://proxy.example/m"
                then Ok {| status_code := 403; content_type := None;
                           content_length := None; body := Eof |}
                else Ok (unsized_video (stream_of [[Byte.x01]])))
      int_of_digits ∅ "https://cdn.example/direct"
      "temp/messenger/1/abc123/v.mp4" 0 None.
Proof.
  refine (proj1 (download_file_fallback _ _ _ _ _ _ _) _ _ _ _);
    [reflexivity|simpl; lia|done].
Defined.


(** ** The counted download of [search.py] *)

Lemma write_counted_bound s written n outcome out :
  len written = n ->
  n <= max_size_mb * 1024 * 1024 ->
  write_counted s written n = (outcome, Some out) ->
  len out <= max_size_mb * 1024 * 1024.
Proof.
  revert written n. induction s as [|chunk rest IH|e]; intros written n Hw Hn;
    simpl.
  - intros [= _ <-]. lia.
  - destruct (nonempty chunk); [|by apply IH].
    destruct (Z.gtb_spec (n + len chunk) (max_size_mb * 1024 * 1024));
      [done|].
    apply IH; [|lia]. unfold len in *. rewrite length_app. lia.
  - intros [= _ <-]. lia.
Qed.

(** X4. The download of [_download_audio_only_async] never leaves more
    than 50 MB at its destination: if no file was there before, any file
    there afterwards (the loop ended, or broke with an exception) is
    within the limit, and after a too-large outcome there is no file. *)
Theorem download_audio_bounded
    http_get int_of_str (fs : gmap string bytes) file_url file_path :
  fs !! file_path = None ->
  (forall out,
     (download_audio http_get int_of_str fs file_url file_path).2 !! file_path
     = Some out ->
     len out <= max_size_mb * 1024 * 1024)
  /\ ((download_audio http_get int_of_str fs file_url file_path).1
      = AudioTooLarge ->
      (download_audio http_get int_of_str fs file_url file_path).2
        !! file_path = None).
Proof.
  intros Hnone. unfold download_audio.
  destruct (http_get file_url) as [r|e]; [|by split; [intros out; simpl; rewrite Hnone|]].
  destruct ((400 <=? status_code r) && (status_code r <? 600));
    [by split; [intros out; simpl; rewrite Hnone|]|].
  destruct (match content_length r with
            | Some h => if String.eqb h "" then Ok false
                        else rbind (int_of_str h)
                               (fun n => Ok (n >? max_size_mb * 1024 * 1024))
            | None => Ok false
            end) as [[|]|e];
    [by split; [intros out; simpl; rewrite Hnone|]
    | |by split; [intros out; simpl; rewrite Hnone|]].
  destruct (write_counted (body r) [] 0) as [outcome [written|]] eqn:Hw; simpl.
  - split.
    + intros out. rewrite lookup_insert_eq. intros [= <-].
      eapply (write_counted_bound _ [] 0); [done| |done].
      unfold max_size_mb. lia.
    + intros ->. exfalso. revert Hw. generalize (@nil Byte.byte) 0.
      induction (body r) as [|chunk rest IH|e]; intros w n; simpl; [done| |done].
      destruct (nonempty chunk); [|apply IH].
      destruct (n + len chunk >? max_size_mb * 1024 * 1024); [done|apply IH].
  - split; [intros out|intros _]; by rewrite lookup_delete_eq.
Qed.

Lemma download_audio_bounded_witness :
  len [Byte.x01; Byte.x02] <= max_size_mb * 1024 * 1024.
Proof.
  refine (proj1 (download_audio_bounded
                   (fun _ => Ok (unsized_video
                                   (stream_of [[Byte.x01]; [Byte.x02]])))
                   int_of_digits ∅ "https://cdn.example/a" "a.m4a" _) _ _).
  - apply lookup_empty.
  - unfold download_audio. cbn -[insert]. apply lookup_insert_eq.
Defined.

(** ** Cleaning a link *)

Section Rstrip.
Variable strip : ascii -> bool.

Lemma rstrip_split s :
  exists junk, s = rstrip strip s +:+ junk /\ str_all strip junk = true.
Proof.
  induction s as [|c s (junk & Hs & Hjunk)]; [by exists EmptyString|].
  cbn [rstrip]. destruct (rstrip strip s) as [|c' r] eqn:E.
  - destruct (strip c) eqn:Hc.
    + exists (String c junk). split; [by rewrite Hs at 1|]. simpl.
      by rewrite Hc.
    + exists junk. split; [|done]. by rewrite Hs at 1.
  - exists junk. split; [|done]. by rewrite Hs at 1.
Qed.

Lemma rstrip_last s c : str_last (rstrip strip s) = Some c -> strip c = false.
Proof.
  induction s as [|a s IH]; [done|].
  cbn [rstrip]. destruct (rstrip strip s) as [|c' r] eqn:E.
  - destruct (strip a) eqn:Ha; [done|]. simpl. by intros [= <-].
  - intros H. apply IH. exact H.
Qed.

Lemma rstrip_fixed s :
  (forall c, str_last s = Some c -> strip c = false) -> rstrip strip s = s.
Proof.
  induction s as [|a s IH]; [done|]. intros Hlast.
  cbn [rstrip]. destruct s as [|b s].
  - simpl. by rewrite (Hlast a eq_refl).
  - rewrite IH; [done|]. intros c Hc. apply Hlast. exact Hc.
Qed.
End Rstrip.

(** X5. [clean_url] cuts a link after its last character that is not a
    plus, a slash, a space, a tab or a newline: what it removes is a run
    of such characters at the end, what it returns does not end in one,
    and cleaning twice is cleaning once. *)
Theorem clean_url_strips_trailing_junk (url : string) :
  (exists junk, url = clean_url url +:+ junk
                /\ str_all trailing_junk junk = true)
  /\ (forall c, str_last (clean_url url) = Some c -> trailing_junk c = false)
  /\ clean_url (clean_url url) = clean_url url.
Proof.
  unfold clean_url. split; [apply rstrip_split|]. split.
  - apply rstrip_last.
  - apply rstrip_fixed. apply rstrip_last.
Qed.

(** ** Platform detection *)

Lemma startswith_snoc p t j c :
  str_last p = Some c -> c <> j ->
  startswith p (t +:+ String j EmptyString) = startswith p t.
Proof.
  revert t. induction p as [|a p IH]; intros t Hlast Hne; [done|].
  destruct t as [|b t].
  - change (startswith (String a p) (String j EmptyString) = false).
    simpl. destruct p as [|a' p].
    + injection Hlast as ->. apply Ascii.eqb_neq in Hne. by rewrite Hne.
    + by rewrite andb_false_r.
  - change (Ascii.eqb a b && startswith p (t +:+ String j EmptyString)
            = Ascii.eqb a b && startswith p t).
    destruct p as [|a' p]; [by destruct t|].
    by rewrite (IH t Hlast Hne).
Qed.

Lemma contains_snoc p s j c :
  str_last p = Some c -> c <> j ->
  contains p (s +:+ String j EmptyString) = contains p s.
Proof.
  intros Hlast Hne. induction s as [|b s IH].
  - change (startswith p (EmptyString +:+ String j EmptyString)
            || (startswith p EmptyString || false)
            = startswith p EmptyString || false).
    rewrite (startswith_snoc p EmptyString j c) by done.
    by destruct (startswith p EmptyString).
  - change (startswith p (String b s +:+ String j EmptyString)
            || contains p (s +:+ String j EmptyString)
            = startswith p (String b s) || contains p s).
    by rewrite (startswith_snoc p (String b s) j c), IH.
Qed.

Lemma contains_app_junk p s junk c :
  str_last p = Some c ->
  str_all (fun j => negb (Ascii.eqb c j)) junk = true ->
  contains p (s +:+ junk) = contains p s.
Proof.
  intros Hlast. revert s. induction junk as [|j junk IH]; intros s Hjunk.
  - assert (s +:+ EmptyString = s) as ->; [|done].
    induction s as [|x s IHs]; [done|].
    change (String x (s +:+ EmptyString) = String x s). by rewrite IHs.
  - simpl in Hjunk. apply andb_prop in Hjunk as [Hj Hjunk].
    apply negb_true_iff, Ascii.eqb_neq in Hj.
    replace (s +:+ String j junk) with ((s +:+ String j EmptyString) +:+ junk)
      by (by rewrite str_app_assoc).
    rewrite IH by done. by apply (contains_snoc p s j c).
Qed.

Lemma lower_app s t : lower (s +:+ t) = lower s +:+ lower t.
Proof.
  induction s as [|c s IH]; [done|].
  change (String (lower_char c) (lower (s +:+ t))
          = String (lower_char c) (lower s +:+ lower t)).
  by rewrite IH.
Qed.

Lemma lower_junk junk c :
  is_lower c = true ->
  str_all trailing_junk junk = true ->
  str_all (fun j => negb (Ascii.eqb c j)) (lower junk) = true.
Proof.
  intros Hc. induction junk as [|j junk IH]; [done|]. simpl.
  intros [Hj Hjunk]%andb_prop. rewrite (IH Hjunk), andb_true_r.
  apply negb_true_iff, Ascii.eqb_neq. intros ->.
  unfold trailing_junk in Hj. simpl in Hj.
  repeat (apply orb_prop in Hj as [Hj|Hj];
          [apply Ascii.eqb_eq in Hj as ->; by vm_compute in Hc|]).
  done.
Qed.

Lemma contains_lower_clean_url p c url :
  str_last p = Some c -> is_lower c = true ->
  contains p (lower (clean_url url)) = contains p (lower url).
Proof.
  intros Hlast Hc.
  destruct (rstrip_split trailing_junk url) as (junk & Hurl & Hjunk).
  fold (clean_url url) in Hurl. rewrite Hurl at 2. rewrite lower_app.
  symmetry. apply (contains_app_junk p _ _ c); [done|]. by apply lower_junk.
Qed.

(** X6. The characters [clean_url] strips never change where a link is
    sent: for a cleaned link that [is_valid_url] accepts, the platform is
    the one whose marker occurs in the lower-cased text of the link as it
    was submitted, YouTube before TikTok before Instagram, and the resolver
    receives the cleaned link; a cleaned link that is not accepted is
    answered with the invalid-link notice. *)
Theorem handle_url_platform (is_valid_url : string -> bool) (url : string) :
  handle_url is_valid_url url
  = if is_valid_url (clean_url url) then platform_of url (clean_url url)
    else ReplyInvalidUrl.
Proof.
  unfold handle_url, platform_of.
  destruct (is_valid_url (clean_url url)); [|done]. cbn [negb].
  rewrite (contains_lower_clean_url "youtube.com" "m") by done.
  rewrite (contains_lower_clean_url "youtu.be" "e") by done.
  rewrite (contains_lower_clean_url "tiktok.com" "m") by done.
  rewrite (contains_lower_clean_url "instagram.com" "m") by done.
  done.
Qed.

(** ** Normalizing a YouTube link *)

Lemma take_while_app p s rest :
  str_all p s = true ->
  (forall c, str_first rest = Some c -> p c = false) ->
  take_while p (s +:+ rest) = s.
Proof.
  intros Hs Hrest. induction s as [|c s IH].
  - destruct rest as [|c rest]; [done|].
    change (take_while p (String c rest) = EmptyString). simpl.
    by rewrite (Hrest c eq_refl).
  - simpl in Hs. apply andb_prop in Hs as [Hc Hs].
    change (take_while p (String c (s +:+ rest)) = String c s). simpl.
    by rewrite Hc, IH.
Qed.

Lemma re_video_id_app video_id rest :
  video_id <> EmptyString ->
  str_all is_id_char video_id = true ->
  (forall c, str_first rest = Some c -> is_id_char c = false) ->
  re_video_id (video_id +:+ rest) = Some video_id.
Proof.
  intros Hne Hid Hrest. unfold re_video_id.
  rewrite take_while_app by done. by destruct video_id.
Qed.

(** A watch link is not a shorts link. *)
Lemma match_shorts_watch video_id :
  match_shorts ("https://www.youtube.com/watch?v=" +:+ video_id) = None.
Proof. reflexivity. Qed.

(** X7. [normalize_youtube_url] rewrites a shorts link, with or without
    the scheme and the www prefix, to the watch link of its video id, the
    id being the run of letters, digits, underscores and hyphens after
    [shorts/]; whatever follows the id is dropped. Normalizing twice is
    normalizing once. *)
Theorem normalize_youtube_url_shorts :
  (forall scheme www video_id rest,
     In scheme [EmptyString; "http://"; "https://"] ->
     In www [EmptyString; "www."] ->
     video_id <> EmptyString ->
     str_all is_id_char video_id = true ->
     (forall c, str_first rest = Some c -> is_id_char c = false) ->
     normalize_youtube_url
       (scheme +:+ www +:+ "youtube.com/shorts/" +:+ video_id +:+ rest)
     = "https://www.youtube.com/watch?v=" +:+ video_id)
  /\ (forall url,
        normalize_youtube_url (normalize_youtube_url url)
        = normalize_youtube_url url).
Proof.
  split.
  - intros scheme www video_id rest Hscheme Hwww Hne Hid Hrest.
    pose proof (re_video_id_app video_id rest Hne Hid Hrest) as Hgroup.
    set (tail := video_id +:+ rest) in *. clearbody tail.
    unfold normalize_youtube_url.
    assert (match_shorts (scheme +:+ www +:+ "youtube.com/shorts/" +:+ tail)
            = Some video_id) as ->; [|done].
    destruct Hscheme as [<-|[<-|[<-|[]]]]; destruct Hwww as [<-|[<-|[]]];
      cbv -[re_video_id]; by rewrite Hgroup.
  - intros url. destruct (match_shorts url) as [video_id|] eqn:E.
    + assert (normalize_youtube_url url
              = "https://www.youtube.com/watch?v=" +:+ video_id) as ->
        by (unfold normalize_youtube_url; by rewrite E).
      unfold normalize_youtube_url. by rewrite match_shorts_watch.
    + assert (normalize_youtube_url url = url) as ->
        by (unfold normalize_youtube_url; by rewrite E).
      unfold normalize_youtube_url. by rewrite E.
Qed.

Lemma normalize_youtube_url_shorts_witness :
  normalize_youtube_url "https://youtube.com/shorts/aB3_-x?feature=share"
  = "https://www.youtube.com/watch?v=aB3_-x".
Proof.
  apply (proj1 normalize_youtube_url_shorts "https://" EmptyString "aB3_-x"
           "?feature=share").
  - simpl. tauto.
  - simpl. tauto.
  - done.
  - reflexivity.
  - intros c [= <-]. reflexivity.
Defined.

(** ** The key of the search cache *)

Lemma pretty_Z_no_underscore (z : Z) : no_underscore (pretty z) = true.
Proof.
  destruct z as [|p|p]; [done|..].
  - change (no_underscore (pretty (N.pos p)) = true).
    unfold pretty, pretty_N. case_decide; [done|].
    by apply pretty_N_go_no_underscore.
  - change (no_underscore (String "-" (pretty (N.pos p))) = true).
    unfold no_underscore. simpl. fold (no_underscore (pretty (N.pos p))).
    unfold pretty, pretty_N. case_decide; [done|].
    by apply pretty_N_go_no_underscore.
Qed.

(** Two texts that end in an underscore and an underscore-free tail are
    equal only part by part. *)
Lemma underscore_tail_inj a b p q :
  no_underscore p = true -> no_underscore q = true ->
  a +:+ String "_" p = b +:+ String "_" q -> a = b /\ p = q.
Proof.
  intros Hp Hq. revert b. induction a as [|x a IH]; intros [|y b].
  - by intros [= ->].
  - intros H. change (String "_" p = String y (b +:+ String "_" q)) in H.
    injection H as <- ->. exfalso. revert Hp. clear.
    induction b as [|c b IHb]; simpl; [done|].
    unfold no_underscore in *. simpl. destruct (Ascii.eqb c "_"); [done|].
    exact IHb.
  - intros H. change (String x (a +:+ String "_" p) = String "_" q) in H.
    injection H as -> <-. exfalso. revert Hq. clear.
    induction a as [|c a IHa]; simpl; [done|].
    unfold no_underscore in *. simpl. destruct (Ascii.eqb c "_"); [done|].
    exact IHa.
  - intros H.
    change (String x (a +:+ String "_" p) = String y (b +:+ String "_" q)) in H.
    injection H as -> H. by destruct (IH b H) as [-> ->].
Qed.

(** X8. Two searches share a key of the search cache exactly when their
    normalized queries and their limits are the same: an underscore in a
    query cannot make it pass for another query with another limit. *)
Theorem cache_key_injective (normalize : string -> string)
    (query1 query2 : string) (limit1 limit2 : Z) :
  cache_key normalize query1 limit1 = cache_key normalize query2 limit2
  <-> normalize query1 = normalize query2 /\ limit1 = limit2.
Proof.
  unfold cache_key. split.
  - rewrite !append_underscore. intros H.
    apply underscore_tail_inj in H as [Hq Hl];
      [|apply pretty_Z_no_underscore..].
    split; [done|]. by apply (inj pretty).
  - by intros [-> ->].
Qed.

(** ** Button presses *)

(** X9. Every token a resolver puts on a button is passed on to
    [MessengerDownloader.handle_callback]: none of the earlier branches of
    [handle_callback_query] takes it. *)
Theorem resolver_tokens_reach_messenger
    (kind : string) (i : nat) (timestamp session_id : string) :
  handle_callback_query (yt_token i timestamp session_id) = MessengerCallback
  /\ handle_callback_query (tt_token kind i timestamp session_id)
     = MessengerCallback
  /\ handle_callback_query (insta_token kind timestamp session_id)
     = MessengerCallback.
Proof. repeat split; reflexivity. Qed.

(** ** Eviction *)

Lemma dict_get_lookup {V} (k : string) (v : V) d :
  dict_get k d = Some v -> exists i, d !! i = Some (k, v).
Proof.
  induction d as [|[k' v'] d IH]; simpl; [done|].
  destruct (String.eqb k k') eqn:E.
  - apply String.eqb_eq in E as <-. intros [= ->]. by exists 0%nat.
  - intros H. destruct (IH H) as [i Hi]. by exists (S i).
Qed.

(** X10. Lazy eviction. Under a clock that never runs backwards, an entry
    whose expiry lies before the moment a cleanup starts is gone after the
    cleanup, and a [get_from_cache] of its id returns [None] and leaves
    the cache without it. *)
Theorem cleanup_evicts_expired (w : world) (k : string) (e : cache_entry) :
  monotone (clock w) ->
  dict_get k (cache w) = Some e ->
  expires_at e < clock w (reads w) ->
  dict_get k (cache (cleanup_expired_cache w).2) = None
  /\ (get_from_cache k w).1 = None
  /\ dict_get k (cache (get_from_cache k w).2) = None.
Proof.
  intros Hmono Hget Hexp.
  assert (dict_get k (cache (cleanup_expired_cache w).2) = None) as Hgone.
  { destruct (cleanup_run w) as (keys & Hrun & Hkeys). rewrite Hrun. simpl.
    apply del_all_in, Hkeys.
    destruct (dict_get_lookup _ _ _ Hget) as [i Hi].
    exists i, e. split; [done|].
    pose proof (Hmono (reads w) (reads w + i)%nat ltac:(lia)). lia. }
  split; [done|]. rewrite get_run, Hgone. by split.
Qed.

Lemma cleanup_evicts_expired_witness :
  (get_from_cache "abc123"
     {| cache := [("abc123", sample_entry)];
        clock := fun n => 101 + Z.of_nat n; reads := 0 |}).1 = None.
Proof.
  refine (proj1 (proj2 (cleanup_evicts_expired _ "abc123" sample_entry _ _ _))).
  - intros a b Hab. simpl. lia.
  - reflexivity.
  - simpl. lia.
Defined.

(** ** From a resolver's button to the dispatch *)

Lemma get_from_cache_fresh session_id d w :
  dict_ok (cache w) ->
  let w1 := (store_in_cache session_id d w).2 in
  (forall j, (reads w1 <= j < reads (get_from_cache session_id w1).2)%nat ->
             clock w j - clock w (reads w1 - 1) <= cache_ttl) ->
  (get_from_cache session_id w1).1 = Some d.
Proof.
  intros Hok w1 Hlive.
  set (e := {| data := d;
               expires_at := clock w (reads w1 - 1) + cache_ttl |}).
  destruct (cleanup_frame w) as (Hc0 & _ & Hok0).
  assert (clock w1 = clock w /\ dict_ok (cache w1)
          /\ dict_get session_id (cache w1) = Some e) as (Hc1 & Hok1 & Hget1).
  { subst w1 e. rewrite store_run. simpl. rewrite Nat.sub_0_r.
    split; [done|]. split; [by apply dict_set_ok, Hok0|apply dict_get_set_eq]. }
  destruct (cleanup_frame w1) as (Hc1' & Hr1' & _).
  assert (dict_get session_id (cache (cleanup_expired_cache w1).2) = Some e)
    as Hget1'.
  { apply cleanup_keeps; [done..|]. intros j Hj. rewrite Hc1.
    specialize (Hlive j). rewrite get_run in Hlive.
    destruct (dict_get session_id (cache (cleanup_expired_cache w1).2));
      unfold e; simpl in *; lia. }
  rewrite get_run in Hlive |- *. rewrite Hget1' in Hlive |- *. simpl in *.
  specialize (Hlive (reads (cleanup_expired_cache w1).2)). rewrite Hc1.
  destruct (Z.leb_spec (clock w (reads (cleanup_expired_cache w1).2))
              (clock w (reads w1 - 1) + cache_ttl)); [done|lia].
Qed.

Lemma resolve_and_store_world res session_id w :
  resolve_and_store (Ok (Some res)) session_id w
  = (buttons res, (store_in_cache session_id (cache_data res) w).2).
Proof.
  unfold resolve_and_store, bind.
  by destruct (store_in_cache session_id (cache_data res) w) as [[] w'].
Qed.

(** X11. A button of the YouTube resolver, pressed while every clock
    reading is within the TTL of the moment the session was stored, is
    dispatched to the YouTube handler with the number of the format it was
    rendered for and with the very data the resolver cached; the buttons
    are numbered from 1 in the order of the cached formats. The two
    buttons of the Instagram resolver are dispatched to the Instagram
    handler in the same way. *)
Theorem resolver_buttons_dispatch (w : world) (timestamp session_id : string) :
  dict_ok (cache w) ->
  no_underscore timestamp = true ->
  no_underscore session_id = true ->
  (forall http token,
     let run := youtube_download http timestamp session_id w in
     In token run.1 ->
     (forall j,
        (reads run.2 <= j < reads (handle_callback token run.2).2)%nat ->
        clock w j - clock w (reads run.2 - 1) <= cache_ttl) ->
     exists i formats title fmt,
       formats !! i = Some fmt
       /\ token = yt_token (S i) timestamp session_id
       /\ (handle_callback token run.2).1
          = [AnswerLoading (upper (pretty (S i)));
             Dispatch YoutubeHandler (pretty (S i)) timestamp session_id
               (PDict [("yt_formats", PList formats);
                       ("yt_title", PStr title);
                       ("yt_timestamp", PStr timestamp)]);
             CleanupTempFiles session_id])
  /\ (forall unquote http hrefs caption token,
        let run := instagram_download unquote http hrefs caption timestamp
                     session_id w in
        In token run.1 ->
        (forall j,
           (reads run.2 <= j < reads (handle_callback token run.2).2)%nat ->
           clock w j - clock w (reads run.2 - 1) <= cache_ttl) ->
        exists kind title url direct_url,
          In kind ["mp4"; "mp3"]
          /\ token = insta_token kind timestamp session_id
          /\ (handle_callback token run.2).1
             = [AnswerLoading (upper kind);
                Dispatch InstagramHandler kind timestamp session_id
                  (PDict [("insta_title", PStr title);
                          ("insta_url", PStr url);
                          ("insta_direct_url", PStr direct_url);
                          ("insta_timestamp", PStr timestamp)]);
                CleanupTempFiles session_id]).
Proof.
  intros Hok Hts Hsid. split.
  - intros http token run Hin Hlive. subst run.
    unfold youtube_download in *.
    destruct (rbind http (fun response =>
                youtube_resolve response timestamp session_id))
      as [[res|]|e] eqn:E; [|done..].
    assert (youtube_resolve_ok :
              exists response,
                youtube_resolve response timestamp session_id = Ok (Some res)).
    { destruct http as [response|]; [|done]. by exists response. }
    destruct youtube_resolve_ok as [response Hres].
    apply youtube_resolve_some in Hres
      as (formats & title & Hcd & _ & _ & _ & Hbuttons).
    rewrite resolve_and_store_world in *. cbn [fst snd] in *.
    rewrite Hbuttons in Hin. apply list_elem_of_In in Hin.
    apply list_elem_of_lookup in Hin as [i Hi].
    rewrite list_lookup_imap in Hi.
    destruct (formats !! i) as [fmt|] eqn:Hfmt; [|done].
    injection Hi as <-.
    destruct (yt_token_session (S i) timestamp session_id
                (store_in_cache session_id (cache_data res) w).2 Hts Hsid)
      as [Hw Hdispatch].
    exists i, formats, title, fmt. split; [done|]. split; [done|].
    rewrite <- Hcd. apply Hdispatch; [|by rewrite Hcd].
    apply get_from_cache_fresh; [done|].
    intros j Hj. apply Hlive. by rewrite Hw.
  - intros unquote http hrefs caption token run Hin Hlive. subst run.
    unfold instagram_download in *.
    destruct (rbind http (fun response =>
                instagram_resolve unquote response hrefs caption timestamp
                  session_id)) as [[res|]|e] eqn:E; [|done..].
    assert (exists response,
              instagram_resolve unquote response hrefs caption timestamp
                session_id = Ok (Some res)) as [response Hres].
    { destruct http as [response|]; [|done]. by exists response. }
    apply instagram_resolve_some in Hres
      as (title & url & direct & Hcd & _ & _ & Hbuttons).
    rewrite resolve_and_store_world in *. cbn [fst snd] in *.
    rewrite Hbuttons in Hin.
    assert (exists kind, In kind ["mp4"; "mp3"]
                         /\ token = insta_token kind timestamp session_id)
      as (kind & Hkind & ->).
    { destruct Hin as [<-|[<-|[]]]; [exists "mp4"|exists "mp3"];
        (split; [simpl; tauto|done]). }
    assert (no_underscore kind = true) as Hk
      by (by destruct Hkind as [<-|[<-|[]]]).
    destruct (insta_token_session kind timestamp session_id
                (store_in_cache session_id (cache_data res) w).2 Hk Hts Hsid)
      as [Hw Hdispatch].
    exists kind, title, url, direct. split; [done|]. split; [done|].
    rewrite <- Hcd. apply Hdispatch; [|by rewrite Hcd].
    apply get_from_cache_fresh; [done|].
    intros j Hj. apply Hlive. by rewrite Hw.
Qed.

Lemma resolver_buttons_dispatch_witness :
  exists i formats title fmt,
    formats !! i = Some fmt
    /\ "yt_2_20240101000000_abc123" = yt_token (S i) "20240101000000" "abc123"
    /\ (handle_callback "yt_2_20240101000000_abc123"
          (youtube_download (Ok sample_yt_response) "20240101000000" "abc123"
             (init_world clock_seconds)).2).1
       = [AnswerLoading (upper (pretty (S i)));
          Dispatch YoutubeHandler (pretty (S i)) "20240101000000" "abc123"
            (PDict [("yt_formats", PList formats);
                    ("yt_title", PStr title);
                    ("yt_timestamp", PStr "20240101000000")]);
          CleanupTempFiles "abc123"].
Proof.
  apply (proj1 (resolver_buttons_dispatch (init_world clock_seconds)
                  "20240101000000" "abc123" (NoDup_nil_2 : dict_ok []) eq_refl eq_refl)
           (Ok sample_yt_response) "yt_2_20240101000000_abc123").
  - vm_compute. tauto.
  - intros j Hj. vm_compute in Hj. unfold cache_ttl. simpl.
    unfold clock_seconds. lia.
Defined.


(** ** Temporary files of different sessions *)

(** X12. With a session id that is a plain name, [cleanup_temp_files]
    leaves the working directory where it is, removes every regular file
    below the directory of the session and changes no other: the files of
    every other chat and of every other session stay as they were. *)
Theorem cleanup_temp_files_isolated
    (chat_id : Z) (session_id : string) (fs : filesystem) :
  plain_name session_id = true ->
  has_nul session_id = false ->
  let fs' := cleanup_temp_files chat_id session_id fs in
  cwd fs' = cwd fs
  /\ (forall cp, below (session_dir fs chat_id session_id) cp ->
                 file_at cp (tree fs') = None)
  /\ (forall cp, ~ below (session_dir fs chat_id session_id) cp ->
                 file_at cp (tree fs') = file_at cp (tree fs))
  /\ (forall chat_id' session_id' cp,
        (chat_id', session_id') <> (chat_id, session_id) ->
        below (session_dir fs chat_id' session_id') cp ->
        file_at cp (tree fs') = file_at cp (tree fs)).
Proof.
  intros Hs Hnul fs'. subst fs'.
  destruct (cleanup_temp_files_files fs chat_id session_id Hs Hnul)
    as (Hcwd & Hbelow & Hother).
  split; [done|]. split; [done|]. split; [done|].
  intros chat_id' session_id' cp Hne (name' & rest' & ->). apply Hother.
  intros (name & rest & Heq). apply Hne.
  unfold session_dir in Heq. rewrite <- !app_assoc in Heq.
  apply app_inv_head in Heq.
  apply app_inj_1 in Heq as [Heq _]; [|done].
  injection Heq as Hchat ->. by apply (inj pretty) in Hchat as ->.
Qed.

Lemma cleanup_temp_files_isolated_witness :
  file_at ["temp"; "messenger"; "7"; "abc123"; "v.mp4"]
    (tree (cleanup_temp_files 7 "abc123" sample_files)) = None
  /\ file_at ["temp"; "messenger"; "7"; "abc124"; "a.mp3"]
       (tree (cleanup_temp_files 7 "abc123" sample_files))
     = file_at ["temp"; "messenger"; "7"; "abc124"; "a.mp3"]
         (tree sample_files).
Proof.
  destruct (cleanup_temp_files_isolated 7 "abc123" sample_files
              eq_refl eq_refl) as (_ & Hbelow & _ & Hother).
  split.
  - apply Hbelow. by exists "v.mp4", [].
  - apply (Hother 7 "abc124"); [done|]. by exists "a.mp3", [].
Defined.

(** ** Handlers *)

(** [download] returns, sends nothing, leaves the working directory where
    it is and changes no regular file but the one its destination names. *)
Lemma download_local o url filename direct_url fs out :
  exists ok fs',
    download o url filename direct_url (fs, out) = (Ok ok, (fs', out))
    /\ cwd fs' = cwd fs
    /\ forall cp, resolve fs' filename <> Some cp ->
                  file_at cp (tree fs') = file_at cp (tree fs).
Proof.
  unfold download. cbn [fst snd].
  match goal with
  | |- context [let (_, _) := ?e in _] =>
      assert (cwd e.2 = cwd fs
              /\ forall cp, resolve e.2 filename <> Some cp ->
                            file_at cp (tree e.2) = file_at cp (tree fs))
        as Hlocal;
      [|destruct e as [ok fs']; by exists ok, fs']
  end.
  repeat case_match; try done;
    (split; [apply download_file_cwd|intros cp; apply download_file_files]).
Qed.

Section Contained.
Variables (chat_id : Z) (session_id : string).
Hypothesis Hsession : plain_name session_id = true.
Implicit Types (P : filesystem -> Prop) (m : Handler unit).
Local Abbreviation rel := (session_path chat_id session_id).

(** A path of the session names, if anything, a place below the directory
    of the session. *)
Lemma resolve_below fs name cp :
  plain_name name = true ->
  ~ below (cwd fs ++ rel) cp ->
  resolve fs (get_temp_path chat_id session_id name) <> Some cp.
Proof.
  intros Hn Hcp Hres. apply resolve_get_temp_path in Hres as ->; [|done..].
  apply Hcp. by exists name, [].
Qed.

Lemma contained_weaken P (Q : filesystem -> Prop) m :
  (forall fs, P fs -> Q fs) -> contained rel Q m -> contained rel P m.
Proof. intros HPQ Hm fs out HP. apply Hm. by apply HPQ. Qed.

Lemma contained_hret P : contained rel P (hret tt).
Proof.
  intros fs out _. split; [done|]. split; [done|]. exists []. simpl.
  split; [by rewrite app_nil_r|]. split; [lia|constructor].
Qed.

Lemma contained_message P n : contained rel P (send (SendMessage n)).
Proof.
  intros fs out _. split; [done|]. split; [done|].
  exists [SendMessage n]. simpl.
  split; [done|]. split; [lia|]. by repeat constructor.
Qed.

Lemma contained_video name content title :
  plain_name name = true -> content <> [] ->
  contained rel
    (fun fs => file_at ((cwd fs ++ rel) ++ [name]) (tree fs) = Some content)
    (send (SendVideo content title)).
Proof.
  intros Hn Hne fs out Hfs. split; [done|]. split; [done|].
  exists [SendVideo content title]. simpl.
  split; [done|]. split; [lia|]. repeat constructor; [done|]. by exists name.
Qed.

Lemma contained_audio name content title :
  plain_name name = true -> content <> [] ->
  contained rel
    (fun fs => file_at ((cwd fs ++ rel) ++ [name]) (tree fs) = Some content)
    (send (SendAudio content title)).
Proof.
  intros Hn Hne fs out Hfs. split; [done|]. split; [done|].
  exists [SendAudio content title]. simpl.
  split; [done|]. split; [lia|]. repeat constructor; [done|]. by exists name.
Qed.

Lemma contained_lift {A} P (r : result A) (k : A -> Handler unit) :
  (forall a, r = Ok a -> contained rel P (k a)) ->
  contained rel P (hbind (lift r) k).
Proof.
  intros Hk fs out HP. unfold hbind, lift.
  destruct r as [a|e]; [by apply (Hk a)|]. by repeat split.
Qed.

Lemma contained_if P (b : bool) m1 m2 :
  contained rel P m1 -> contained rel P m2 ->
  contained rel P (if b then m1 else m2).
Proof. by destruct b. Qed.

(** A step that sends nothing, leaves the working directory where it is
    and changes regular files below the directory of the session only. *)
Lemma contained_step {A} P (Q : A -> filesystem -> Prop)
    (step : Handler A) (k : A -> Handler unit) :
  (forall fs out, P fs ->
     exists r fs', step (fs, out) = (r, (fs', out))
                   /\ match r with Ok a => Q a fs' | Raise _ => True end
                   /\ cwd fs' = cwd fs
                   /\ forall cp, ~ below (cwd fs ++ rel) cp ->
                                 file_at cp (tree fs') = file_at cp (tree fs)) ->
  (forall a, contained rel (Q a) (k a)) ->
  contained rel P (hbind step k).
Proof.
  intros Hstep Hk fs out HP. unfold hbind.
  destruct (Hstep fs out HP) as (r & fs' & -> & HQ & Hcwd & Hlocal).
  destruct r as [a|e]; [|done].
  destruct (Hk a fs' out HQ) as (Hcwd' & Hlocal' & Hsent).
  rewrite Hcwd in *. split; [done|]. split; [|done].
  intros cp Hcp. by rewrite Hlocal', Hlocal.
Qed.

Lemma contained_download P o url name direct_url (k : bool -> Handler unit) :
  plain_name name = true ->
  (forall ok, contained rel (fun _ => True) (k ok)) ->
  contained rel P
    (hbind (download o url (get_temp_path chat_id session_id name) direct_url)
           k).
Proof.
  intros Hn Hk. apply (contained_step P (fun _ _ => True)); [|done].
  intros fs out _.
  destruct (download_local o url (get_temp_path chat_id session_id name)
              direct_url fs out) as (ok & fs' & -> & Hcwd & Hlocal).
  exists (Ok ok), fs'. split; [done|]. split; [done|]. split; [done|].
  intros cp Hcp. apply Hlocal. apply resolve_below; [done|].
  by rewrite Hcwd.
Qed.

Lemma contained_convert P o input_path name (k : bool -> Handler unit) :
  plain_name name = true ->
  (forall ok, contained rel (fun _ => True) (k ok)) ->
  contained rel P
    (hbind (convert_to_mp3 o input_path
              (get_temp_path chat_id session_id name)) k).
Proof.
  intros Hn Hk. apply (contained_step P (fun _ _ => True)); [|done].
  intros fs out _. unfold convert_to_mp3. cbn [fst snd].
  pose proof (makedirs_cwd
                (dirname (get_temp_path chat_id session_id name)) fs) as Hc.
  pose proof (makedirs_files
                (dirname (get_temp_path chat_id session_id name)) fs) as Hf.
  destruct (makedirs (dirname (get_temp_path chat_id session_id name)) fs)
    as [[[]|e] fs1]; cbn [snd] in *;
    [|by eexists (Ok false), _].
  destruct (out_pydub o (fs1 !! input_path)) as [[ok written]|];
    [|by eexists (Ok false), _].
  pose proof (write_file_cwd (get_temp_path chat_id session_id name)
                written fs1) as Hc'.
  pose proof (write_file_files (get_temp_path chat_id session_id name)
                written fs1) as Hf'.
  destruct (write_file (get_temp_path chat_id session_id name) written fs1)
    as [[[]|e] fs2]; cbn [snd] in *;
    [|by eexists (Ok false), _].
  eexists (Ok ok), _. split; [done|]. split; [done|].
  split; [congruence|].
  intros cp Hcp. rewrite Hf'; [done|]. apply resolve_below; [done|].
  by rewrite Hc', Hc.
Qed.

Lemma contained_file_ready P name (k : option bytes -> Handler unit) :
  plain_name name = true ->
  (forall content, content <> [] ->
     contained rel
       (fun fs => file_at ((cwd fs ++ rel) ++ [name]) (tree fs) = Some content)
       (k (Some content))) ->
  contained rel (fun _ => True) (k None) ->
  contained rel P
    (hbind (file_ready (get_temp_path chat_id session_id name)) k).
Proof.
  intros Hn Hsome Hnone.
  apply (contained_step P
           (fun ready fs =>
              match ready with
              | Some content =>
                  content <> []
                  /\ file_at ((cwd fs ++ rel) ++ [name]) (tree fs)
                     = Some content
              | None => True
              end)).
  - intros fs out _. unfold file_ready. cbn [fst].
    destruct (resolve fs (get_temp_path chat_id session_id name))
      as [cp|] eqn:Hres; [|by eexists (Ok None), fs].
    apply resolve_get_temp_path in Hres as ->; [|done..].
    destruct (node_at (session_dir fs chat_id session_id ++ [name]) (tree fs))
      as [[content|d]|] eqn:Hnode;
      [|by eexists (Raise OSError), fs|by eexists (Ok None), fs].
    eexists (Ok _), fs. split; [done|]. split; [|done].
    destruct content as [|b content]; [done|]. cbn [nonempty].
    split; [done|]. unfold file_at. fold (session_dir fs chat_id session_id).
    by rewrite Hnode.
  - intros [content|].
    + intros fs out [Hne Hfs]. by apply (Hsome content Hne).
    + exact Hnone.
Qed.

Lemma contained_try_except P body n :
  contained rel P body ->
  contained rel P (try_except body (send (SendMessage n))).
Proof.
  intros Hbody fs out HP. unfold try_except.
  destruct (Hbody fs out HP) as (Hcwd & Hlocal & Hsent).
  destruct (body (fs, out)) as [[[]|e] [fs' out']]; [done|].
  simpl in *. split; [done|]. split; [done|]. subst out'.
  exists [SendMessage n]. split; [done|]. split; [simpl; lia|].
  by repeat constructor.
Qed.
End Contained.

Lemma try_except_returns body n st :
  exists st', try_except body (send (SendMessage n)) st = (Ok tt, st').
Proof.
  unfold try_except. destruct (body st) as [[[]|e] st']; by eexists.
Qed.

(** The name of a media file is plain when the parts the handler puts
    into it hold no slash. *)
Lemma media_name_plain c lit rest :
  negb (Ascii.eqb c "/") && negb (Ascii.eqb c ".") = true ->
  no_slash lit = true -> no_slash rest = true ->
  plain_name (String c lit +:+ rest) = true.
Proof.
  intros Hc Hlit Hrest.
  change (plain_name (String c (lit +:+ rest)) = true).
  apply plain_name_cons; [done|]. by rewrite no_slash_app, Hlit, Hrest.
Qed.

Ltac plain_media :=
  apply media_name_plain;
  [ reflexivity
  | reflexivity
  | rewrite ?no_slash_app; repeat (apply andb_true_intro; split);
    first [assumption | reflexivity] ].

(** Applies the rules of [contained] along the text of a handler. *)
Ltac contain :=
  repeat first
    [ apply contained_message
    | apply contained_hret
    | apply contained_try_except
    | apply contained_lift; intros ? _
    | apply contained_download; [assumption | plain_media | intros ?]
    | apply contained_convert; [assumption | plain_media | intros ?]
    | apply contained_file_ready; [assumption | plain_media | intros ? ? |]
    | eapply contained_video; [plain_media | assumption]
    | eapply contained_audio; [plain_media | assumption]
    | match goal with
      | |- contained _ _ (if ?b then _ else _) => destruct b
      | |- contained _ _ (match ?x with _ => _ end) => destruct x
      end ].

(** An element a list index selects is an element of the list. *)
Lemma py_index_In l i x : py_index (PList l) i = Ok x -> In x l.
Proof.
  unfold py_index.
  destruct ((0 <=? (if i <? 0 then i + Z.of_nat (length l) else i))
            && ((if i <? 0 then i + Z.of_nat (length l) else i)
                <? Z.of_nat (length l))); [|done].
  destruct (nth_error l _) as [y|] eqn:E; [|done].
  intros [= <-]. by eapply nth_error_In.
Qed.

Lemma youtube_handler_contained o format_type timestamp session_id cache_data
    chat_id :
  plain_name session_id = true -> no_slash timestamp = true ->
  plain_extensions o cache_data = true ->
  contained (session_path chat_id session_id) (fun _ => True)
    (_handle_youtube_callback o format_type timestamp session_id cache_data
       chat_id).
Proof.
  intros Hs Hts Hext. unfold _handle_youtube_callback. cbv zeta.
  apply contained_try_except.
  apply contained_lift; intros n _.
  apply contained_lift; intros formats Hformats.
  apply contained_lift; intros title _.
  apply contained_lift; intros size _.
  destruct (n - 1 >=? size); [apply contained_message|].
  apply contained_lift; intros selected Hsel.
  apply contained_lift; intros extension Hextension.
  assert (no_slash (fmt_str (out_str o) extension) = true) as Hplain.
  { unfold plain_extensions in Hext. rewrite Hformats in Hext.
    destruct formats as [| | | |l|]; try done.
    - unfold py_index in Hsel.
      repeat case_match; try done; injection Hsel as <-;
        discriminate Hextension.
    - apply py_index_In in Hsel.
      rewrite forallb_forall in Hext. specialize (Hext selected Hsel).
      unfold plain_extension in Hext. by rewrite Hextension in Hext. }
  contain.
Qed.

Lemma tiktok_handler_contained o data format_type timestamp session_id
    cache_data chat_id :
  plain_name session_id = true -> no_slash timestamp = true ->
  contained (session_path chat_id session_id) (fun _ => True)
    (_handle_tiktok_callback o data format_type timestamp session_id
       cache_data chat_id).
Proof. intros Hs Hts. unfold _handle_tiktok_callback. cbv zeta. contain. Qed.

Lemma instagram_handler_contained o format_type timestamp session_id
    cache_data chat_id :
  plain_name session_id = true -> no_slash timestamp = true ->
  contained (session_path chat_id session_id) (fun _ => True)
    (_handle_instagram_callback o format_type timestamp session_id cache_data
       chat_id).
Proof. intros Hs Hts. unfold _handle_instagram_callback. cbv zeta. contain. Qed.

Lemma dispatch_contained o chat_id data h format_type timestamp session_id
    cache_data :
  plain_name session_id = true -> no_slash timestamp = true ->
  plain_extensions o cache_data = true ->
  contained (session_path chat_id session_id) (fun _ => True)
    (run_event o chat_id data
       (Dispatch h format_type timestamp session_id cache_data))
  /\ forall st, exists st',
       run_event o chat_id data
         (Dispatch h format_type timestamp session_id cache_data) st
       = (Ok tt, st').
Proof.
  intros Hs Hts Hext. cbn [run_event].
  split; [apply contained_try_except; destruct h|intros st; apply try_except_returns].
  - by apply youtube_handler_contained.
  - by apply tiktok_handler_contained.
  - by apply instagram_handler_contained.
Qed.

(** X13. With a session id that is a plain name, a timestamp without a
    slash and cached extensions without a slash, a dispatch to any of the
    three handlers, sending taken to succeed, never raises, sends at most
    one message or media, leaves the working directory where it is, sends
    a video or an audio only when it is the non-empty content of a regular
    file in the directory of the session, and changes no regular file
    that is not below that directory. *)
Theorem handlers_stay_in_session_dir
    (o : outside) (chat_id : Z) (data : string) (h : platform_handler)
    (format_type timestamp session_id : string) (cache_data : pyval)
    (fs : filesystem) :
  plain_name session_id = true ->
  no_slash timestamp = true ->
  plain_extensions o cache_data = true ->
  let run := run_event o chat_id data
               (Dispatch h format_type timestamp session_id cache_data)
               (fs, []) in
  run.1 = Ok tt
  /\ (length run.2.2 <= 1)%nat
  /\ cwd run.2.1 = cwd fs
  /\ Forall (delivers (session_dir fs chat_id session_id) run.2.1) run.2.2
  /\ (forall cp,
        ~ below (session_dir fs chat_id session_id) cp ->
        file_at cp (tree run.2.1) = file_at cp (tree fs)).
Proof.
  intros Hs Hts Hext run. subst run.
  destruct (dispatch_contained o chat_id data h format_type timestamp
              session_id cache_data Hs Hts Hext) as [Hc Hret].
  destruct (Hret (fs, [])) as [st' Hrun].
  destruct (Hc fs [] I) as (Hcwd & Hlocal & Hsent).
  rewrite Hrun in *. cbn [fst snd] in *.
  destruct Hsent as (acts & -> & Hlen & Hdel). by rewrite app_nil_l.
Qed.

Lemma handlers_stay_in_session_dir_witness :
  (run_event sample_outside 7 "yt_2_20240101000000_abc123"
     (Dispatch YoutubeHandler "2" "20240101000000" "abc123"
        (PDict sample_yt_session)) (∅, [])).1 = Ok tt
  /\ (length
        (run_event sample_outside 7 "yt_2_20240101000000_abc123"
           (Dispatch YoutubeHandler "2" "20240101000000" "abc123"
              (PDict sample_yt_session)) (∅, [])).2.2 <= 1)%nat.
Proof.
  destruct (handlers_stay_in_session_dir sample_outside 7
              "yt_2_20240101000000_abc123" YoutubeHandler "2"
              "20240101000000" "abc123" (PDict sample_yt_session) ∅
              eq_refl eq_refl eq_refl) as (Hret & Hlen & _).
  split; [exact Hret|exact Hlen].
Defined.

(** The events of the router come in three shapes. *)
Lemma handle_callback_events data w :
  (handle_callback data w).1 = [AnswerInvalidButton]
  \/ (handle_callback data w).1 = [AnswerSessionExpired]
  \/ exists label dispatch,
       (handle_callback data w).1
       = AnswerLoading label :: dispatch
         ++ [CleanupTempFiles (part 3 (split "_" data))]
       /\ (dispatch = []
           \/ exists h format_type cache_data,
                dispatch = [Dispatch h format_type (part 2 (split "_" data))
                                     (part 3 (split "_" data)) cache_data]).
Proof.
  unfold handle_callback.
  destruct (length (split "_" data) <? 3)%nat; [by left|].
  destruct (4 <=? length (split "_" data))%nat; [|by left].
  unfold bind.
  destruct (get_from_cache (part 3 (split "_" data)) w) as [[cd|] w'];
    [|by right; left].
  destruct (negb (truthy cd)); [by right; left|].
  right. right. simpl. eexists _, _. split; [reflexivity|].
  destruct (String.eqb (part 0 (split "_" data)) "yt");
    [right; by eexists _, _, _|].
  destruct (String.eqb (part 0 (split "_" data)) "tt");
    [right; by eexists _, _, _|].
  destruct (String.eqb (part 0 (split "_" data)) "insta");
    [right; by eexists _, _, _|].
  by left.
Qed.

(** X14. Serving a button press whose session id is a plain name and
    whose timestamp holds no slash, the cached extensions holding none
    either. When the router rejects the token or finds no session,
    nothing is sent by a handler and the file system is untouched.
    Otherwise at most one message or media is sent, the working directory
    is where it was, no regular file is left below the directory of the
    session, and every other regular file is as it was before the
    press. *)
Theorem serve_callback_cleans_up
    (o : outside) (chat_id : Z) (data : string) (w : world)
    (fs : filesystem) :
  plain_name (part 3 (split "_" data)) = true ->
  has_nul (part 3 (split "_" data)) = false ->
  no_slash (part 2 (split "_" data)) = true ->
  (forall h format_type timestamp session_id cache_data,
     In (Dispatch h format_type timestamp session_id cache_data)
        (handle_callback data w).1 ->
     plain_extensions o cache_data = true) ->
  let served := serve_callback o chat_id data w fs in
  let dir := session_dir fs chat_id (part 3 (split "_" data)) in
  (length served.1.2 <= 1)%nat
  /\ ((In served.1.1 [[AnswerInvalidButton]; [AnswerSessionExpired]]
       /\ served.1.2 = [] /\ served.2.2 = fs)
      \/ (In (CleanupTempFiles (part 3 (split "_" data))) served.1.1
          /\ cwd served.2.2 = cwd fs
          /\ (forall cp, below dir cp -> file_at cp (tree served.2.2) = None)
          /\ (forall cp, ~ below dir cp ->
                file_at cp (tree served.2.2) = file_at cp (tree fs)))).
Proof.
  intros Hs Hnul Hts Hext served dir. subst served dir.
  unfold serve_callback.
  pose proof (handle_callback_events data w) as Hev.
  destruct (handle_callback data w) as [events w']. cbn [fst snd] in *.
  destruct Hev as [->|[->|(label & dispatch & -> & Hd)]].
  - simpl. split; [lia|]. left. split; [tauto|done].
  - simpl. split; [lia|]. left. split; [tauto|done].
  - assert (In (CleanupTempFiles (part 3 (split "_" data)))
              (AnswerLoading label :: dispatch
               ++ [CleanupTempFiles (part 3 (split "_" data))])) as Hin.
    { right. apply in_or_app. right. by left. }
    destruct Hd as [->|(h & format_type & cd & ->)].
    + destruct (cleanup_temp_files_files fs chat_id _ Hs Hnul)
        as (Hcwd & Hbelow & Hother).
      simpl. split; [lia|]. right. done.
    + pose proof (dispatch_contained o chat_id data h format_type
                    (part 2 (split "_" data)) (part 3 (split "_" data)) cd
                    Hs Hts) as [Hc Hret].
      { eapply Hext. right. by left. }
      destruct (Hret (fs, [])) as [[fs1 acts] Hrun].
      destruct (Hc fs [] I) as (Hcwd1 & Hlocal & Hsent).
      cbn [app run_events].
      remember (run_event o chat_id data
                  (Dispatch h format_type (part 2 (split "_" data))
                     (part 3 (split "_" data)) cd)) as handler eqn:Hhandler.
      clear Hhandler Hc Hret.
      unfold hbind. cbn [run_event hret fst snd].
      rewrite Hrun in *. cbn [fst snd] in *.
      destruct Hsent as (acts' & -> & Hlen & _).
      destruct (cleanup_temp_files_files fs1 chat_id _ Hs Hnul)
        as (Hcwd & Hbelow & Hother).
      unfold session_dir in *. rewrite Hcwd1 in *.
      split; [by rewrite app_nil_l|]. right. split; [done|].
      split; [done|]. split; [done|].
      intros cp Hcp. rewrite Hother by done. by apply Hlocal.
Qed.

Lemma serve_callback_cleans_up_witness :
  (length
     (serve_callback sample_outside 7 "yt_2_20240101000000_abc123"
        (youtube_download (Ok sample_yt_response) "20240101000000" "abc123"
           (init_world clock_seconds)).2 ∅).1.2 <= 1)%nat.
Proof.
  refine (proj1 (serve_callback_cleans_up sample_outside 7
                   "yt_2_20240101000000_abc123"
                   (youtube_download (Ok sample_yt_response) "20240101000000"
                      "abc123" (init_world clock_seconds)).2 ∅ _ _ _ _));
    [reflexivity|reflexivity|reflexivity|].
  intros h format_type timestamp session_id cache_data Hin.
  vm_compute in Hin.
  destruct Hin as [Hin|[Hin|[Hin|[]]]]; [done| |done].
  by injection Hin as <- <- <- <- <-.
Defined.

(** ** What a press delivers *)

(** A link the polling loop returns is never empty. *)
Lemma poll_loop_truthy endpoint n attempt url name tr :
  poll_loop endpoint n attempt = (Some (url, name), tr) ->
  truthy url = true.
Proof.
  revert attempt tr. induction n as [|n IH]; intros attempt tr; simpl; [done|].
  destruct (check_status (endpoint attempt)) as [[[u nm]|]|e] eqn:E.
  - intros [= -> -> _]. apply check_status_completed in E.
    by destruct E as (? & ? & _ & _ & _ & _ & _ & Hu & _).
  - destruct (poll_loop endpoint n (S attempt)) as [r tr'] eqn:Hrun.
    intros [= -> _]. by eapply IH.
  - destruct (attempt <? 9)%nat; [|done].
    destruct (poll_loop endpoint n (S attempt)) as [r tr'] eqn:Hrun.
    intros [= -> _]. by eapply IH.
Qed.

(** [download] of a link that answers well and whose body arrives whole,
    into a directory of a session that can be made. *)
Lemma download_whole (o : outside) (u : string) (r : response)
    (chunks : list bytes) (fs : filesystem) (out : list bot_action)
    chat_id session_id name :
  out_get o u = Ok r ->
  status_code r = 200 ->
  valid_content_type r = true ->
  match content_length r with
  | Some h => exists m, out_int o h = Ok m /\ m <= max_size * 1024 * 1024
  | None => True
  end ->
  body r = stream_of chunks ->
  plain_name session_id = true -> plain_name name = true ->
  has_nul (get_temp_path chat_id session_id name) = false ->
  can_make fs (session_path chat_id session_id) ->
  is_dir (tree fs) (session_dir fs chat_id session_id ++ [name]) = false ->
  exists fs2,
    download o (PStr u) (get_temp_path chat_id session_id name) PNone (fs, out)
    = (Ok true, (fs2, out))
    /\ cwd fs2 = cwd fs
    /\ resolve fs2 (get_temp_path chat_id session_id name)
       = Some (session_dir fs chat_id session_id ++ [name])
    /\ file_at (session_dir fs chat_id session_id ++ [name]) (tree fs2)
       = Some (concat chunks)
    /\ (forall cp, cp <> session_dir fs chat_id session_id ++ [name] ->
                   file_at cp (tree fs2) = file_at cp (tree fs)).
Proof.
  intros Hget Hst Hty Hlen Hbody Hs Hn Hnul Hmake Hdest.
  unfold download. cbn [fst snd truthy].
  assert (open_download (out_get o) (out_int o) u 0 None = Ok (Some r))
    as Hopen.
  { rewrite (open_download_first _ _ _ _ _ r) by done. rewrite Hty.
    cbn [negb]. destruct (content_length r) as [h|].
    - destruct Hlen as (m & -> & Hm). cbn [rbind].
      by destruct (Z.gtb_spec m (max_size * 1024 * 1024)); [lia|].
    - reflexivity. }
  destruct (download_file_whole (out_get o) (out_int o) fs u 0 None r chunks
              chat_id session_id name Hopen Hbody Hs Hn Hnul Hmake Hdest)
    as (fs2 & -> & Hrest).
  by exists fs2.
Qed.

(** X15. The YouTube handler end to end. When the number on the button
    reads as [n], the format at index [n - 1] of the cached list has a
    text extension and a media URL whose job completes with a link, and
    that link answers with status 200, an allowed content type, a declared
    size within the limit if any, and a body that arrives whole and is not
    empty, then, the session id being a plain name, the timestamp and the
    extension holding no slash, in a file system where the directory of
    the session exists or can be made and the destination is no
    directory, the handler writes the body to
    [youtube_media_<timestamp>.<extension>] in the directory of the
    session, changes no other regular file, and sends exactly that content
    once: as a video when the extension lower-cases to [mp4], as an audio
    otherwise. *)
Theorem youtube_handler_delivers
    (o : outside) (format_type timestamp session_id : string)
    (cache_data : list (string * pyval)) (chat_id n : Z)
    (formats : list pyval) (fmt media_url name : pyval) (ext u : string)
    (r : response) (chunks : list bytes) (fs : filesystem) :
  out_int o format_type = Ok n ->
  dict_get "yt_formats" cache_data = Some (PList formats) ->
  py_index (PList formats) (n - 1) = Ok fmt ->
  py_getitem fmt "extension" = Ok (PStr ext) ->
  py_getitem fmt "url" = Ok media_url ->
  (_get_final_download_url (out_job o media_url)).1 = Some (PStr u, name) ->
  out_get o u = Ok r ->
  status_code r = 200 ->
  valid_content_type r = true ->
  match content_length r with
  | Some h => exists m, out_int o h = Ok m /\ m <= max_size * 1024 * 1024
  | None => True
  end ->
  body r = stream_of chunks ->
  concat chunks <> [] ->
  plain_name session_id = true ->
  no_slash timestamp = true ->
  no_slash ext = true ->
  let media := "youtube_media_" +:+ timestamp +:+ "." +:+ ext in
  has_nul (get_temp_path chat_id session_id media) = false ->
  can_make fs (session_path chat_id session_id) ->
  is_dir (tree fs) (session_dir fs chat_id session_id ++ [media]) = false ->
  let title := default (PStr "YouTube Video") (dict_get "yt_title" cache_data) in
  let run := _handle_youtube_callback o format_type timestamp session_id
               (PDict cache_data) chat_id (fs, []) in
  run.1 = Ok tt
  /\ run.2.2 = [if String.eqb (lower ext) "mp4"
                then SendVideo (concat chunks) title
                else SendAudio (concat chunks) title]
  /\ run.2.1 !! get_temp_path chat_id session_id media = Some (concat chunks)
  /\ file_at (session_dir fs chat_id session_id ++ [media]) (tree run.2.1)
     = Some (concat chunks)
  /\ (forall cp, cp <> session_dir fs chat_id session_id ++ [media] ->
                 file_at cp (tree run.2.1) = file_at cp (tree fs)).
Proof.
  intros Hint Hformats Hfmt Hext Hurl Hjob Hget Hst Hty Hlen Hbody Hne
         Hs Hts Hex media Hnul Hmake Hdest title run.
  subst run.
  assert (plain_name media = true) as Hmedia.
  { subst media. by plain_media. }
  assert ((n - 1 >=? Z.of_nat (length formats)) = false) as Hin.
  { rewrite Z.geb_leb. apply Z.leb_gt. unfold py_index in Hfmt.
    destruct (n - 1 <? 0) eqn:Hneg; [apply Z.ltb_lt in Hneg; lia|].
    destruct (n - 1 <? Z.of_nat (length formats)) eqn:Hlt;
      [by apply Z.ltb_lt in Hlt|].
    by rewrite andb_false_r in Hfmt. }
  assert (truthy (PStr u) = true) as Hu.
  { unfold _get_final_download_url in Hjob.
    destruct (poll_loop (out_job o media_url) max_attempts 0) as [found tr]
      eqn:Hrun.
    cbn [fst] in Hjob. subst found. by eapply poll_loop_truthy. }
  destruct (download_whole o u r chunks fs [] chat_id session_id media
              Hget Hst Hty Hlen Hbody Hs Hmedia Hnul Hmake Hdest)
    as (fs2 & Hdown & Hcwd & Hres & Hfile & Hframe).
  assert (file_ready (get_temp_path chat_id session_id media) (fs2, [])
          = (Ok (Some (concat chunks)), (fs2, []))) as Hready.
  { unfold file_ready. cbn [fst]. rewrite Hres.
    unfold file_at in Hfile.
    destruct (node_at (session_dir fs chat_id session_id ++ [media])
                (tree fs2)) as [[content|d]|]; [|done..].
    injection Hfile as ->. by destruct (concat chunks). }
  unfold _handle_youtube_callback, try_except.
  cbv [hbind lift]. rewrite Hint. cbv beta iota.
  change (py_get (PDict cache_data) "yt_formats" (PList []))
    with (Ok (default (PList []) (dict_get "yt_formats" cache_data))).
  rewrite Hformats. cbv beta iota.
  change (py_get (PDict cache_data) "yt_title" (PStr "YouTube Video"))
    with (Ok title).
  cbv beta iota.
  change (py_len (default (PList []) (Some (PList formats))))
    with (Ok (Z.of_nat (length formats))).
  cbv beta iota. rewrite Hin.
  change (default (PList []) (Some (PList formats))) with (PList formats).
  rewrite Hfmt. cbv beta iota. rewrite Hext. cbv beta iota.
  rewrite Hurl. cbv beta iota. rewrite Hjob. cbv beta iota.
  rewrite Hu. cbn [negb fmt_str]. fold media.
  rewrite Hdown. cbv beta iota. rewrite Hready. cbv beta iota.
  cbn [py_lower]. cbv beta iota.
  assert (fs2 !! get_temp_path chat_id session_id media
          = Some (concat chunks)) as Hread.
  { unfold lookup, filesystem_lookup. by rewrite Hres. }
  by destruct (String.eqb (lower ext) "mp4").
Qed.

Lemma youtube_handler_delivers_witness :
  (_handle_youtube_callback sample_outside "2" "20240101000000" "abc123"
     (PDict sample_yt_session) 7 (∅, [])).2.2
  = [SendAudio [Byte.x01; Byte.x02] (PStr "clip")]
  /\ (_handle_youtube_callback sample_outside "2" "20240101000000" "abc123"
        (PDict sample_yt_session) 7 (∅, [])).2.1
     !! get_temp_path 7 "abc123" "youtube_media_20240101000000.m4a"
     = Some [Byte.x01; Byte.x02].
Proof.
  destruct (youtube_handler_delivers sample_outside "2" "20240101000000"
              "abc123" sample_yt_session 7 2
              [PDict [("url", PStr "https://media.example/1");
                      ("extension", PStr "mp4")];
               PDict [("url", PStr "https://media.example/2");
                      ("extension", PStr "m4a")]]
              (PDict [("url", PStr "https://media.example/2");
                      ("extension", PStr "m4a")])
              (PStr "https://media.example/2") (PStr "a.m4a") "m4a"
              "https://cdn.example/a.m4a"
              (unsized_video (stream_of [[Byte.x01]; [Byte.x02]]))
              [[Byte.x01]; [Byte.x02]] ∅)
    as (_ & Hsent & Hread & _);
    [reflexivity|reflexivity|reflexivity|reflexivity|reflexivity|reflexivity
    |reflexivity|reflexivity|reflexivity|exact I|reflexivity|discriminate
    |reflexivity|reflexivity|reflexivity|reflexivity
    |split; [reflexivity|intros k; by destruct k as [|[|[|[|[|k]]]]]]
    |reflexivity|].
  split; [exact Hsent|exact Hread].
Defined.

(** ** The buttons of a TikTok link *)

Lemma nth_error_lookup {A} (l : list A) (j : nat) : nth_error l j = l !! j.
Proof. revert j. induction l as [|x l IH]; intros [|j]; simpl; auto. Qed.

Lemma split_length sep s : (1 <= length (split sep s))%nat.
Proof.
  induction s as [|c s IH]; simpl; [lia|].
  destruct (Ascii.eqb c sep); simpl; [lia|].
  destruct (split sep s); simpl; lia.
Qed.

(** The head of a TikTok token, whatever the timestamp and the session id. *)
Lemma split_tt_token_head kind i timestamp session_id :
  no_underscore kind = true ->
  split "_" (tt_token kind i timestamp session_id)
  = "tt" :: kind :: pretty i :: split "_" (timestamp +:+ "_" +:+ session_id).
Proof.
  intros Hk. unfold tt_token.
  change ("tt_" +:+ ?r) with ("tt" +:+ String "_" r).
  rewrite split_app by done.
  rewrite !append_underscore.
  rewrite split_app by done.
  by rewrite split_app by apply pretty_nat_no_underscore.
Qed.

(** Every button of the loop stands for a link of the list, carries the
    number of that link, and is an MP4 button for a link whose type has
    MP4 in it, an MP3 button for a link whose type has MP3 but not MP4. *)
Lemma tt_buttons_links links i timestamp session_id keyboard button :
  tt_buttons links i timestamp session_id = Ok keyboard ->
  In button keyboard ->
  exists (j : nat) (link : pyval) (kind : string) (link_type : pyval),
    links !! j = Some link
    /\ button = tt_token kind (i + j) timestamp session_id
    /\ (forall dflt, py_get link "t" dflt = Ok link_type)
    /\ ((kind = "mp4" /\ py_contains_str "MP4" link_type = Ok true)
        \/ (kind = "mp3" /\ py_contains_str "MP4" link_type = Ok false
            /\ py_contains_str "MP3" link_type = Ok true)).
Proof.
  revert i keyboard. induction links as [|link links IH]; intros i keyboard.
  - intros [= <-] [].
  - cbn [tt_buttons]. destruct link as [| | | | |d]; try done.
    cbn [py_get rbind].
    assert (forall needle,
              py_contains_str needle (default (PStr "N/A") (dict_get "t" d))
              = Ok true ->
              In needle ["MP4"; "MP3"] ->
              forall dflt,
                py_get (PDict d) "t" dflt
                = Ok (default (PStr "N/A") (dict_get "t" d))) as Hpresent.
    { intros needle Hc Hin dflt. cbn [py_get].
      destruct (dict_get "t" d); [done|].
      by destruct Hin as [<-|[<-|[]]]. }
    assert (forall more,
              tt_buttons links (S i) timestamp session_id = Ok more ->
              In button more ->
              exists j link kind link_type,
                (PDict d :: links) !! j = Some link
                /\ button = tt_token kind (i + j) timestamp session_id
                /\ (forall dflt, py_get link "t" dflt = Ok link_type)
                /\ ((kind = "mp4" /\ py_contains_str "MP4" link_type = Ok true)
                    \/ (kind = "mp3"
                        /\ py_contains_str "MP4" link_type = Ok false
                        /\ py_contains_str "MP3" link_type = Ok true)))
      as Hrest.
    { intros more Hmore Hin.
      destruct (IH _ _ Hmore Hin) as (j & l & kind & lt & Hj & -> & Ht & Hk).
      exists (S j), l, kind, lt. split; [done|].
      split; [by rewrite Nat.add_succ_r|done]. }
    destruct (py_contains_str "MP4" (default (PStr "N/A") (dict_get "t" d)))
      as [[|]|e] eqn:Hmp4; cbn [rbind]; [| |done].
    + destruct (tt_buttons links (S i) timestamp session_id) as [more|e]
        eqn:Hmore; cbn [rbind]; [|done].
      intros [= <-] [<-|Hin]; [|by eapply Hrest].
      exists 0%nat, (PDict d), "mp4", (default (PStr "N/A") (dict_get "t" d)).
      split; [done|]. split; [by rewrite Nat.add_0_r|].
      split; [|by left]. apply (Hpresent "MP4"); [done|by left].
    + destruct (py_contains_str "MP3" (default (PStr "N/A") (dict_get "t" d)))
        as [[|]|e] eqn:Hmp3; cbn [rbind]; [| |done];
        (destruct (tt_buttons links (S i) timestamp session_id) as [more|e]
           eqn:Hmore; cbn [rbind]; [|done]).
      * intros [= <-] [<-|Hin]; [|by eapply Hrest].
        exists 0%nat, (PDict d), "mp3", (default (PStr "N/A") (dict_get "t" d)).
        split; [done|]. split; [by rewrite Nat.add_0_r|].
        split; [|by right]. apply (Hpresent "MP3"); [done|right; by left].
      * intros [= <-] Hin. by eapply Hrest.
Qed.

(** X16. The buttons of a TikTok link and the handler agree. A button the
    resolver renders is the token of one link of the cached list, numbered
    from 1; the handler reads that number back from the token and indexes
    the list with it, so it selects the very link the button was rendered
    for; the type of that link is present, has MP4 in it for an MP4 button
    and MP3 (but not MP4) for an MP3 button, so that an MP3 button always
    takes the branch that downloads the audio as it is. *)
Theorem tiktok_button_selects_its_link
    (o : outside) (links : list pyval) (timestamp session_id : string)
    (keyboard : list string) (button : string) :
  (forall k : nat,
     (1 <= k <= length links)%nat -> out_int o (pretty k) = Ok (Z.of_nat k)) ->
  tt_buttons links 1 timestamp session_id = Ok keyboard ->
  In button keyboard ->
  exists (j : nat) (link : pyval) (kind : string) (link_type : pyval),
    links !! j = Some link
    /\ button = tt_token kind (S j) timestamp session_id
    /\ part 1 (split "_" button) = kind
    /\ tt_link_index o button = Z.of_nat j
    /\ py_index (PList links) (tt_link_index o button) = Ok link
    /\ (forall dflt, py_get link "t" dflt = Ok link_type)
    /\ ((kind = "mp4" /\ py_contains_str "MP4" link_type = Ok true)
        \/ (kind = "mp3" /\ py_contains_str "MP4" link_type = Ok false
            /\ py_contains_str "MP3" link_type = Ok true)).
Proof.
  intros Hint Hrun Hin.
  destruct (tt_buttons_links _ _ _ _ _ _ Hrun Hin)
    as (j & link & kind & link_type & Hj & -> & Ht & Hkind).
  change (1 + j)%nat with (S j).
  assert (no_underscore kind = true) as Hk.
  { by destruct Hkind as [[-> _]|[-> _]]. }
  assert (j < length links)%nat as Hlt by (by eapply lookup_lt_Some).
  assert (tt_link_index o (tt_token kind (S j) timestamp session_id)
          = Z.of_nat j) as Hindex.
  { unfold tt_link_index. rewrite split_tt_token_head by done.
    pose proof (split_length "_" (timestamp +:+ "_" +:+ session_id)) as Hlen.
    cbn [length part nth].
    destruct (Nat.leb_spec 3
      (S (S (S (length (split "_" (timestamp +:+ "_" +:+ session_id)))))));
      [|lia].
    rewrite Hint by lia. lia. }
  exists j, link, kind, link_type. split; [done|]. split; [done|].
  split; [by rewrite split_tt_token_head|]. split; [done|].
  split; [|done].
  rewrite Hindex. unfold py_index.
  destruct (Z.ltb_spec (Z.of_nat j) 0); [lia|].
  destruct (Z.leb_spec 0 (Z.of_nat j)); [|lia].
  destruct (Z.ltb_spec (Z.of_nat j) (Z.of_nat (length links))); [|lia].
  cbn [andb]. by rewrite Nat2Z.id, nth_error_lookup, Hj.
Qed.

Lemma tiktok_button_selects_its_link_witness :
  exists (j : nat) (link : pyval) (kind : string) (link_type : pyval),
    sample_tt_links !! j = Some link
    /\ "tt_mp3_2_20240101000000_abc123"
       = tt_token kind (S j) "20240101000000" "abc123"
    /\ part 1 (split "_" "tt_mp3_2_20240101000000_abc123") = kind
    /\ tt_link_index sample_outside "tt_mp3_2_20240101000000_abc123"
       = Z.of_nat j
    /\ py_index (PList sample_tt_links)
         (tt_link_index sample_outside "tt_mp3_2_20240101000000_abc123")
       = Ok link
    /\ (forall dflt, py_get link "t" dflt = Ok link_type)
    /\ ((kind = "mp4" /\ py_contains_str "MP4" link_type = Ok true)
        \/ (kind = "mp3" /\ py_contains_str "MP4" link_type = Ok false
            /\ py_contains_str "MP3" link_type = Ok true)).
Proof.
  apply (tiktok_button_selects_its_link sample_outside sample_tt_links
           "20240101000000" "abc123"
           ["tt_mp4_1_20240101000000_abc123";
            "tt_mp3_2_20240101000000_abc123"]).
  - intros k Hk. cbn [length sample_tt_links] in Hk.
    assert (k = 1 \/ k = 2)%nat as [->| ->] by lia; reflexivity.
  - reflexivity.
  - right. by left.
Defined.
